(** * The knowledge store of ouroboros/tools/knowledge.py

    A shallow embedding of the topic-keyed note store: the topic sanitizer,
    the path-containment check, the index builder and the three handlers
    (read, write, list), over a model of the part of Python and of the POSIX
    file system the module relies on.

    - A Python [str] is a list of code points.
    - A [pathlib.Path] is an absolute POSIX path: the list of its components
      below the root.
    - The file system maps physical locations to inodes (directories, regular
      files, symbolic links); handlers run in a state-and-exception monad over
      it that also logs the pathlib calls the module makes besides
      [resolve()]. *)

From Stdlib Require Import NArith Ascii String List Lia.
From stdpp Require Import gmap list sorting.

Local Open Scope N_scope.

(** ** Python strings *)

Module Str.

Abbreviation char := N.
Abbreviation str := (list N).

(** An ASCII literal of the source, as code points. *)
Definition lit (s : string) : str := N_of_ascii <$> list_ascii_of_string s.

Definition nl : char := 10.
Definition cr : char := 13.
Definition slash : char := 47.

(** [str.isspace] on one character: the code points CPython's
    [_PyUnicode_IsWhitespace] accepts. *)
Definition isspace (c : char) : bool :=
  ((9 <=? c) && (c <=? 13)) || ((28 <=? c) && (c <=? 32))
  || (c =? 133) || (c =? 160) || (c =? 5760)
  || ((8192 <=? c) && (c <=? 8202))
  || (c =? 8232) || (c =? 8233) || (c =? 8239) || (c =? 8287) || (c =? 12288).

(** [s.lstrip(chars)], [s.rstrip(chars)], [s.strip(chars)], with the set of
    characters given as a predicate. *)
Fixpoint lstrip_by (p : char -> bool) (s : str) : str :=
  match s with
  | [] => []
  | c :: s' => if p c then lstrip_by p s' else s
  end.

Definition rstrip_by (p : char -> bool) (s : str) : str :=
  rev (lstrip_by p (rev s)).

Definition strip_by (p : char -> bool) (s : str) : str :=
  rstrip_by p (lstrip_by p s).

(** [s.strip()]: whitespace on both sides. *)
Definition strip (s : str) : str := strip_by isspace s.

(** [s.lstrip("#")]. *)
Definition lstrip_hash (s : str) : str := lstrip_by (N.eqb 35) s.

(** [s.startswith(pre)]. *)
Fixpoint startswith (pre s : str) : bool :=
  match pre, s with
  | [], _ => true
  | _ :: _, [] => false
  | a :: pre', b :: s' => (a =? b) && startswith pre' s'
  end.

(** [s.endswith(suf)]. *)
Definition endswith (suf s : str) : bool := startswith (rev suf) (rev s).

(** [sub in s]. *)
Fixpoint contains (sub s : str) : bool :=
  startswith sub s ||
  match s with
  | [] => false
  | _ :: s' => contains sub s'
  end.

(** [s.split(sep)] for a one-character separator. *)
Fixpoint split (sep : char) (s : str) : list str :=
  match s with
  | [] => [[]]
  | c :: s' =>
      if c =? sep then [] :: split sep s'
      else match split sep s' with
           | l :: ls => (c :: l) :: ls
           | [] => [[c]]
           end
  end.

(** [sep.join(parts)]. *)
Fixpoint join (sep : str) (parts : list str) : str :=
  match parts with
  | [] => []
  | [p] => p
  | p :: ps => p ++ sep ++ join sep ps
  end.

(** [s.lower()], on the ASCII range: the module only lowers strings that
    matched [_VALID_TOPIC], which are ASCII. *)
Definition lower_char (c : char) : char :=
  if (65 <=? c) && (c <=? 90) then c + 32 else c.
Definition lower (s : str) : str := lower_char <$> s.

(** [a < b] on strings: lexicographic on code points. *)
Fixpoint ltb (a b : str) : bool :=
  match a, b with
  | _, [] => false
  | [], _ :: _ => true
  | x :: a', y :: b' => (x <? y) || ((x =? y) && ltb a' b')
  end.

(** Text-mode reading with [newline=None] (what [open] and [Path.read_text]
    do): universal newlines, every "\r\n" and every remaining "\r" comes
    back as "\n". *)
Fixpoint universal_newlines (s : str) : str :=
  match s with
  | [] => []
  | c :: s' =>
      if c =? cr then
        match s' with
        | d :: s'' => if d =? nl then nl :: universal_newlines s''
                      else nl :: universal_newlines s'
        | [] => [nl]
        end
      else c :: universal_newlines s'
  end.

(** A code point the UTF-8 codec encodes: a scalar value, surrogates
    excluded. *)
Definition encodable_char (c : char) : bool :=
  (c <? 55296) || ((57343 <? c) && (c <=? 1114111)).
Definition encodable (s : str) : bool := forallb encodable_char s.

End Str.
Import Str.

(** ** Exceptions and results *)

Inductive exn :=
| ValueError (msg : str)
| UnicodeEncodeError
| UnicodeDecodeError
| RuntimeError (msg : str)
| FileNotFoundError (p : list str)
| FileExistsError (p : list str)
| IsADirectoryError (p : list str)
| NotADirectoryError (p : list str)
| OSError (p : list str).

Inductive outcome (A : Type) :=
| Ret (a : A)
| Raise (e : exn).
Arguments Ret {A} a.
Arguments Raise {A} e.

(** ** Sanitization *)

Definition KNOWLEDGE_DIR : str := lit "memory/knowledge".
Definition INDEX_FILE : str := lit "_index.md".

(** The character classes of [_VALID_TOPIC]: [[a-zA-Z0-9]] and
    [[a-zA-Z0-9_.-]]. *)
Definition alnum (c : char) : bool :=
  ((97 <=? c) && (c <=? 122)) || ((65 <=? c) && (c <=? 90))
  || ((48 <=? c) && (c <=? 57)).

Definition topic_char (c : char) : bool :=
  alnum c || (c =? 95) || (c =? 46) || (c =? 45).

(** First alternative, anchored at both ends:
    [[a-zA-Z0-9][a-zA-Z0-9_.-]{0,98}[a-zA-Z0-9]]. *)
Definition alt_long (s : str) : bool :=
  match s with
  | [] => false
  | c0 :: rest =>
      alnum c0 &&
      match rev rest with
      | [] => false
      | c1 :: mid => alnum c1 && (N.of_nat (length mid) <=? 98) && forallb topic_char mid
      end
  end.

(** Second alternative: [[a-zA-Z0-9]]. *)
Definition alt_single (s : str) : bool :=
  match s with
  | [c] => alnum c
  | _ => false
  end.

(** [_VALID_TOPIC.match(s)]. Without [re.MULTILINE], [$] matches at the end
    of the string and also just before a newline that ends the string. *)
Definition _VALID_TOPIC (s : str) : bool :=
  alt_long s || alt_single s ||
  (endswith [nl] s && (alt_long (removelast s) || alt_single (removelast s))).

Definition _RESERVED : list str :=
  [lit "_index"; lit "con"; lit "prn"; lit "aux"; lit "nul"].

(** [x in _RESERVED]. *)
Definition in_reserved (s : str) : bool :=
  bool_decide (s ∈ _RESERVED).

Definition _sanitize_topic (topic : str) : outcome str :=
  if bool_decide (topic = []) then
    Raise (ValueError (lit "Topic must be a non-empty string"))
  else
    let topic := strip topic in
    if contains (lit "/") topic || contains (lit "\") topic || contains (lit "..") topic then
      Raise (ValueError (lit "Invalid characters in topic: " ++ topic))
    else if negb (_VALID_TOPIC topic) then
      Raise (ValueError (lit "Invalid topic name: " ++ topic
                         ++ lit ". Use alphanumeric, underscore, hyphen, dot."))
    else if in_reserved (lower topic) then
      Raise (ValueError (lit "Reserved topic name: " ++ topic))
    else Ret topic.

(** ** Paths and the file system *)

(** [pathlib.Path], absolute: the components below the root. *)
Abbreviation Path := (list (list N)).

Module Posix.

(** [kdir / name], for a name without a separator: every name the module
    joins is a sanitised topic plus ".md", [INDEX_FILE], or the name of a
    directory entry. *)
Definition truediv (p : Path) (name : str) : Path := p ++ [name].

(** [str(path)]. *)
Definition str_of_path (p : Path) : str := slash :: join [slash] p.

(** [path.parent] and [path.name]. *)
Definition parent (p : Path) : Path := removelast p.
Definition name (p : Path) : str := List.last p [].

(** [path.stem]: the name without its last suffix; a name that only starts
    with a dot has no suffix. *)
Definition stem (p : Path) : str :=
  let n := name p in
  if endswith (lit ".md") n && (3 <? N.of_nat (length n))
  then take (length n - 3)%nat n else n.

(** [p < q] on paths: component by component. *)
Fixpoint path_ltb (p q : Path) : bool :=
  match p, q with
  | _, [] => false
  | [], _ :: _ => true
  | a :: p', b :: q' => Str.ltb a b || (bool_decide (a = b) && path_ltb p' q')
  end.
Definition path_le (p q : Path) : Prop := path_ltb q p = false.

#[global] Instance path_le_dec : RelDecision path_le :=
  λ p q, decide (path_ltb q p = false).

(** What a location holds. A regular file holds text, or bytes that are
    not UTF-8 text ([None]). Permission bits are not modelled: a regular
    file can always be opened. *)
Inductive inode :=
| Dir
| File (text : option str)
| Symlink (target : Path).

(** What lives at a physical location; the root is always a directory. *)
Definition stat (m : gmap Path inode) (loc : Path) : option inode :=
  match loc with
  | [] => Some Dir
  | _ => m !! loc
  end.

(** The bound on the symbolic links followed while resolving one path. *)
Definition MAXSYMLINKS : nat := 40.

(** Canonical location of [rest] read from the canonical directory [cur],
    as [os.path.realpath] computes it: ".." steps up, a symbolic link is
    replaced by its target, anything else (existing or not) is appended.
    [None] when more than [fuel] links are followed, as on a loop; a chain
    of more links than that, which [resolve()] would follow to its end, is
    out of the model, and the statements that rest on a resolution assume
    that it returns. *)
Fixpoint realpath_from (fuel : nat) (m : gmap Path inode) (cur rest : Path)
  {struct fuel} : option Path :=
  (fix walk (cur rest : Path) {struct rest} : option Path :=
     match rest with
     | [] => Some cur
     | c :: rest' =>
         if bool_decide (c = lit "..") then walk (removelast cur) rest'
         else
           match m !! (cur ++ [c]) with
           | Some (Symlink target) =>
               match fuel with
               | O => None
               | S fuel' => realpath_from fuel' m [] (target ++ rest')
               end
           | _ => walk (cur ++ [c]) rest'
           end
     end) cur rest.

Definition realpath (m : gmap Path inode) (p : Path) : option Path :=
  realpath_from MAXSYMLINKS m [] p.

(** The walk the kernel makes when a call names a path (path_resolution(7)):
    every component is looked up in a directory, so the walk fails ([None])
    below a missing component or a regular file (ENOENT, ENOTDIR), and
    after [fuel] links (ELOOP). The last component may be missing: the
    walk then names the location a file would be created at. The calls
    below locate their file with [realpath]; wherever the kernel's walk
    succeeds the two name the same location. *)
Fixpoint namei_from (fuel : nat) (m : gmap Path inode) (cur rest : Path)
  {struct fuel} : option Path :=
  (fix walk (cur rest : Path) {struct rest} : option Path :=
     match rest with
     | [] => Some cur
     | c :: rest' =>
         match stat m cur with
         | Some Dir =>
             if bool_decide (c = lit "..") then walk (removelast cur) rest'
             else
               match m !! (cur ++ [c]) with
               | Some (Symlink target) =>
                   match fuel with
                   | O => None
                   | S fuel' => namei_from fuel' m [] (target ++ rest')
                   end
               | _ => walk (cur ++ [c]) rest'
               end
         | _ => None
         end
     end) cur rest.

Definition namei (m : gmap Path inode) (p : Path) : option Path :=
  namei_from MAXSYMLINKS m [] p.

(** The names of the entries of directory [d]. *)
Definition listdir (m : gmap Path inode) (d : Path) : list str :=
  name <$> filter (λ q, q ≠ [] ∧ parent q = d) (elements (dom m)).

(** The calls the module makes on a file or a directory, with the
    canonical location they act on. [resolve()] examines the path on its
    own (it reads the links on the way and tests the result); what it
    queries is not recorded. *)
Inductive event :=
| EvStat (loc : Path)
| EvRead (loc : Path)
| EvWrite (loc : Path) (data : str)
| EvMkdir (loc : Path)
| EvGlob (loc : Path).

Record world := World { fs : gmap Path inode; log : list event }.

Definition emit (ev : event) (w : world) : world :=
  World (fs w) (log w ++ [ev]).

Definition set_inode (loc : Path) (i : inode) (w : world) : world :=
  World (<[loc := i]> (fs w)) (log w).

End Posix.
Import Posix.

(** ** The monad of the handlers: state and exceptions *)

Definition M (A : Type) : Type := world -> outcome A * world.

Definition ret {A} (a : A) : M A := fun w => (Ret a, w).
Definition raise {A} (e : exn) : M A := fun w => (Raise e, w).
Definition bind {A B} (m : M A) (k : A -> M B) : M B :=
  fun w => match m w with
           | (Ret a, w') => k a w'
           | (Raise e, w') => (Raise e, w')
           end.
(** [try: x = m / except ValueError as e: return h(e)], then [k x]. *)
Definition try_ValueError {A B} (m : M A) (h : str -> M B) (k : A -> M B) : M B :=
  fun w => match m w with
           | (Ret a, w') => k a w'
           | (Raise (ValueError msg), w') => h msg w'
           | (Raise e, w') => (Raise e, w')
           end.
(** [try: m / except Exception: h]. *)
Definition try_except {A} (m : M A) (h : exn -> M A) : M A :=
  fun w => match m w with
           | (Ret a, w') => (Ret a, w')
           | (Raise e, w') => h e w'
           end.
Definition lift {A} (o : outcome A) : M A := fun w => (o, w).

Notation "'let*' x ':=' m 'in' k" := (bind m (fun x => k))
  (at level 10, x name, m at level 100, k at level 200).
Notation "'let*' '_' ':=' m 'in' k" := (bind m (fun _ => k))
  (at level 10, m at level 100, k at level 200).

(** ** The pathlib calls of the module *)

(** [path.resolve()]. On a loop it raises [RuntimeError] with the path in
    quotes, as [%r] prints a path without quotes or escapes of its own. *)
Definition resolve (p : Path) : M Path := fun w =>
  match realpath (fs w) p with
  | Some r => (Ret r, w)
  | None =>
      (Raise (RuntimeError (lit "Symlink loop from '" ++ str_of_path p ++ lit "'")), w)
  end.

(** [path.exists()]; [False] also when the path cannot be resolved. *)
Definition exists_ (p : Path) : M bool := fun w =>
  match realpath (fs w) p with
  | None => (Ret false, w)
  | Some loc =>
      (Ret (match stat (fs w) loc with
            | Some Dir | Some (File _) => true
            | _ => false
            end), emit (EvStat loc) w)
  end.

(** [path.is_dir()]. *)
Definition is_dir (p : Path) : M bool := fun w =>
  match realpath (fs w) p with
  | None => (Ret false, w)
  | Some loc =>
      (Ret (match stat (fs w) loc with
            | Some Dir => true
            | _ => false
            end), emit (EvStat loc) w)
  end.

(** [path.read_text(encoding="utf-8")]: text mode, universal newlines. *)
Definition read_text (p : Path) : M str := fun w =>
  match realpath (fs w) p with
  | None => (Raise (OSError p), w)
  | Some loc =>
      let w' := emit (EvRead loc) w in
      match stat (fs w) loc with
      | None => (Raise (FileNotFoundError p), w')
      | Some Dir => (Raise (IsADirectoryError p), w')
      | Some (Symlink _) => (Raise (OSError p), w')
      | Some (File None) => (Raise UnicodeDecodeError, w')
      | Some (File (Some text)) => (Ret (universal_newlines text), w')
      end
  end.

(** [path.write_text(data, encoding="utf-8")]: the file is opened for
    writing (created or truncated) and the encoded text written; text that
    UTF-8 cannot encode raises after the open, leaving the file empty. *)
Definition write_text (p : Path) (data : str) : M unit := fun w =>
  match realpath (fs w) p with
  | None => (Raise (OSError p), w)
  | Some loc =>
      let w' := emit (EvWrite loc data) w in
      let store :=
        if encodable data then (Ret tt, set_inode loc (File (Some data)) w')
        else (Raise UnicodeEncodeError, set_inode loc (File (Some [])) w') in
      match stat (fs w) loc with
      | Some Dir => (Raise (IsADirectoryError p), w')
      | Some (Symlink _) => (Raise (OSError p), w')
      | Some (File _) => store
      | None =>
          match stat (fs w) (parent loc) with
          | Some Dir => store
          | None => (Raise (FileNotFoundError p), w')
          | Some _ => (Raise (NotADirectoryError p), w')
          end
      end
  end.

(** [os.mkdir(p)]: the last component is not followed. *)
Definition os_mkdir (p : Path) : M unit := fun w =>
  match rev p with
  | [] => (Raise (FileExistsError p), w)
  | n :: rpar =>
      match realpath (fs w) (rev rpar) with
      | None => (Raise (OSError p), w)
      | Some ploc =>
          let loc := ploc ++ [n] in
          let w' := emit (EvMkdir loc) w in
          match stat (fs w) ploc with
          | None => (Raise (FileNotFoundError p), w')
          | Some Dir =>
              match fs w !! loc with
              | None => (Ret tt, set_inode loc Dir w')
              | Some _ => (Raise (FileExistsError p), w')
              end
          | Some _ => (Raise (NotADirectoryError p), w')
          end
      end
  end.

(** [path.mkdir(parents=False, exist_ok=True)]. *)
Definition mkdir_exist_ok (p : Path) : M unit := fun w =>
  match os_mkdir p w with
  | (Ret tt, w') => (Ret tt, w')
  | (Raise (FileNotFoundError q), w') => (Raise (FileNotFoundError q), w')
  | (Raise e, w') =>
      match is_dir p w' with
      | (Ret true, w'') => (Ret tt, w'')
      | (_, w'') => (Raise e, w'')
      end
  end.

(** [path.mkdir(parents=True, exist_ok=True)], on the reversed path: a
    missing parent is created first, then the directory itself. *)
Fixpoint mkdir_parents_rev (rp : Path) : M unit := fun w =>
  match os_mkdir (rev rp) w with
  | (Ret tt, w') => (Ret tt, w')
  | (Raise (FileNotFoundError q), w') =>
      match rp with
      | [] => (Raise (FileNotFoundError q), w')
      | _ :: rpar =>
          match mkdir_parents_rev rpar w' with
          | (Ret tt, w'') => mkdir_exist_ok (rev rp) w''
          | r => r
          end
      end
  | (Raise e, w') =>
      match is_dir (rev rp) w' with
      | (Ret true, w'') => (Ret tt, w'')
      | (_, w'') => (Raise e, w'')
      end
  end.

Definition mkdir_parents (p : Path) : M unit := mkdir_parents_rev (rev p).

(** [path.glob("*.md")]: the entries of the directory whose name ends in
    ".md" (hidden ones included), in no particular order; nothing when the
    path is not a directory. *)
Definition glob_md (p : Path) : M (list Path) := fun w =>
  match realpath (fs w) p with
  | None => (Ret [], w)
  | Some loc =>
      let w' := emit (EvGlob loc) w in
      match stat (fs w) loc with
      | Some Dir =>
          (Ret (truediv p <$> filter (λ n, endswith (lit ".md") n = true)
                                     (listdir (fs w) loc)), w')
      | _ => (Ret [], w')
      end
  end.

(** [sorted(paths)]. *)
Definition sorted (l : list Path) : list Path := merge_sort path_le l.

(** ** The module *)

(** What the module uses of [ToolContext]: [ctx.drive_path(rel)], the
    location of a logical relative path on the mounted drive. *)
Record ToolContext := { drive_path : str -> Path }.

Definition _safe_path (ctx : ToolContext) (topic : str) : M Path :=
  let* topic := lift (_sanitize_topic topic) in
  let kdir := drive_path ctx KNOWLEDGE_DIR in
  let path := truediv kdir (topic ++ lit ".md") in
  let* resolved := resolve path in
  let* kdir_resolved := resolve kdir in
  if negb (startswith (str_of_path kdir_resolved ++ lit "/") (str_of_path resolved))
     && negb (bool_decide (resolved = kdir_resolved))
  then raise (ValueError (lit "Path escape detected: " ++ topic))
  else ret path.

Definition _ensure_dir (ctx : ToolContext) : M unit :=
  mkdir_parents (drive_path ctx KNOWLEDGE_DIR).

(** The inner loop of [_update_index]: the first line that is not empty
    once stripped, cut at 120 characters. *)
Fixpoint first_line (lines : list str) : str :=
  match lines with
  | [] => []
  | line :: rest =>
      let line := strip (lstrip_hash (strip line)) in
      if bool_decide (line = []) then first_line rest else take 120 line
  end.

Definition entry_line (topic summary : str) : str :=
  lit "- **" ++ topic ++ lit "**: " ++ summary.

(** The outer loop of [_update_index] over the sorted files. *)
Fixpoint index_entries (files : list Path) : M (list str) :=
  match files with
  | [] => ret []
  | f :: files' =>
      if bool_decide (name f = INDEX_FILE) then index_entries files'
      else
        let topic := stem f in
        let* entry :=
          try_except
            (let* text := read_text f in
             let text := strip text in
             ret (entry_line topic (first_line (split nl text))))
            (fun _ => ret (entry_line topic (lit "(unreadable)"))) in
        let* entries := index_entries files' in
        ret (entry :: entries)
  end.

Definition index_content (entries : list str) : str :=
  lit "# Knowledge Base Index" ++ [nl; nl] ++
  match entries with
  | [] => lit "(empty)" ++ [nl]
  | _ => join [nl] entries ++ [nl]
  end.

Definition _update_index (ctx : ToolContext) : M unit :=
  let kdir := drive_path ctx KNOWLEDGE_DIR in
  let* present := exists_ kdir in
  if negb present then ret tt
  else
    let* files := glob_md kdir in
    let* entries := index_entries (sorted files) in
    write_text (truediv kdir INDEX_FILE) (index_content entries).

Definition warning_sign : str := [9888; 65039].
Definition check_mark : str := [9989].

Definition invalid_topic_msg (e : str) : str :=
  warning_sign ++ lit " Invalid topic: " ++ e.

Definition not_found_msg (topic : str) : str :=
  lit "Topic '" ++ topic ++ lit "' not found. Use knowledge_list to see available topics.".

Definition invalid_mode_msg (mode : str) : str :=
  warning_sign ++ lit " Invalid mode '" ++ mode ++ lit "'. Use 'overwrite' or 'append'.".

Definition saved_msg (topic mode : str) : str :=
  check_mark ++ lit " Knowledge '" ++ topic ++ lit "' saved (" ++ mode ++ lit ").".

Definition empty_store_msg : str :=
  lit "Knowledge base is empty. Use knowledge_write to add topics.".

Definition _knowledge_read (ctx : ToolContext) (topic : str) : M str :=
  try_ValueError (_safe_path ctx topic)
    (fun e => ret (invalid_topic_msg e))
    (fun path =>
       let* present := exists_ path in
       if negb present then ret (not_found_msg topic)
       else read_text path).

(** Lines 125 to 134 of [_knowledge_write]: the directory is ensured and the
    content written, over or after what the entry holds. *)
Definition store_content (ctx : ToolContext) (path : Path) (content mode : str) : M unit :=
  let* _ := _ensure_dir ctx in
  let* present := (if bool_decide (mode = lit "append") then exists_ path else ret false) in
  if present then
    let* existing := read_text path in
    let existing :=
      if bool_decide (existing <> []) && negb (endswith [nl] existing)
      then existing ++ [nl] else existing in
    write_text path (existing ++ content)
  else write_text path content.

Definition _knowledge_write (ctx : ToolContext) (topic content mode : str) : M str :=
  try_ValueError (_safe_path ctx topic)
    (fun e => ret (invalid_topic_msg e))
    (fun path =>
       if negb (bool_decide (mode = lit "overwrite") || bool_decide (mode = lit "append"))
       then ret (invalid_mode_msg mode)
       else
         let* _ := store_content ctx path content mode in
         let* _ := _update_index ctx in
         ret (saved_msg topic mode)).

Definition _knowledge_list (ctx : ToolContext) : M str :=
  let kdir := drive_path ctx KNOWLEDGE_DIR in
  let index_path := truediv kdir INDEX_FILE in
  let* present := exists_ index_path in
  if present then read_text index_path
  else
    let* kdir_present := exists_ kdir in
    let* found :=
      (if kdir_present then
         let* _ := _update_index ctx in
         exists_ index_path
       else ret false) in
    if found then read_text index_path
    else ret empty_store_msg.

(** ** Statements about the sanitizer *)

Definition backslash : char := 92.

(** The shape [_VALID_TOPIC] accepts, as the data model words it: 1 to 100
    characters of the topic class, alphanumeric at both ends. *)
Definition well_shaped (t : str) : Prop :=
  t <> [] /\ (length t <= 100)%nat /\ forallb topic_char t = true
  /\ (exists c, head t = Some c /\ alnum c = true)
  /\ (exists c, last t = Some c /\ alnum c = true).

(** The reserved words, as the specification lists them. *)
Definition reserved_words : list str :=
  [lit "_index"; lit "con"; lit "prn"; lit "aux"; lit "nul"].

(** Two characters that are equal, or the same ASCII letter in its two
    cases (the capital comes 32 code points before the small letter). *)
Definition same_letter (c d : char) : bool :=
  (c =? d)
  || ((65 <=? c) && (c <=? 90) && (d =? c + 32))
  || ((65 <=? d) && (d <=? 90) && (c =? d + 32)).

(** Equality of two strings up to the case of their letters. *)
Fixpoint equal_ignoring_case (a b : str) : bool :=
  match a, b with
  | [], [] => true
  | c :: a', d :: b' => same_letter c d && equal_ignoring_case a' b'
  | _, _ => false
  end.

(** The rejection rule as the specification words it, on the trimmed
    input. *)
Definition spec_rejected (raw : str) : Prop :=
  let t := strip raw in
  t = []
  \/ (100 < length t)%nat
  \/ (exists c, c ∈ t /\ topic_char c = false)
  \/ slash ∈ t
  \/ backslash ∈ t
  \/ (exists a b, t = a ++ lit ".." ++ b)
  \/ (exists c, head t = Some c /\ alnum c = false)
  \/ (exists c, last t = Some c /\ alnum c = false)
  \/ (exists w, w ∈ reserved_words /\ equal_ignoring_case t w = true).

(** The tests [_sanitize_topic] makes, in its own order. *)
Definition code_rejected (raw : str) : Prop :=
  let t := strip raw in
  raw = []
  \/ contains (lit "/") t = true \/ contains (lit "\") t = true
  \/ contains (lit "..") t = true
  \/ _VALID_TOPIC t = false
  \/ in_reserved (lower t) = true.


(** ** Statements about the file system *)

(** [r] is [k] or lies below it: comparison by path components. *)
Definition within (k r : Path) : Prop := k `prefix_of` r.

(** Two file systems with the same symbolic links. *)
Definition same_links (m m' : gmap Path inode) : Prop :=
  forall loc t, m !! loc = Some (Symlink t) <-> m' !! loc = Some (Symlink t).

(** The components of a path, as pathlib keeps them: no separator inside. *)
Definition slash_free (p : Path) : Prop := Forall (fun n => slash ∉ n) p.

(** [m'] is [m] with directories added where nothing was. *)
Definition adds_dirs (m m' : gmap Path inode) : Prop :=
  forall loc, m' !! loc = m !! loc \/ (m !! loc = None /\ m' !! loc = Some Dir).

(** The events a run added to the log. *)
Definition logged (w w' : world) (evs : list event) : Prop :=
  log w' = log w ++ evs.

(** ** Statements about the index *)

(** What [read_text] yields on a file system, the log left out. *)
Definition read_result (m : gmap Path inode) (p : Path) : outcome str :=
  match realpath m p with
  | None => Raise (OSError p)
  | Some loc =>
      match stat m loc with
      | None => Raise (FileNotFoundError p)
      | Some Dir => Raise (IsADirectoryError p)
      | Some (Symlink _) => Raise (OSError p)
      | Some (File None) => Raise UnicodeDecodeError
      | Some (File (Some text)) => Ret (universal_newlines text)
      end
  end.

(** A line of the entry as the summary loop cleans it. *)
Definition clean (line : str) : str := strip (lstrip_hash (strip line)).

(** The summary [_update_index] derives from the text of an entry. *)
Definition summary (text : str) : str := first_line (split nl (strip text)).

(** The index line of the entry file [f]. *)
Definition entry_of (m : gmap Path inode) (f : Path) : str :=
  entry_line (stem f)
    match read_result m f with
    | Ret text => summary text
    | Raise _ => lit "(unreadable)"
    end.

(** Order on file names: by code points. *)
Definition name_le (a b : str) : Prop := Str.ltb b a = false.

(** The fixed header, then one line per entry or the fixed empty line. *)
Definition index_header : str := lit "# Knowledge Base Index" ++ [nl; nl].
Definition index_body (entries : list str) : str :=
  match entries with
  | [] => lit "(empty)" ++ [nl]
  | _ => concat ((fun e => e ++ [nl]) <$> entries)
  end.

(** ** A drive to run the handlers on *)

(** A context that mounts the drive at /drive. *)
Definition drive_ctx : ToolContext :=
  {| drive_path := fun rel => lit "drive" :: split slash rel |}.

Definition kb_dir : Path := [lit "drive"; lit "memory"; lit "knowledge"].

(** Nothing on the drive yet. *)
Definition fresh_world : world := World ∅ [].

(** The knowledge directory exists and is empty. *)
Definition empty_store : gmap Path inode :=
  <[kb_dir := Dir]> (<[[lit "drive"; lit "memory"] := Dir]> (<[[lit "drive"] := Dir]> ∅)).

(** The knowledge directory with a link planted in it that points out of
    the drive. *)
Definition planted_store : gmap Path inode :=
  <[kb_dir ++ [lit "evil.md"] := Symlink [lit "etc"; lit "passwd"]]> empty_store.

(** A drive with a password file out of the knowledge directory, and in
    the knowledge directory two planted links: an entry that points to the
    password file, and the index name pointing to a path out of the
    drive. *)
Definition leaky_store : gmap Path inode :=
  <[kb_dir ++ [INDEX_FILE] := Symlink [lit "etc"; lit "motd"]]>
    (<[[lit "etc"; lit "passwd"] := File (Some (lit "root:x:0:0"))]>
       (<[[lit "etc"] := Dir]> planted_store)).

(** ** Statements about write *)

(** What append leaves in an entry that held [existing]: the old text, a
    newline if the old text is not empty and does not end with one, the
    new text. *)
Definition append_result (existing content : str) : str :=
  existing
  ++ (if bool_decide (existing <> []) && negb (endswith [nl] existing) then [nl] else [])
  ++ content.

Definition is_write (ev : event) : Prop := exists loc data, ev = EvWrite loc data.

(** The first [write_text] a run makes stores [data] at [loc]. *)
Definition first_write (w w' : world) (loc : Path) (data : str) : Prop :=
  exists before rest,
    log w' = log w ++ before ++ EvWrite loc data :: rest
    /\ Forall (fun ev => ~ is_write ev) before.

(** The knowledge directory with a directory where the index file should
    be: the index cannot be written. *)
Definition broken_index_store : gmap Path inode :=
  <[kb_dir ++ [INDEX_FILE] := Dir]> empty_store.

(** The knowledge directory with a directory where the entry of topic
    notes should be: the entry cannot be written. *)
Definition broken_entry_store : gmap Path inode :=
  <[kb_dir ++ [lit "notes.md"] := Dir]> empty_store.

(** The summary as the specification words it: the first non-blank line,
    then stripped of whitespace and leading "#" and cut at 120. *)
Definition spec_summary (text : str) : str :=
  match filter (fun line => strip line <> []) (split nl text) with
  | [] => []
  | line :: _ => take 120 (clean line)
  end.

(** The summary as the loop computes it: among the lines of the trimmed
    text, the first that is not empty once cleaned, cleaned and cut at
    120; empty when there is none. *)
Definition is_summary (text s : str) : Prop :=
  let lines := split nl (strip text) in
  (exists skipped line rest,
      lines = skipped ++ line :: rest
      /\ Forall (fun l => clean l = []) skipped
      /\ clean line <> [] /\ s = take 120 (clean line))
  \/ (Forall (fun l => clean l = []) lines /\ s = []).

(** What a rebuild over the directory at [k] does: it reads the entry
    files, the files of the directory named *.md other than the index, in
    the order of their names, and then makes one [write_text] of the index:
    the header, then a line per entry, or the empty line. *)
Definition index_rebuilt (ctx : ToolContext) (w : world) (k : Path) : Prop :=
  let kdir := drive_path ctx KNOWLEDGE_DIR in
  exists names w1,
    (forall n, n ∈ names <-> is_Some (fs w !! (k ++ [n])) /\ endswith (lit ".md") n = true
                              /\ n <> INDEX_FILE)
    /\ NoDup names /\ StronglySorted name_le names
    /\ fs w1 = fs w
    /\ _update_index ctx w
       = write_text (truediv kdir INDEX_FILE)
           (index_header ++ index_body ((fun n => entry_of (fs w) (truediv kdir n)) <$> names)) w1.

(** Two entries, one of which starts with a line of markers only, and a
    directory named like an entry. *)
Definition sample_store : gmap Path inode :=
  <[kb_dir ++ [lit "b.md"] := File (Some (lit "#" ++ [nl] ++ lit "hello"))]>
    (<[kb_dir ++ [lit "a.md"] := File (Some (lit "  ## Title  " ++ [nl] ++ lit "text"))]>
       (<[kb_dir ++ [lit "c.md"] := Dir]> empty_store)).

(** ** Statements about list *)

(** The writes among the events of a run. *)
Definition is_write_b (ev : event) : bool :=
  match ev with
  | EvWrite _ _ => true
  | _ => false
  end.
Definition writes (evs : list event) : list event :=
  filter (fun ev => is_write_b ev = true) evs.

(** An index file left by another program, with a carriage return in it. *)
Definition foreign_index_store : gmap Path inode :=
  <[kb_dir ++ [INDEX_FILE] := File (Some (lit "# Index" ++ [cr; nl] ++ lit "- a"))]> empty_store.

(** Every symbolic link of the file system has a well-formed target. *)
Definition links_slash_free (m : gmap Path inode) : Prop :=
  forall loc target, m !! loc = Some (Symlink target) -> slash_free target.
(** ** Statements about stores and their entries *)

(** No entry of the directory at [k] is a symbolic link. *)
Definition plain_entries (m : gmap Path inode) (k : Path) : Prop :=
  forall n target, m !! (k ++ [n]) <> Some (Symlink target).

(** A drive whose knowledge directory is a link to the root directory. *)
Definition rooted_store : gmap Path inode :=
  <[kb_dir := Symlink []]>
    (<[[lit "drive"; lit "memory"] := Dir]> (<[[lit "drive"] := Dir]> ∅)).

(** A drive where a regular file stands at the path of the knowledge
    directory. *)
Definition blocked_store : gmap Path inode :=
  <[kb_dir := File (Some (lit "not a directory"))]>
    (<[[lit "drive"; lit "memory"] := Dir]> (<[[lit "drive"] := Dir]> ∅)).

(** A store without symbolic links. *)
Definition is_link (i : inode) : bool :=
  match i with
  | Symlink _ => true
  | _ => false
  end.
Definition link_free (m : gmap Path inode) : Prop :=
  map_Forall (fun _ i => is_link i = false) m.

#[global] Instance link_free_dec m : Decision (link_free m).
Proof. unfold link_free. apply _. Defined.

(** What reading a path gives, by what stands at the location it resolves
    to: the result of [read_text] for a directory or a regular file. *)
Definition read_inode (p : Path) (i : inode) : outcome str :=
  match i with
  | Dir => Raise (IsADirectoryError p)
  | File None => Raise UnicodeDecodeError
  | File (Some text) => Ret (universal_newlines text)
  | Symlink _ => Raise (OSError p)
  end.

(** The knowledge directory with a directory named like an entry and an
    entry that is not UTF-8 text. *)
Definition odd_store : gmap Path inode :=
  <[kb_dir ++ [lit "bin.md"] := File None]>
    (<[kb_dir ++ [lit "dir.md"] := Dir]> empty_store).

(** A lone surrogate: a Python string can hold it, UTF-8 cannot encode
    it. *)
Definition lone_surrogate : str := [55357].

(** The knowledge directory with an entry that is a link to the directory
    itself. *)
Definition looped_store : gmap Path inode :=
  <[kb_dir ++ [lit "self.md"] := Symlink kb_dir]> empty_store.

(** The base directory of [ctx] and its parent are directories, and the
    base directory resolves to [k]. *)
Definition base_ready (ctx : ToolContext) (m : gmap Path inode) (k : Path) : Prop :=
  exists par n ploc,
    drive_path ctx KNOWLEDGE_DIR = par ++ [n] /\ n <> lit ".."
    /\ realpath m par = Some ploc /\ stat m ploc = Some Dir
    /\ realpath m (par ++ [n]) = Some k /\ stat m k = Some Dir.

(** The names of the entries of the directory at [k], and the texts of its
    text files, are text UTF-8 can encode. *)
Definition encodable_dir (m : gmap Path inode) (k : Path) : Prop :=
  forall n i, m !! (k ++ [n]) = Some i ->
    encodable n = true /\ forall text, i = File (Some text) -> encodable text = true.

(** Nothing, or a regular file: what [write_text] can write to. *)
Definition writable (o : option inode) : Prop :=
  o = None \/ exists x, o = Some (File x).

(** Nothing, or a regular file that holds text. *)
Definition text_or_nothing (o : option inode) : Prop :=
  o = None \/ exists text, o = Some (File (Some text)).

(** Every name and every text of the store can be encoded. *)
Definition encodable_inode (loc : Path) (i : inode) : bool :=
  encodable (name loc)
  && match i with
     | File (Some text) => encodable text
     | _ => true
     end.
Definition encodable_store (m : gmap Path inode) : Prop :=
  map_Forall (fun loc i => encodable_inode loc i = true) m.

#[global] Instance encodable_store_dec m : Decision (encodable_store m).
Proof. unfold encodable_store. apply _. Defined.

(** ** The tool table *)

(** One property of a JSON schema of parameters: its "type", its
    "description", and its "enum" when it has one. *)
Record property := Property {
  p_type : str;
  p_description : str;
  p_enum : option (list str)
}.

(** The "parameters" of a tool: an object schema with its "properties"
    and "required" names. *)
Record schema := Schema {
  s_type : str;
  s_properties : list (str * property);
  s_required : list str
}.

(** The handlers of the module, by their positional parameters after the
    context. *)
Inductive handler :=
| OnTopic (f : ToolContext -> str -> M str)
| OnTopicContentMode (f : ToolContext -> str -> str -> str -> M str)
| OnNothing (f : ToolContext -> M str).

(** What [get_tools] uses of [ToolEntry]: the four keyword arguments it
    is built with. *)
Record ToolEntry := {
  te_name : str;
  te_description : str;
  te_parameters : schema;
  te_handler : handler
}.

Definition get_tools : list ToolEntry :=
  [ {| te_name := lit "knowledge_read";
       te_description := lit "Read a topic from the persistent knowledge base on Drive.";
       te_parameters :=
         Schema (lit "object")
           [(lit "topic",
             Property (lit "string")
               (lit "Topic name (alphanumeric, hyphens, underscores). E.g. 'browser-automation', 'joi_gotchas'")
               None)]
           [lit "topic"];
       te_handler := OnTopic _knowledge_read |};
    {| te_name := lit "knowledge_write";
       te_description :=
         lit "Write or append to a knowledge topic. Use for recipes, gotchas, patterns learned from experience.";
       te_parameters :=
         Schema (lit "object")
           [(lit "topic",
             Property (lit "string") (lit "Topic name (alphanumeric, hyphens, underscores)") None);
            (lit "content",
             Property (lit "string") (lit "Content to write (markdown)") None);
            (lit "mode",
             Property (lit "string") (lit "Write mode: 'overwrite' (default) or 'append'")
               (Some [lit "overwrite"; lit "append"]))]
           [lit "topic"; lit "content"];
       te_handler := OnTopicContentMode _knowledge_write |};
    {| te_name := lit "knowledge_list";
       te_description := lit "List all topics in the knowledge base with summaries.";
       te_parameters := Schema (lit "object") [] [];
       te_handler := OnNothing _knowledge_list |} ].

(** The tool registered under a name, and the values a parameter of a
    tool is restricted to. *)
Definition find_tool (name : str) : option ToolEntry :=
  head (filter (fun e => te_name e = name) get_tools).

Definition enum_of (e : ToolEntry) (param : str) : option (list str) :=
  match filter (fun kv => kv.1 = param) (s_properties (te_parameters e)) with
  | (_, p) :: _ => p_enum p
  | [] => None
  end.

(** ** Proof tactics *)

(** Inversion of an equation between results, without looking at the other
    hypotheses. *)
Ltac pair_eq H := injection H as ? ?; subst.

(** Every event of a short, explicit list has the stated shape. *)
Ltac one_event :=
  lazymatch goal with
  | |- _ /\ _ => split; [one_event | assumption]
  | |- _ \/ _ => first [left; one_event | right; one_event]
  | |- ex _ => eexists; one_event
  | |- _ = _ => reflexivity
  end.

Ltac log_ok := unfold logged, emit; simpl; rewrite <- ?app_assoc; reflexivity.

Ltac each_event :=
  repeat (apply Forall_cons; split; [cbv beta; one_event |]); by constructor.

(** Closed facts about concrete paths and stores, by evaluation. *)
Ltac by_eval := vm_compute; first [reflexivity | discriminate | done].

Ltac decide_eval := apply (bool_decide_unpack _); vm_compute; reflexivity.

(** * Properties *)

(** ** Strings *)

Lemma startswith_spec (pre s : str) :
  startswith pre s = true <-> exists b, s = pre ++ b.
Proof.
  revert s; induction pre as [|a pre IH]; intros s; simpl.
  - split; eauto.
  - destruct s as [|c s]; simpl.
    + split; [discriminate | intros [b Hb]; discriminate].
    + rewrite andb_true_iff, N.eqb_eq, IH. split.
      * intros [-> [b ->]]. eauto.
      * intros [b Hb]. injection Hb as -> ->. eauto.
Qed.

Lemma endswith_spec (suf s : str) :
  endswith suf s = true <-> exists a, s = a ++ suf.
Proof.
  unfold endswith. rewrite startswith_spec. split.
  - intros [b Hb]. exists (rev b).
    rewrite <- (rev_involutive s), Hb, rev_app_distr, rev_involutive. done.
  - intros [a ->]. exists (rev a). by rewrite rev_app_distr.
Qed.

Lemma contains_spec (sub s : str) :
  contains sub s = true <-> exists a b, s = a ++ sub ++ b.
Proof.
  induction s as [|c s IH]; simpl.
  - rewrite orb_false_r, startswith_spec. split.
    + intros [b Hb]. exists [], b. done.
    + intros (a & b & Hab). destruct a; simpl in *; [eauto | discriminate].
  - rewrite orb_true_iff, startswith_spec, IH. split.
    + intros [[b Hb] | (a & b & ->)].
      * exists [], b. done.
      * exists (c :: a), b. done.
    + intros (a & b & Hab). destruct a as [|x a]; simpl in *.
      * left. eauto.
      * right. injection Hab as -> ->. eauto.
Qed.

Lemma contains_char (c : char) (s : str) :
  contains [c] s = true <-> c ∈ s.
Proof.
  rewrite contains_spec. split.
  - intros (a & b & ->). set_solver.
  - intros Hin. apply list_elem_of_split in Hin as (a & b & ->). eauto.
Qed.

Lemma lstrip_by_head p s c :
  head (lstrip_by p s) = Some c -> p c = false.
Proof.
  induction s as [|x s IH]; simpl; [done |].
  destruct (p x) eqn:E; [done |]. simpl. congruence.
Qed.

Lemma lstrip_by_fix p s c :
  head s = Some c -> p c = false -> lstrip_by p s = s.
Proof. destruct s; simpl; [done |]. intros [= ->] ->. done. Qed.

Lemma lstrip_by_app_l p a s :
  forallb p a = true -> lstrip_by p (a ++ s) = lstrip_by p s.
Proof.
  induction a as [|x a IH]; simpl; [done |].
  rewrite andb_true_iff. intros [-> Ha]. auto.
Qed.

Lemma forallb_rev' {A} (p : A -> bool) (l : list A) :
  forallb p (rev l) = forallb p l.
Proof.
  induction l as [|x l IH]; simpl; [done |].
  rewrite forallb_app, IH. simpl. rewrite andb_true_r. apply andb_comm.
Qed.

Lemma last_rev {A} (l : list A) : last (rev l) = head l.
Proof. destruct l as [|x l]; simpl; [done |]. by rewrite last_snoc. Qed.

Lemma head_rev {A} (l : list A) : head (rev l) = last l.
Proof. by rewrite <- last_rev, rev_involutive. Qed.

Lemma rstrip_by_last p s c :
  last (rstrip_by p s) = Some c -> p c = false.
Proof. unfold rstrip_by. rewrite last_rev. apply lstrip_by_head. Qed.

Lemma lstrip_by_snoc p l c :
  p c = false -> lstrip_by p (l ++ [c]) = lstrip_by p l ++ [c].
Proof.
  intros Hc. induction l as [|x l IH]; simpl.
  - by rewrite Hc.
  - destruct (p x); done.
Qed.

Lemma rstrip_by_head p s c :
  head s = Some c -> p c = false -> head (rstrip_by p s) = Some c.
Proof.
  unfold rstrip_by. destruct s as [|x s]; simpl; [done |].
  intros [= ->] Hc. rewrite lstrip_by_snoc by done.
  by rewrite rev_app_distr.
Qed.

Lemma strip_by_head p s c : head (strip_by p s) = Some c -> p c = false.
Proof.
  unfold strip_by. intros Hh.
  destruct (head (lstrip_by p s)) as [d|] eqn:E.
  - pose proof (lstrip_by_head _ _ _ E) as Hd.
    rewrite (rstrip_by_head _ _ _ E Hd) in Hh. congruence.
  - destruct (lstrip_by p s); [|done]. done.
Qed.

Lemma strip_by_last p s c : last (strip_by p s) = Some c -> p c = false.
Proof. apply rstrip_by_last. Qed.

Lemma strip_by_pad p l s r a b :
  head s = Some a -> p a = false -> last s = Some b -> p b = false ->
  forallb p l = true -> forallb p r = true ->
  strip_by p (l ++ s ++ r) = s.
Proof.
  intros Ha Hpa Hb Hpb Hl Hr. unfold strip_by, rstrip_by.
  rewrite lstrip_by_app_l by done.
  assert (lstrip_by p (s ++ r) = s ++ r) as ->.
  { apply lstrip_by_fix with a; [|done]. destruct s; simpl in *; done. }
  rewrite rev_app_distr, lstrip_by_app_l by (by rewrite forallb_rev').
  rewrite (lstrip_by_fix p (rev s) b); [apply rev_involutive | by rewrite head_rev | done].
Qed.

Lemma forallb_false_ex {A} (p : A -> bool) (l : list A) :
  forallb p l = false -> exists x, x ∈ l /\ p x = false.
Proof.
  induction l as [|x l IH]; simpl; [done |].
  destruct (p x) eqn:E; simpl.
  - intros H. destruct (IH H) as (y & Hy & Hp). exists y. split; [by right | done].
  - intros _. exists x. split; [by left | done].
Qed.

Lemma forallb_true_elem {A} (p : A -> bool) (l : list A) x :
  forallb p l = true -> x ∈ l -> p x = true.
Proof. rewrite forallb_forall. intros H Hx. apply H. by apply list_elem_of_In. Qed.

Lemma universal_newlines_id (s : str) : cr ∉ s -> universal_newlines s = s.
Proof.
  induction s as [|c s IH]; [done |]. intros Hc.
  assert (c <> cr) as Hne by (intros ->; apply Hc; by left).
  simpl. rewrite (proj2 (N.eqb_neq c cr)) by done. f_equal. apply IH.
  intros ?. apply Hc. by right.
Qed.

Lemma str_ltb_irrefl a : Str.ltb a a = false.
Proof.
  induction a as [|x a IH]; simpl; [done |].
  by rewrite N.ltb_irrefl, N.eqb_refl, IH.
Qed.

Lemma str_ltb_asym a b : Str.ltb a b = true -> Str.ltb b a = false.
Proof.
  revert b; induction a as [|x a IH]; intros [|y b]; simpl; try done.
  rewrite orb_true_iff, andb_true_iff, N.ltb_lt, N.eqb_eq.
  intros [Hlt | [-> Hab]].
  - apply orb_false_intro; [apply N.ltb_ge; lia |].
    apply andb_false_intro1, N.eqb_neq. lia.
  - by rewrite N.ltb_irrefl, N.eqb_refl, IH.
Qed.

Lemma str_ltb_trans a b c :
  Str.ltb a b = true -> Str.ltb b c = true -> Str.ltb a c = true.
Proof.
  revert b c; induction a as [|x a IH]; intros [|y b] [|z c]; simpl; try done.
  rewrite !orb_true_iff, !andb_true_iff, !N.ltb_lt, !N.eqb_eq.
  intros [H1 | [-> H1]] [H2 | [-> H2]]; [left; lia | by left | by left |].
  right. split; [done |]. by apply IH with b.
Qed.

Lemma str_ltb_total a b :
  Str.ltb a b = false -> Str.ltb b a = false -> a = b.
Proof.
  revert b; induction a as [|x a IH]; intros [|y b]; simpl; try done.
  rewrite !orb_false_iff, !andb_false_iff, !N.ltb_ge, !N.eqb_neq.
  intros [H1 H1'] [H2 H2']. assert (x = y) as -> by lia.
  f_equal. apply IH; [by destruct H1' | by destruct H2'].
Qed.

(** ** The sanitizer *)

Lemma alt_long_spec (s : str) :
  alt_long s = true <->
  exists c0 mid c1, s = c0 :: mid ++ [c1] /\ alnum c0 = true /\ alnum c1 = true
                    /\ (length mid <= 98)%nat /\ forallb topic_char mid = true.
Proof.
  unfold alt_long. destruct s as [|c0 rest].
  { split; [done | intros (? & ? & ? & ? & _); done]. }
  destruct (rev rest) as [|c1 rmid] eqn:E.
  - apply (f_equal (@rev N)) in E. rewrite rev_involutive in E. simpl in E. subst rest.
    rewrite andb_false_r. split; [done |].
    intros (? & mid & ? & Hs & _). destruct mid; done.
  - apply (f_equal (@rev N)) in E. rewrite rev_involutive in E. simpl in E. subst rest.
    rewrite !andb_true_iff, N.leb_le. split.
    + intros (H0 & (H1 & Hlen) & Hall). exists c0, (rev rmid), c1.
      rewrite length_rev, forallb_rev'. repeat split; try done. lia.
    + intros (c0' & mid & c1' & Hs & H0 & H1 & Hlen & Hall).
      injection Hs as -> Hs. apply app_inj_tail in Hs as [Hs ->].
      apply (f_equal (@rev N)) in Hs. rewrite rev_involutive in Hs. subst rmid.
      rewrite length_rev, forallb_rev'. repeat split; try done. lia.
Qed.

Lemma alnum_topic_char c : alnum c = true -> topic_char c = true.
Proof. unfold topic_char. by intros ->. Qed.

Lemma alnum_not_space c : alnum c = true -> isspace c = false.
Proof.
  unfold alnum, isspace. rewrite !orb_true_iff, !andb_true_iff, !N.leb_le.
  intros H. repeat (apply orb_false_intro); rewrite ?andb_false_iff, ?N.leb_gt, ?N.eqb_neq; lia.
Qed.

Lemma alt_shape (t : str) :
  alt_long t = true \/ alt_single t = true <-> well_shaped t.
Proof.
  unfold well_shaped. split.
  - intros [H | H].
    + apply alt_long_spec in H as (c0 & mid & c1 & -> & H0 & H1 & Hlen & Hall).
      split; [done |]. split; [simpl; rewrite length_app; simpl; lia |].
      split; [| split].
      * simpl. rewrite forallb_app. simpl.
        by rewrite Hall, !alnum_topic_char.
      * exists c0. done.
      * exists c1. split; [|done]. change (c0 :: mid ++ [c1]) with ((c0 :: mid) ++ [c1]).
        apply last_snoc.
    + destruct t as [|c [|? ?]]; simpl in H; try done.
      split; [done |]. split; [simpl; lia |]. simpl.
      rewrite (alnum_topic_char _ H). split; [done |]. split; exists c; done.
  - intros (Hne & Hlen & Hall & (c0 & Hh & H0) & (c1 & Hl & H1)).
    destruct t as [|x rest]; [done |]. simpl in Hh. injection Hh as ->.
    destruct rest as [|y rest' _] using rev_ind.
    + right. done.
    + left. apply alt_long_spec. exists c0, rest', y.
      change (c0 :: rest' ++ [y]) with ((c0 :: rest') ++ [y]) in Hl.
      rewrite last_snoc in Hl. injection Hl as ->.
      simpl in Hlen. rewrite length_app in Hlen. simpl in Hlen.
      simpl in Hall. rewrite forallb_app in Hall.
      apply andb_true_iff in Hall as [_ Hall]. apply andb_true_iff in Hall as [Hall _].
      repeat split; try done. lia.
Qed.

(** [$] only differs from the end of the string on a trailing newline. *)
Lemma VALID_TOPIC_shape (t : str) :
  last t <> Some nl -> (_VALID_TOPIC t = true <-> well_shaped t).
Proof.
  intros Hnl. unfold _VALID_TOPIC.
  assert (endswith [nl] t = false) as ->.
  { destruct (endswith [nl] t) eqn:E; [|done].
    apply endswith_spec in E as [a ->]. by rewrite last_snoc in Hnl. }
  simpl. rewrite orb_false_r, orb_true_iff. apply alt_shape.
Qed.

Lemma strip_last_not_nl (s : str) : last (strip s) <> Some nl.
Proof. intros H. apply strip_by_last in H. done. Qed.

Lemma sanitize_raises (raw : str) :
  (exists e, _sanitize_topic raw = Raise e) <-> code_rejected raw.
Proof.
  unfold _sanitize_topic, code_rejected. cbv zeta.
  case_bool_decide as Hraw.
  { split; [by left | eauto]. }
  destruct (contains (lit "/") (strip raw)) eqn:E1; simpl.
  { split; [auto | eauto]. }
  destruct (contains (lit "\") (strip raw)) eqn:E2; simpl.
  { split; [auto | eauto]. }
  destruct (contains (lit "..") (strip raw)) eqn:E3; simpl.
  { split; [auto 6 | eauto]. }
  destruct (_VALID_TOPIC (strip raw)) eqn:E4; simpl.
  2:{ split; [auto 6 | eauto]. }
  destruct (in_reserved (lower (strip raw))) eqn:E5.
  { split; [auto 7 | eauto]. }
  split; [intros [e He]; done |].
  intros [H | [H | [H | [H | [H | H]]]]]; done.
Qed.

Lemma sanitize_returns (raw : str) :
  _sanitize_topic raw = Ret (strip raw) <-> ~ code_rejected raw.
Proof.
  rewrite <- sanitize_raises. unfold _sanitize_topic. cbv zeta.
  repeat (match goal with
          | |- context [if ?b then _ else _] => destruct b
          end);
    (split; [intros H [e He]; congruence | intros H; try done; exfalso; apply H; eauto]).
Qed.

Lemma not_well_shaped (t : str) :
  ~ well_shaped t ->
  t = [] \/ (100 < length t)%nat \/ (exists c, c ∈ t /\ topic_char c = false)
  \/ (exists c, head t = Some c /\ alnum c = false)
  \/ (exists c, last t = Some c /\ alnum c = false).
Proof.
  intros Hn. destruct t as [|c0 t'] eqn:Et; [by left |]. rewrite <- Et in *.
  destruct (decide (100 < length t)%nat) as [|Hlen]; [auto |].
  destruct (forallb topic_char t) eqn:Hall.
  2:{ apply forallb_false_ex in Hall. auto. }
  destruct (alnum c0) eqn:H0.
  2:{ right; right; right; left. exists c0. by subst. }
  assert (exists c1, last t = Some c1) as [c1 Hl].
  { destruct (last t) eqn:E; [eauto |]. apply last_None in E. congruence. }
  destruct (alnum c1) eqn:H1.
  2:{ right; right; right; right. eauto. }
  exfalso. apply Hn. unfold well_shaped.
  repeat split; [congruence | lia | done | exists c0; by subst | eauto].
Qed.

Lemma same_letter_lower (c d : char) :
  negb ((65 <=? d) && (d <=? 90)) = true ->
  same_letter c d = true <-> lower_char c = d.
Proof.
  unfold same_letter, lower_char. intros Hd.
  destruct (N.leb_spec 65 d), (N.leb_spec d 90); try done;
    destruct (N.leb_spec 65 c), (N.leb_spec c 90); simpl;
    rewrite ?orb_false_r, ?orb_true_iff, ?N.eqb_eq; split; intros; try lia;
    try (destruct H3; lia); try (left; lia); try (right; lia).
Qed.

(** Up to letter case a string equals a word without capitals exactly
    when lowering it gives the word. *)
Lemma equal_ignoring_case_lower (t w : str) :
  forallb (fun d => negb ((65 <=? d) && (d <=? 90))) w = true ->
  equal_ignoring_case t w = true <-> lower t = w.
Proof.
  revert w. induction t as [|c t IH]; intros [|d w] Hw; simpl; try done.
  apply andb_true_iff in Hw as [Hd Hw].
  rewrite andb_true_iff, (same_letter_lower c d Hd), (IH w Hw).
  split; [intros [-> ->]; done | intros [= -> ->]; done].
Qed.

Lemma reserved_no_capital w :
  w ∈ reserved_words -> forallb (fun d => negb ((65 <=? d) && (d <=? 90))) w = true.
Proof.
  unfold reserved_words. rewrite !elem_of_cons, elem_of_nil.
  intros [-> | [-> | [-> | [-> | [-> | []]]]]]; reflexivity.
Qed.

(** The table of the code holds the reserved words of the specification,
    and the code's test on the lowered topic is equality up to case. *)
Lemma in_reserved_spec (t : str) :
  in_reserved (lower t) = true
  <-> exists w, w ∈ reserved_words /\ equal_ignoring_case t w = true.
Proof.
  unfold in_reserved. rewrite bool_decide_eq_true.
  change _RESERVED with reserved_words. split.
  - intros H. exists (lower t). split; [done |].
    by apply equal_ignoring_case_lower; [apply reserved_no_capital |].
  - intros (w & Hw & He).
    apply equal_ignoring_case_lower in He; [by subst | by apply reserved_no_capital].
Qed.

Lemma code_rejected_spec (raw : str) : code_rejected raw <-> spec_rejected raw.
Proof.
  unfold code_rejected, spec_rejected. cbv zeta.
  pose proof (VALID_TOPIC_shape (strip raw) (strip_last_not_nl raw)) as Hshape.
  split.
  - intros [-> | [H | [H | [H | [H | H]]]]].
    + by left.
    + apply contains_char in H. auto 6.
    + apply contains_char in H. auto 6.
    + apply contains_spec in H. auto 7.
    + assert (~ well_shaped (strip raw)) as Hn.
      { intros Hw. apply Hshape in Hw. congruence. }
      apply not_well_shaped in Hn as [? | [? | [? | [? | ?]]]]; auto 10.
    + do 8 right. by apply in_reserved_spec.
  - assert (~ well_shaped (strip raw) -> _VALID_TOPIC (strip raw) = false) as Hbad.
    { intros Hn. destruct (_VALID_TOPIC (strip raw)) eqn:E; [|done].
      exfalso. apply Hn, Hshape. done. }
    intros [H | [H | [(c & Hc & Hp) | [H | [H | [H | [(c & Hc & Hp) | [(c & Hc & Hp) | H]]]]]]]].
    + do 4 right; left. apply Hbad. intros (Hne & _). done.
    + do 4 right; left. apply Hbad. intros (_ & Hlen & _). lia.
    + do 4 right; left. apply Hbad. intros (_ & _ & Hall & _).
      rewrite (forallb_true_elem _ _ _ Hall Hc) in Hp. done.
    + right; left. by apply contains_char.
    + right; right; left. by apply contains_char.
    + right; right; right; left. by apply contains_spec.
    + do 4 right; left. apply Hbad. intros (_ & _ & _ & (c' & Hc' & Hp') & _). congruence.
    + do 4 right; left. apply Hbad. intros (_ & _ & _ & _ & (c' & Hc' & Hp')). congruence.
    + do 5 right. by apply in_reserved_spec.
Qed.

Lemma sanitize_ret_strip topic t : _sanitize_topic topic = Ret t -> t = strip topic.
Proof.
  unfold _sanitize_topic. cbv zeta. repeat case_match; intros Ht; by simplify_eq.
Qed.

Lemma sanitize_ret_shape raw t :
  _sanitize_topic raw = Ret t -> t = strip raw /\ well_shaped t.
Proof.
  intros H. pose proof (sanitize_ret_strip _ _ H) as ->. split; [done |].
  apply VALID_TOPIC_shape; [apply strip_last_not_nl |].
  revert H. unfold _sanitize_topic. cbv zeta.
  destruct (bool_decide (raw = [])); [done |].
  destruct (_ || _); [done |].
  by destruct (_VALID_TOPIC (strip raw)).
Qed.

Lemma sanitize_strip_eq a b :
  a <> [] -> b <> [] -> strip a = strip b -> _sanitize_topic a = _sanitize_topic b.
Proof.
  intros Ha Hb Hs. unfold _sanitize_topic. cbv zeta.
  by rewrite !bool_decide_eq_false_2, Hs by done.
Qed.

(** Whitespace around a valid topic is trimmed away by the sanitizer. *)
Lemma sanitize_topic_padded t l r :
  _sanitize_topic t = Ret t -> forallb isspace l = true -> forallb isspace r = true ->
  _sanitize_topic (l ++ t ++ r) = Ret t.
Proof.
  intros Ht Hl Hr. destruct (sanitize_ret_shape _ _ Ht) as [Hst (Hne & _ & _ & (a & Ha & Haa) & (b & Hb & Hbb))].
  transitivity (_sanitize_topic t); [| done]. apply sanitize_strip_eq.
  - destruct l; [destruct t; done | done].
  - done.
  - rewrite <- Hst. unfold strip.
    apply strip_by_pad with a b; auto using alnum_not_space.
Qed.

(** A sanitised topic, with its extension, is one well-formed component. *)
Lemma sanitized_name_slash_free topic t :
  _sanitize_topic topic = Ret t -> slash ∉ t ++ lit ".md".
Proof.
  intros H. pose proof (sanitize_ret_strip _ _ H) as ->.
  assert (contains (lit "/") (strip topic) = false) as Hc.
  { revert H. unfold _sanitize_topic. cbv zeta.
    destruct (bool_decide (topic = [])); [done |].
    by destruct (contains (lit "/") (strip topic)). }
  intros Hin. apply elem_of_app in Hin as [Hin | Hin].
  - apply contains_char in Hin. change [slash] with (lit "/") in Hin. congruence.
  - revert Hin. apply (bool_decide_unpack _). vm_compute. reflexivity.
Qed.

(** ** Paths *)

Lemma path_ltb_irrefl p : path_ltb p p = false.
Proof.
  induction p as [|a p IH]; simpl; [done |].
  by rewrite str_ltb_irrefl, IH, andb_false_r.
Qed.

Lemma path_ltb_asym p q : path_ltb p q = true -> path_ltb q p = false.
Proof.
  revert q; induction p as [|a p IH]; intros [|b q]; simpl; try done.
  rewrite orb_true_iff, andb_true_iff, bool_decide_eq_true.
  intros [Hlt | [-> Hpq]].
  - rewrite (str_ltb_asym _ _ Hlt). simpl.
    apply andb_false_intro1, bool_decide_eq_false. intros ->.
    by rewrite str_ltb_irrefl in Hlt.
  - by rewrite str_ltb_irrefl, IH, andb_false_r by done.
Qed.

Lemma path_ltb_trans p q r :
  path_ltb p q = true -> path_ltb q r = true -> path_ltb p r = true.
Proof.
  revert q r; induction p as [|a p IH]; intros [|b q] [|c r]; simpl; try done.
  rewrite !orb_true_iff, !andb_true_iff, !bool_decide_eq_true.
  intros [H1 | [-> H1]] [H2 | [-> H2]]; [left; by apply str_ltb_trans with b | by left | by left |].
  right. split; [done |]. by apply IH with q.
Qed.

Lemma path_ltb_total p q :
  path_ltb p q = false -> path_ltb q p = false -> p = q.
Proof.
  revert q; induction p as [|a p IH]; intros [|b q]; simpl; try done.
  rewrite !orb_false_iff, !andb_false_iff, !bool_decide_eq_false.
  intros [H1 H1'] [H2 H2']. assert (a = b) as -> by (by apply str_ltb_total).
  f_equal. apply IH; [by destruct H1' | by destruct H2'].
Qed.

#[global] Instance path_le_total : Total path_le.
Proof.
  intros p q. unfold path_le.
  destruct (path_ltb q p) eqn:E; [right; by apply path_ltb_asym | by left].
Qed.

#[global] Instance path_le_trans : Transitive path_le.
Proof.
  intros p q r Hpq Hqr. unfold path_le in *.
  destruct (path_ltb r p) eqn:E; [| done].
  destruct (path_ltb p q) eqn:E'.
  - by rewrite (path_ltb_trans _ _ _ E E') in Hqr.
  - assert (p = q) as -> by (by apply path_ltb_total). congruence.
Qed.

Lemma path_ltb_siblings d a b : path_ltb (d ++ [a]) (d ++ [b]) = Str.ltb a b.
Proof.
  induction d as [|x d IH]; simpl.
  - by rewrite andb_false_r, orb_false_r.
  - by rewrite str_ltb_irrefl, bool_decide_eq_true_2, IH.
Qed.

Lemma path_snoc_inv (q : Path) : q <> [] -> q = parent q ++ [name q].
Proof. intros Hq. unfold parent, name. by apply app_removelast_last. Qed.

Lemma parent_snoc (d : Path) n : parent (d ++ [n]) = d.
Proof. apply removelast_last. Qed.

Lemma name_snoc (d : Path) n : name (d ++ [n]) = n.
Proof. apply last_last. Qed.

Lemma stem_md (d : Path) (t : str) : t <> [] -> stem (truediv d (t ++ lit ".md")) = t.
Proof.
  intros Ht. unfold stem, truediv. rewrite name_snoc.
  assert (endswith (lit ".md") (t ++ lit ".md") = true) as -> by (apply endswith_spec; eauto).
  rewrite length_app. change (length (lit ".md")) with 3%nat.
  assert ((3 <? N.of_nat (length t + 3)) = true) as ->.
  { apply N.ltb_lt. destruct t; [done |]. simpl. lia. }
  simpl. replace (length t + 3 - 3)%nat with (length t) by lia.
  by rewrite take_app_length.
Qed.

Lemma split_at_slash (a b x y : str) :
  slash ∉ a -> slash ∉ b -> a ++ slash :: x = b ++ slash :: y -> a = b /\ x = y.
Proof.
  revert b; induction a as [|c a IH]; intros [|d b] Ha Hb; simpl.
  - by intros [= ->].
  - intros [= <- _]. exfalso. apply Hb. by left.
  - intros [= -> _]. exfalso. apply Ha. by left.
  - intros [= -> H]. apply IH in H as [-> ->]; [done | |].
    + intros ?. apply Ha. by right.
    + intros ?. apply Hb. by right.
Qed.

Lemma join_cons2 sep (p q : str) ps : join sep (p :: q :: ps) = p ++ sep ++ join sep (q :: ps).
Proof. done. Qed.

Lemma join_prefix_within (k r : Path) :
  slash_free k -> slash_free r -> k <> [] ->
  (exists rest, join [slash] r = (join [slash] k ++ [slash]) ++ rest) -> within k r.
Proof.
  unfold slash_free, within. revert r.
  induction k as [|a k IH]; intros r Hk Hr Hne [rest Hp]; [done |].
  apply Forall_cons in Hk as [Ha Hk].
  destruct r as [|b r].
  { destruct k; destruct a; done. }
  apply Forall_cons in Hr as [Hb Hr].
  destruct r as [|b' r].
  { exfalso. apply Hb. change (join [slash] [b]) with b in Hp. rewrite Hp.
    destruct k; [change (join [slash] [a]) with a | rewrite join_cons2]; set_solver. }
  rewrite join_cons2 in Hp. destruct k as [|a' k].
  - change (join [slash] [a]) with a in Hp. rewrite <- app_assoc in Hp.
    apply (split_at_slash b a) in Hp as [-> _]; [| done | done].
    by apply prefix_cons, prefix_nil.
  - rewrite join_cons2, <- !app_assoc in Hp.
    apply (split_at_slash b a) in Hp as [-> Hp]; [| done | done].
    apply prefix_cons, IH; [done | done | done |].
    exists rest. rewrite Hp. by rewrite <- !app_assoc.
Qed.

(** The test of [_safe_path], on paths with well-formed components, accepts
    only the base directory and what lies below it. *)
Lemma startswith_within (k r : Path) :
  slash_free k -> slash_free r ->
  startswith (str_of_path k ++ lit "/") (str_of_path r) = true -> within k r.
Proof.
  intros Hk Hr Hs. destruct k as [|a k]; [apply prefix_nil |].
  apply startswith_spec in Hs as [rest Hs]. unfold str_of_path in Hs.
  apply join_prefix_within; [done | done | done |].
  exists rest. simpl in Hs. injection Hs as Hs. rewrite Hs.
  change (lit "/") with [slash]. by rewrite <- !app_assoc.
Qed.

Lemma slash_free_removelast (p : Path) : slash_free p -> slash_free (removelast p).
Proof.
  unfold slash_free. induction p as [|a p IH]; [done |]. intros H.
  apply Forall_cons in H as [Ha Hp]. destruct p as [|b p]; [constructor |].
  change (removelast (a :: b :: p)) with (a :: removelast (b :: p)).
  apply Forall_cons. auto.
Qed.

(** ** Path resolution *)

Lemma realpath_from_nil fuel m cur : realpath_from fuel m cur [] = Some cur.
Proof. destruct fuel; reflexivity. Qed.

Lemma realpath_from_cons fuel m cur c rest :
  realpath_from fuel m cur (c :: rest) =
  if bool_decide (c = lit "..") then realpath_from fuel m (removelast cur) rest
  else match m !! (cur ++ [c]) with
       | Some (Symlink target) =>
           match fuel with
           | O => None
           | S fuel' => realpath_from fuel' m [] (target ++ rest)
           end
       | _ => realpath_from fuel m (cur ++ [c]) rest
       end.
Proof. destruct fuel; reflexivity. Qed.

(** From here on resolution is only unfolded through the two equations. *)
#[global] Opaque realpath_from.

Lemma same_links_refl m : same_links m m.
Proof. intros loc t. done. Qed.

Lemma same_links_trans m1 m2 m3 :
  same_links m1 m2 -> same_links m2 m3 -> same_links m1 m3.
Proof. intros H1 H2 loc t. rewrite (H1 loc t). apply H2. Qed.

(** Writing something that is not a link where no link was keeps the links. *)
Lemma same_links_insert (m : gmap Path inode) loc i :
  (forall t, m !! loc <> Some (Symlink t)) -> (forall t, i <> Symlink t) ->
  same_links m (<[loc := i]> m).
Proof.
  intros Hold Hnew q t. destruct (decide (loc = q)) as [<- | Hne].
  - rewrite lookup_insert_eq. split; [intros H; by apply Hold in H | intros [= ->]; by destruct (Hnew t)].
  - by rewrite lookup_insert_ne.
Qed.

Lemma realpath_from_same_links fuel m m' cur rest :
  same_links m m' -> realpath_from fuel m cur rest = realpath_from fuel m' cur rest.
Proof.
  intros Hl. revert cur rest. induction fuel as [|fuel IHf]; intros cur rest; revert cur;
    induction rest as [|c rest IHr]; intros cur;
    rewrite ?realpath_from_nil, ?realpath_from_cons; try done.
  - case_bool_decide; [apply IHr |].
    destruct (m !! (cur ++ [c])) as [[| |t]|] eqn:E;
      destruct (m' !! (cur ++ [c])) as [[| |t']|] eqn:E'; try apply IHr; try done;
      try (apply Hl in E; congruence); try (apply Hl in E'; congruence).
  - case_bool_decide; [apply IHr |].
    destruct (m !! (cur ++ [c])) as [[| |t]|] eqn:E;
      destruct (m' !! (cur ++ [c])) as [[| |t']|] eqn:E'; try apply IHr; try done;
      try (apply Hl in E; congruence); try (apply Hl in E'; congruence).
Qed.

Lemma realpath_same_links m m' p :
  same_links m m' -> realpath m p = realpath m' p.
Proof. apply realpath_from_same_links. Qed.

(** A last component that is neither ".." nor a link stays in place. *)
Lemma realpath_from_snoc fuel m cur p n r :
  realpath_from fuel m cur p = Some r ->
  n <> lit ".." -> (forall t, m !! (r ++ [n]) <> Some (Symlink t)) ->
  realpath_from fuel m cur (p ++ [n]) = Some (r ++ [n]).
Proof.
  intros Hp Hn Hlink. revert cur p Hp. induction fuel as [|fuel IHf]; intros cur p; revert cur;
    induction p as [|c p IHp]; intros cur; simpl;
    rewrite ?realpath_from_nil, ?realpath_from_cons.
  - intros [= ->]. rewrite bool_decide_eq_false_2 by done.
    destruct (m !! (r ++ [n])) as [[| |t]|] eqn:E; rewrite ?realpath_from_nil; try done.
    exfalso. by eapply Hlink.
  - case_bool_decide; [apply IHp |].
    destruct (m !! (cur ++ [c])) as [[| |t]|]; try apply IHp. done.
  - intros [= ->]. rewrite bool_decide_eq_false_2 by done.
    destruct (m !! (r ++ [n])) as [[| |t]|] eqn:E; rewrite ?realpath_from_nil; try done.
    exfalso. by eapply Hlink.
  - case_bool_decide; [apply IHp |].
    destruct (m !! (cur ++ [c])) as [[| |t]|]; try apply IHp.
    rewrite app_assoc. apply IHf.
Qed.

Lemma realpath_snoc m p n r :
  realpath m p = Some r ->
  n <> lit ".." -> (forall t, m !! (r ++ [n]) <> Some (Symlink t)) ->
  realpath m (p ++ [n]) = Some (r ++ [n]).
Proof. apply realpath_from_snoc. Qed.

(** Resolution only assembles components of the path and of link targets. *)
Lemma realpath_from_slash_free fuel m cur rest r :
  links_slash_free m -> slash_free cur -> slash_free rest ->
  realpath_from fuel m cur rest = Some r -> slash_free r.
Proof.
  intros Hm. revert cur rest. induction fuel as [|fuel IHf]; intros cur rest; revert cur;
    induction rest as [|c rest IHr]; intros cur Hc Hrest;
    rewrite ?realpath_from_nil, ?realpath_from_cons; try (intros [= <-]; done);
    apply Forall_cons in Hrest as [Hcs Hrest'].
  - case_bool_decide; [apply IHr; [by apply slash_free_removelast | done] |].
    assert (slash_free (cur ++ [c])) as Hcc by (apply Forall_app; split; [done | by constructor]).
    destruct (m !! (cur ++ [c])) as [[| |t]|]; try (by apply IHr). done.
  - case_bool_decide; [apply IHr; [by apply slash_free_removelast | done] |].
    assert (slash_free (cur ++ [c])) as Hcc by (apply Forall_app; split; [done | by constructor]).
    destruct (m !! (cur ++ [c])) as [[| |t]|] eqn:E; try (by apply IHr).
    apply IHf; [constructor |]. apply Forall_app. split; [by apply (Hm _ _ E) | done].
Qed.

Lemma realpath_slash_free m p r :
  links_slash_free m -> slash_free p -> realpath m p = Some r -> slash_free r.
Proof. intros Hm Hp. apply realpath_from_slash_free; [done | constructor | done]. Qed.

(** *** The kernel's walk and the bound on links *)

Lemma namei_from_nil fuel m cur : namei_from fuel m cur [] = Some cur.
Proof. destruct fuel; reflexivity. Qed.

Lemma namei_from_cons fuel m cur c rest :
  namei_from fuel m cur (c :: rest) =
  match stat m cur with
  | Some Dir =>
      if bool_decide (c = lit "..") then namei_from fuel m (removelast cur) rest
      else match m !! (cur ++ [c]) with
           | Some (Symlink target) =>
               match fuel with
               | O => None
               | S fuel' => namei_from fuel' m [] (target ++ rest)
               end
           | _ => namei_from fuel m (cur ++ [c]) rest
           end
  | _ => None
  end.
Proof. destruct fuel; reflexivity. Qed.

#[global] Opaque namei_from.

(** Where the kernel's walk arrives, resolution arrives too: the walk
    makes the steps of the resolution and only fails more often. *)
Lemma namei_from_realpath fuel m cur rest loc :
  namei_from fuel m cur rest = Some loc -> realpath_from fuel m cur rest = Some loc.
Proof.
  revert cur rest. induction fuel as [|fuel IHf]; intros cur rest; revert cur;
    induction rest as [|c rest IHr]; intros cur;
    rewrite ?namei_from_nil, ?realpath_from_nil, ?namei_from_cons, ?realpath_from_cons;
    try done.
  - destruct (stat m cur) as [[| |]|]; try done.
    case_bool_decide; [apply IHr |].
    destruct (m !! (cur ++ [c])) as [[| |t]|]; try apply IHr. done.
  - destruct (stat m cur) as [[| |]|]; try done.
    case_bool_decide; [apply IHr |].
    destruct (m !! (cur ++ [c])) as [[| |t]|]; try apply IHr. apply IHf.
Qed.

Lemma namei_realpath m p loc : namei m p = Some loc -> realpath m p = Some loc.
Proof. apply namei_from_realpath. Qed.

(** A resolution that returns does not depend on the bound: with more
    links allowed it returns the same location. *)
Lemma realpath_from_more fuel m cur rest r :
  realpath_from fuel m cur rest = Some r -> realpath_from (S fuel) m cur rest = Some r.
Proof.
  revert cur rest. induction fuel as [|fuel IHf]; intros cur rest; revert cur;
    induction rest as [|c rest IHr]; intros cur;
    rewrite ?realpath_from_nil; try done;
    rewrite (realpath_from_cons (S _)); rewrite realpath_from_cons.
  - case_bool_decide; [apply IHr |].
    destruct (m !! (cur ++ [c])) as [[| |t]|]; try apply IHr. done.
  - case_bool_decide; [apply IHr |].
    destruct (m !! (cur ++ [c])) as [[| |t]|]; try apply IHr. apply IHf.
Qed.

Lemma realpath_from_le fuel fuel' m cur rest r :
  (fuel <= fuel')%nat ->
  realpath_from fuel m cur rest = Some r -> realpath_from fuel' m cur rest = Some r.
Proof.
  intros Hle H. induction Hle as [|n Hle IH]; [done |]. by apply realpath_from_more.
Qed.

Lemma realpath_any_bound fuel m p r r' :
  realpath m p = Some r -> realpath_from fuel m [] p = Some r' -> r' = r.
Proof.
  unfold realpath. intros H H'.
  destruct (Nat.le_ge_cases fuel MAXSYMLINKS) as [Hle | Hge].
  - rewrite (realpath_from_le _ _ _ _ _ _ Hle H') in H. congruence.
  - rewrite (realpath_from_le _ _ _ _ _ _ Hge H) in H'. congruence.
Qed.

(** ** The pathlib calls *)

Lemma fs_emit ev w : fs (emit ev w) = fs w.
Proof. done. Qed.

Lemma logged_trans w1 w2 w3 evs1 evs2 :
  logged w1 w2 evs1 -> logged w2 w3 evs2 -> logged w1 w3 (evs1 ++ evs2).
Proof. unfold logged. intros H1 H2. by rewrite H2, H1, app_assoc. Qed.

Lemma logged_nil w : logged w w [].
Proof. unfold logged. by rewrite app_nil_r. Qed.

Lemma not_write_stat loc : ~ is_write (EvStat loc).
Proof. intros (? & ? & ?). done. Qed.

Lemma not_write_read loc : ~ is_write (EvRead loc).
Proof. intros (? & ? & ?). done. Qed.

Lemma writes_none evs :
  Forall (fun ev => exists loc, ev = EvStat loc \/ ev = EvGlob loc \/ ev = EvRead loc) evs ->
  writes evs = [].
Proof.
  unfold writes. induction 1 as [|ev evs (loc & [-> | [-> | ->]]) _ IH]; [done | | |];
    by rewrite filter_cons_False.
Qed.

Lemma writes_app evs1 evs2 : writes (evs1 ++ evs2) = writes evs1 ++ writes evs2.
Proof. apply filter_app. Qed.

Lemma stat_lookup (m : gmap Path inode) loc i :
  stat m loc = Some i -> i <> Dir -> loc <> [] /\ m !! loc = Some i.
Proof. destruct loc; simpl; [intros [= <-]; done | done]. Qed.

Lemma exists_inv p w b w' :
  exists_ p w = (Ret b, w') ->
  fs w' = fs w /\
  ((realpath (fs w) p = None /\ b = false /\ w' = w) \/
   (exists loc, realpath (fs w) p = Some loc /\ w' = emit (EvStat loc) w /\
                b = match stat (fs w) loc with
                    | Some Dir | Some (File _) => true
                    | _ => false
                    end)).
Proof.
  unfold exists_. destruct (realpath (fs w) p) as [loc|]; intros [= <- <-].
  - split; [done |]. right. eauto.
  - split; [done |]. left. done.
Qed.

Lemma exists_total p w : exists b w', exists_ p w = (Ret b, w').
Proof. unfold exists_. destruct (realpath (fs w) p); eauto. Qed.

Lemma exists_at p w r :
  realpath (fs w) p = Some r ->
  exists_ p w = (Ret match stat (fs w) r with
                     | Some Dir | Some (File _) => true
                     | _ => false
                     end, emit (EvStat r) w).
Proof. unfold exists_. by intros ->. Qed.

Lemma is_dir_inv p w o w' :
  is_dir p w = (o, w') ->
  fs w' = fs w /\ exists evs, logged w w' evs /\ Forall (fun ev => exists loc, ev = EvStat loc) evs.
Proof.
  unfold is_dir, logged. destruct (realpath (fs w) p) as [loc|]; intros [= <- <-]; simpl.
  - split; [done |]. exists [EvStat loc]. split; [done |]. repeat constructor. eauto.
  - split; [done |]. exists []. split; [by rewrite app_nil_r | constructor].
Qed.

Lemma is_dir_fs p w o w' : is_dir p w = (o, w') -> fs w' = fs w.
Proof. intros H. by apply is_dir_inv in H as [? _]. Qed.

Lemma is_dir_log p w o w' :
  is_dir p w = (o, w') ->
  exists evs, logged w w' evs /\ Forall (fun ev => ~ is_write ev) evs.
Proof.
  intros H. apply is_dir_inv in H as (_ & evs & Hl & He). exists evs. split; [done |].
  eapply Forall_impl; [exact He |]. intros ev [loc ->] (? & ? & ?). done.
Qed.

(** What [read_text] returns, as a function of the file system alone. *)
Lemma read_text_inv p w o w' :
  read_text p w = (o, w') ->
  fs w' = fs w /\
  ((realpath (fs w) p = None /\ w' = w /\ o = Raise (OSError p)) \/
   (exists loc, realpath (fs w) p = Some loc /\ w' = emit (EvRead loc) w /\
      o = match stat (fs w) loc with
          | None => Raise (FileNotFoundError p)
          | Some Dir => Raise (IsADirectoryError p)
          | Some (Symlink _) => Raise (OSError p)
          | Some (File None) => Raise UnicodeDecodeError
          | Some (File (Some text)) => Ret (universal_newlines text)
          end)).
Proof.
  unfold read_text. destruct (realpath (fs w) p) as [loc|].
  - cbv zeta. intros H. assert (w' = emit (EvRead loc) w) as ->.
    { repeat case_match; simplify_eq; done. }
    split; [done |]. right. exists loc. split; [done |]. split; [done |].
    repeat case_match; simplify_eq; done.
  - intros [= <- <-]. split; [done |]. left. done.
Qed.

Lemma read_text_result p w :
  exists w', read_text p w = (read_result (fs w) p, w') /\ fs w' = fs w /\
             exists evs, logged w w' evs /\ Forall (fun ev => exists loc, ev = EvRead loc) evs.
Proof.
  unfold read_text, read_result, logged. destruct (realpath (fs w) p) as [loc|].
  - exists (emit (EvRead loc) w). split; [by repeat case_match |]. split; [done |].
    exists [EvRead loc]. split; [done |]. repeat constructor. eauto.
  - exists w. split; [done |]. split; [done |]. exists []. by rewrite app_nil_r.
Qed.

Lemma read_text_at p w r text :
  realpath (fs w) p = Some r -> stat (fs w) r = Some (File (Some text)) ->
  read_text p w = (Ret (universal_newlines text), emit (EvRead r) w).
Proof. unfold read_text. by intros -> ->. Qed.

(** [write_text] changes at most the location its path resolves to, and
    puts a regular file there. *)
Lemma write_text_inv p data w o w' :
  write_text p data w = (o, w') ->
  (realpath (fs w) p = None /\ w' = w /\ o = Raise (OSError p)) \/
  (exists loc, realpath (fs w) p = Some loc /\ log w' = log w ++ [EvWrite loc data] /\
     ((fs w' = fs w /\ exists e, o = Raise e) \/
      ((forall t, fs w !! loc <> Some (Symlink t)) /\ loc <> [] /\
       ((o = Ret tt /\ encodable data = true /\ fs w' = <[loc := File (Some data)]> (fs w)) \/
        (o = Raise UnicodeEncodeError /\ fs w' = <[loc := File (Some [])]> (fs w)))))).
Proof.
  unfold write_text. destruct (realpath (fs w) p) as [loc|]; [| intros [= <- <-]; by left].
  cbv zeta. intros H. right. exists loc. split; [done |].
  assert (stat (fs w) loc <> Some Dir -> (forall t, stat (fs w) loc <> Some (Symlink t)) ->
          (forall t, fs w !! loc <> Some (Symlink t)) /\ loc <> []) as Hloc.
  { intros Hd Hs. destruct loc; simpl in *; done. }
  destruct (stat (fs w) loc) as [[|text|t]|] eqn:E.
  - simplify_eq. split; [done |]. left. split; [done | eauto].
  - destruct Hloc as [Hl Hne]; [done | done |].
    destruct (encodable data) eqn:Henc; simplify_eq; (split; [done |]); right;
      (split; [done |]); (split; [done |]); [left | right]; done.
  - simplify_eq. split; [done |]. left. split; [done | eauto].
  - destruct Hloc as [Hl Hne]; [done | done |].
    destruct (stat (fs w) (parent loc)) as [[| |]|];
      try (simplify_eq; split; [done |]; left; split; [done | by eauto]).
    destruct (encodable data) eqn:Henc; simplify_eq; (split; [done |]); right;
      (split; [done |]); (split; [done |]); [left | right]; done.
Qed.

Lemma write_text_same_links p data w o w' :
  write_text p data w = (o, w') -> same_links (fs w) (fs w').
Proof.
  intros H. apply write_text_inv in H as [(_ & -> & _) | (loc & _ & _ & [[-> _] | (Hl & _ & [(_ & _ & ->) | (_ & ->)])])];
    try apply same_links_refl; by apply same_links_insert.
Qed.

Lemma write_text_frame p data w o w' q :
  write_text p data w = (o, w') -> realpath (fs w) p <> Some q -> fs w' !! q = fs w !! q.
Proof.
  intros H Hq. apply write_text_inv in H as [(_ & -> & _) | (loc & Hr & _ & [[-> _] | (Hl & _ & [(_ & _ & ->) | (_ & ->)])])];
    try done; rewrite lookup_insert_ne; congruence.
Qed.

Lemma write_text_log p data w o w' r :
  write_text p data w = (o, w') -> realpath (fs w) p = Some r ->
  logged w w' [EvWrite r data].
Proof.
  intros H Hr. apply write_text_inv in H as [(Hn & _) | (loc & Hl & Hlog & _)]; congruence.
Qed.

Lemma listdir_elem (m : gmap Path inode) d n :
  n ∈ listdir m d <-> is_Some (m !! (d ++ [n])).
Proof.
  unfold listdir. rewrite list_elem_of_fmap. split.
  - intros (q & -> & Hq). apply list_elem_of_filter in Hq as [[Hne <-] Hq].
    rewrite <- path_snoc_inv by done. by apply elem_of_dom, elem_of_elements.
  - intros Hs. exists (d ++ [n]). split; [by rewrite name_snoc |].
    apply list_elem_of_filter. split.
    + split; [by destruct d | apply parent_snoc].
    + by apply elem_of_elements, elem_of_dom.
Qed.

Lemma listdir_NoDup (m : gmap Path inode) d : NoDup (listdir m d).
Proof.
  unfold listdir. apply NoDup_fmap_2_strong.
  - intros x y Hx Hy Hn.
    apply list_elem_of_filter in Hx as [[Hx Hpx] _].
    apply list_elem_of_filter in Hy as [[Hy Hpy] _].
    rewrite (path_snoc_inv x), (path_snoc_inv y) by done. congruence.
  - apply NoDup_filter, NoDup_elements.
Qed.

(** ** Creating directories *)

Lemma adds_dirs_refl m : adds_dirs m m.
Proof. intros loc. by left. Qed.

Lemma adds_dirs_trans m1 m2 m3 :
  adds_dirs m1 m2 -> adds_dirs m2 m3 -> adds_dirs m1 m3.
Proof.
  intros H1 H2 loc. destruct (H1 loc) as [E1 | [E1 E1']], (H2 loc) as [E2 | [E2 E2']].
  - left. congruence.
  - right. split; congruence.
  - right. split; congruence.
  - congruence.
Qed.

Lemma adds_dirs_same_links m m' : adds_dirs m m' -> same_links m m'.
Proof.
  intros H loc t. destruct (H loc) as [E | [E E']]; rewrite ?E, ?E'; [done |].
  split; intros; congruence.
Qed.

Lemma adds_dirs_insert (m : gmap Path inode) loc :
  m !! loc = None -> adds_dirs m (<[loc := Dir]> m).
Proof.
  intros Hn q. destruct (decide (loc = q)) as [<- | Hne].
  - right. by rewrite lookup_insert_eq.
  - left. by rewrite lookup_insert_ne.
Qed.

Lemma os_mkdir_adds p w o w' : os_mkdir p w = (o, w') -> adds_dirs (fs w) (fs w').
Proof.
  unfold os_mkdir. cbv zeta. intros H.
  repeat case_match; simplify_eq; simpl; try apply adds_dirs_refl.
  by apply adds_dirs_insert.
Qed.

Lemma os_mkdir_log p w o w' :
  os_mkdir p w = (o, w') ->
  exists evs, logged w w' evs /\ Forall (fun ev => ~ is_write ev) evs.
Proof.
  unfold os_mkdir. cbv zeta. intros H.
  assert (forall loc, Forall (fun ev => ~ is_write ev) [EvMkdir loc]) as Hm.
  { intros loc. repeat constructor. intros (? & ? & ?). done. }
  repeat case_match; pair_eq H;
    first [ exists []; split; [unfold logged; by rewrite app_nil_r | constructor]
          | eexists [_]; split; [log_ok | apply Hm] ].
Qed.

Lemma mkdir_exist_ok_adds p w o w' :
  mkdir_exist_ok p w = (o, w') -> adds_dirs (fs w) (fs w').
Proof.
  unfold mkdir_exist_ok. intros H.
  destruct (os_mkdir p w) as [o1 w1] eqn:E1. apply os_mkdir_adds in E1.
  destruct o1 as [[]|e]; [by simplify_eq |].
  destruct (is_dir p w1) as [o2 w2] eqn:E2. apply is_dir_fs in E2.
  assert (w' = w1 \/ w' = w2) as [-> | ->]; try done; [| by rewrite E2].
  destruct e; try (destruct o2 as [[]|]; simplify_eq; by right). simplify_eq. by left.
Qed.

Lemma mkdir_exist_ok_log p w o w' :
  mkdir_exist_ok p w = (o, w') ->
  exists evs, logged w w' evs /\ Forall (fun ev => ~ is_write ev) evs.
Proof.
  unfold mkdir_exist_ok. intros H.
  destruct (os_mkdir p w) as [o1 w1] eqn:E1. apply os_mkdir_log in E1 as (evs1 & Hl1 & He1).
  destruct o1 as [[]|e]; [pair_eq H; eauto |].
  destruct (is_dir p w1) as [o2 w2] eqn:E2. apply is_dir_log in E2 as (evs2 & Hl2 & He2).
  assert (w' = w1 \/ w' = w2) as [-> | ->].
  { destruct e; try (destruct o2 as [[]|]; pair_eq H; by right). pair_eq H. by left. }
  - eauto.
  - exists (evs1 ++ evs2). split; [by eapply logged_trans | by apply Forall_app].
Qed.

Lemma mkdir_parents_rev_unfold rp w :
  mkdir_parents_rev rp w =
  match os_mkdir (rev rp) w with
  | (Ret tt, w') => (Ret tt, w')
  | (Raise (FileNotFoundError q), w') =>
      match rp with
      | [] => (Raise (FileNotFoundError q), w')
      | _ :: rpar =>
          match mkdir_parents_rev rpar w' with
          | (Ret tt, w'') => mkdir_exist_ok (rev rp) w''
          | r => r
          end
      end
  | (Raise e, w') =>
      match is_dir (rev rp) w' with
      | (Ret true, w'') => (Ret tt, w'')
      | (_, w'') => (Raise e, w'')
      end
  end.
Proof. destruct rp; reflexivity. Qed.

Lemma is_dir_fallback_log p e w o w' :
  match is_dir p w with
  | (Ret true, w'') => (Ret tt, w'')
  | (_, w'') => (Raise e, w'')
  end = (o, w') ->
  exists evs, logged w w' evs /\ Forall (fun ev => ~ is_write ev) evs.
Proof.
  intros H. destruct (is_dir p w) as [o2 w2] eqn:E2.
  apply is_dir_log in E2 as (evs2 & Hl2 & He2). assert (w' = w2) as ->.
  { destruct o2 as [[]|]; by pair_eq H. }
  eauto.
Qed.

Lemma mkdir_parents_rev_adds rp w o w' :
  mkdir_parents_rev rp w = (o, w') -> adds_dirs (fs w) (fs w').
Proof.
  revert w o w'. induction rp as [|n rp IH]; intros w o w'; simpl.
  - unfold os_mkdir. simpl. unfold is_dir. simpl.
    intros H. repeat case_match; simplify_eq; simpl; apply adds_dirs_refl.
  - intros H. destruct (os_mkdir (rev rp ++ [n]) w) as [o1 w1] eqn:E1.
    apply os_mkdir_adds in E1.
    destruct o1 as [[]|e]; [by simplify_eq |].
    assert (forall e', True ->
      match is_dir (rev rp ++ [n]) w1 with
      | (Ret true, w'') => (Ret tt, w'')
      | (_, w'') => (Raise e', w'')
      end = (o, w') -> adds_dirs (fs w) (fs w')) as Hother.
    { intros e' _ H'. destruct (is_dir (rev rp ++ [n]) w1) as [o2 w2] eqn:E2.
      apply is_dir_fs in E2. assert (w' = w2) as ->.
      { destruct o2 as [[]|]; by simplify_eq. }
      by rewrite E2. }
    destruct e; try (by eapply (Hother _ I)).
    destruct (mkdir_parents_rev rp w1) as [o2 w2] eqn:E2. apply IH in E2.
    destruct o2 as [[]|e2].
    + apply mkdir_exist_ok_adds in H. eauto using adds_dirs_trans.
    + simplify_eq. eauto using adds_dirs_trans.
Qed.

Lemma mkdir_parents_rev_log rp w o w' :
  mkdir_parents_rev rp w = (o, w') ->
  exists evs, logged w w' evs /\ Forall (fun ev => ~ is_write ev) evs.
Proof.
  revert w o w'. induction rp as [|n rp IH]; intros w o w' H;
    rewrite mkdir_parents_rev_unfold in H;
    (destruct (os_mkdir _ w) as [o1 w1] eqn:E1;
     apply os_mkdir_log in E1 as (evs1 & Hl1 & He1);
     destruct o1 as [[]|e]; [pair_eq H; by eauto |]);
    (destruct e;
     try (apply is_dir_fallback_log in H as (evs2 & Hl2 & He2);
          exists (evs1 ++ evs2); split; [by eapply logged_trans | by apply Forall_app])).
  - pair_eq H. eauto.
  - destruct (mkdir_parents_rev rp w1) as [o2 w2] eqn:E2.
    apply IH in E2 as (evs2 & Hl2 & He2).
    destruct o2 as [[]|e2].
    + apply mkdir_exist_ok_log in H as (evs3 & Hl3 & He3).
      exists (evs1 ++ evs2 ++ evs3). split.
      * eapply logged_trans; [exact Hl1 |]. by eapply logged_trans.
      * rewrite !Forall_app. done.
    + pair_eq H. exists (evs1 ++ evs2). split; [by eapply logged_trans | by apply Forall_app].
Qed.

Lemma ensure_dir_adds ctx w o w' :
  _ensure_dir ctx w = (o, w') -> adds_dirs (fs w) (fs w').
Proof. apply mkdir_parents_rev_adds. Qed.

Lemma ensure_dir_same_links ctx w o w' :
  _ensure_dir ctx w = (o, w') -> same_links (fs w) (fs w').
Proof. intros H. eapply adds_dirs_same_links, ensure_dir_adds, H. Qed.

Lemma ensure_dir_log ctx w o w' :
  _ensure_dir ctx w = (o, w') ->
  exists evs, logged w w' evs /\ Forall (fun ev => ~ is_write ev) evs.
Proof. apply mkdir_parents_rev_log. Qed.

(** Ensuring the directory keeps what a location held, unless it held
    nothing. *)
Lemma ensure_dir_keeps ctx w o w' loc i :
  _ensure_dir ctx w = (o, w') -> fs w !! loc = Some i -> fs w' !! loc = Some i.
Proof.
  intros H Hi. apply ensure_dir_adds in H. destruct (H loc) as [E | [E _]]; congruence.
Qed.

(** ** The index builder *)

Lemma StronglySorted_filter_fmap {A B} (R1 : relation A) (R2 : relation B)
    (Q : A -> Prop) (P : A -> Prop) `{!forall x, Decision (P x)} (f : A -> B) (l : list A) :
  (forall x y, Q x -> Q y -> R1 x y -> R2 (f x) (f y)) ->
  Forall Q l -> StronglySorted R1 l -> StronglySorted R2 (f <$> filter P l).
Proof.
  intros HR HQ Hs. induction Hs as [|x l Hs IH Hx]; simpl; [constructor |].
  apply Forall_cons in HQ as [Qx Ql]. rewrite filter_cons.
  destruct (decide (P x)); [| by apply IH].
  rewrite fmap_cons. constructor; [by apply IH |].
  apply Forall_fmap, Forall_forall. intros y Hy.
  apply list_elem_of_filter in Hy as [_ Hy].
  rewrite Forall_forall in Hx, Ql. apply HR; auto.
Qed.

Lemma first_line_spec (lines : list str) :
  (exists skipped line rest,
      lines = skipped ++ line :: rest
      /\ Forall (fun l => clean l = []) skipped
      /\ clean line <> [] /\ first_line lines = take 120 (clean line))
  \/ (Forall (fun l => clean l = []) lines /\ first_line lines = []).
Proof.
  induction lines as [|l lines IH]; simpl.
  - right. split; [constructor | done].
  - fold (clean l). case_bool_decide as Hc.
    + destruct IH as [(skipped & line & rest & -> & Hs & Hl & Hf) | [Hall Hf]].
      * left. exists (l :: skipped), line, rest. split_and!; try done. by constructor.
      * right. split; [by constructor | done].
    + left. exists [], l, lines. split_and!; try done.
Qed.

Lemma summary_is_summary text : is_summary text (summary text).
Proof. apply first_line_spec. Qed.

(** The loop never raises and leaves the file system as it is: a file that
    cannot be read yields its line all the same. *)
Lemma index_entries_spec files w :
  exists w', index_entries files w
             = (Ret (entry_of (fs w) <$> filter (fun f => name f <> INDEX_FILE) files), w')
             /\ fs w' = fs w
             /\ exists evs, logged w w' evs /\ Forall (fun ev => exists loc, ev = EvRead loc) evs.
Proof.
  revert w. induction files as [|f files IH]; intros w; simpl.
  - exists w. split; [done |]. split; [done |]. exists []. unfold logged. by rewrite app_nil_r.
  - rewrite filter_cons. case_bool_decide as Hn.
    + rewrite decide_False by (intros H; by apply H). apply IH.
    + rewrite decide_True by done.
      destruct (read_text_result f w) as (w1 & Hr & Hfs1 & evs1 & Hl1 & Hev1).
      destruct (IH w1) as (w2 & Hi & Hfs2 & evs2 & Hl2 & Hev2).
      exists w2. split; [| split].
      * assert (entry_of (fs w) f =
                match read_result (fs w) f with
                | Ret text => entry_line (stem f) (first_line (split nl (strip text)))
                | Raise _ => entry_line (stem f) (lit "(unreadable)")
                end) as Hf.
        { unfold entry_of, summary. by destruct (read_result (fs w) f). }
        unfold bind, try_except, ret. rewrite Hr, fmap_cons, Hf.
        destruct (read_result (fs w) f) as [text|e]; rewrite Hi, Hfs1; done.
      * congruence.
      * exists (evs1 ++ evs2). split; [| by apply Forall_app].
        unfold logged in *. by rewrite Hl2, Hl1, app_assoc.
Qed.

Lemma join_lines (entries : list str) :
  entries <> [] -> join [nl] entries ++ [nl] = concat ((fun e => e ++ [nl]) <$> entries).
Proof.
  induction entries as [|e es IH]; [done |]. intros _.
  destruct es as [|e' es]; [simpl; by rewrite app_nil_r |].
  change (join [nl] (e :: e' :: es)) with (e ++ [nl] ++ join [nl] (e' :: es)).
  rewrite fmap_cons, concat_cons, <- IH by done.
  by rewrite <- !app_assoc.
Qed.

Lemma index_content_eq entries :
  index_content entries = index_header ++ index_body entries.
Proof.
  unfold index_content, index_header, index_body. rewrite <- app_assoc. f_equal. f_equal.
  destruct entries as [|e es]; [done |]. by apply join_lines.
Qed.

Lemma index_file_not_dotdot : INDEX_FILE <> lit "..".
Proof. done. Qed.

(** A rebuild over an existing directory is one [write_text] of the index,
    made after the entries were read; its text lists the entry files by
    name, in order. *)
Lemma update_index_as_write ctx w k :
  let kdir := drive_path ctx KNOWLEDGE_DIR in
  realpath (fs w) kdir = Some k -> stat (fs w) k = Some Dir ->
  exists names w1,
    (forall n, n ∈ names <-> is_Some (fs w !! (k ++ [n])) /\ endswith (lit ".md") n = true
                              /\ n <> INDEX_FILE)
    /\ NoDup names /\ StronglySorted name_le names
    /\ fs w1 = fs w
    /\ (exists evs, logged w w1 evs /\
          Forall (fun ev => exists loc, ev = EvStat loc \/ ev = EvGlob loc \/ ev = EvRead loc) evs)
    /\ _update_index ctx w
       = write_text (truediv kdir INDEX_FILE)
           (index_header ++ index_body ((fun n => entry_of (fs w) (truediv kdir n)) <$> names)) w1.
Proof.
  intros kdir Hk Hd.
  set (listed := filter (fun n => endswith (lit ".md") n = true) (listdir (fs w) k)).
  set (files := truediv kdir <$> listed).
  set (w0 := emit (EvGlob k) (emit (EvStat k) w)).
  destruct (index_entries_spec (sorted files) w0) as (w1 & Hi & Hfs & evs & Hlog & Hevs).
  set (kept := filter (fun f => name f <> INDEX_FILE) (sorted files)) in *.
  assert (forall f, f ∈ sorted files <-> exists n, f = truediv kdir n /\ n ∈ listed) as Hsf.
  { intros f. unfold sorted. rewrite merge_sort_Permutation. unfold files.
    rewrite list_elem_of_fmap. done. }
  exists (name <$> kept), w1. split_and!.
  - intros n. split.
    + intros Hn. apply list_elem_of_fmap in Hn as (f & -> & Hf).
      apply list_elem_of_filter in Hf as [Hname Hf]. apply Hsf in Hf as (n & -> & Hn).
      unfold truediv in *. rewrite name_snoc in *.
      apply list_elem_of_filter in Hn as [He Hn]. apply listdir_elem in Hn. done.
    + intros (Hs & He & Hne). apply list_elem_of_fmap. exists (truediv kdir n).
      unfold truediv. rewrite name_snoc. split; [done |].
      apply list_elem_of_filter. rewrite name_snoc. split; [done |].
      apply Hsf. exists n. split; [done |]. apply list_elem_of_filter. split; [done |].
      by apply listdir_elem.
  - apply NoDup_fmap_2_strong.
    + intros x y Hx Hy Hxy.
      apply list_elem_of_filter in Hx as [_ Hx]. apply Hsf in Hx as (a & -> & _).
      apply list_elem_of_filter in Hy as [_ Hy]. apply Hsf in Hy as (b & -> & _).
      unfold truediv in *. rewrite !name_snoc in Hxy. by subst.
    + apply NoDup_filter. unfold sorted. rewrite merge_sort_Permutation.
      apply NoDup_fmap_2; [| apply NoDup_filter, listdir_NoDup].
      intros a b Hab. unfold truediv in Hab. by apply app_inj_tail in Hab as [_ ?].
  - apply StronglySorted_filter_fmap with (R1 := path_le) (Q := fun f => exists n, f = truediv kdir n).
    + intros x y (a & ->) (b & ->). unfold path_le, name_le, truediv.
      by rewrite path_ltb_siblings, !name_snoc.
    + apply Forall_forall. intros f Hf. apply Hsf in Hf as (n & -> & _). eauto.
    + apply StronglySorted_merge_sort; apply _.
  - by rewrite Hfs.
  - exists ([EvStat k; EvGlob k] ++ evs). split.
    + unfold logged in *. rewrite Hlog. simpl. by rewrite <- !app_assoc.
    + apply Forall_app. split; [repeat constructor; eauto |].
      eapply Forall_impl; [exact Hevs |]. intros ev [loc ->]. eauto.
  - unfold _update_index, bind. cbv zeta. fold kdir.
    unfold exists_. rewrite Hk, Hd. change (negb true) with false. cbv beta iota.
    unfold glob_md. rewrite fs_emit, Hk, Hd. fold listed files w0.
    rewrite Hi, index_content_eq. f_equal. f_equal. f_equal.
    fold kept. rewrite <- list_fmap_compose.
    apply list_fmap_ext. intros i f Hf. simpl.
    apply list_elem_of_lookup_2, list_elem_of_filter in Hf as [_ Hf].
    apply Hsf in Hf as (n & -> & _). unfold truediv. by rewrite name_snoc.
Qed.

Lemma update_index_cases ctx w :
  let kdir := drive_path ctx KNOWLEDGE_DIR in
  exists w1 evs,
    fs w1 = fs w /\ logged w w1 evs
    /\ Forall (fun ev => exists loc, ev = EvStat loc \/ ev = EvGlob loc \/ ev = EvRead loc) evs
    /\ (_update_index ctx w = (Ret tt, w1)
        \/ exists content, _update_index ctx w = write_text (truediv kdir INDEX_FILE) content w1).
Proof.
  intros kdir. unfold _update_index, bind. cbv zeta. fold kdir.
  destruct (exists_total kdir w) as (b & wa & Ha). rewrite Ha.
  apply exists_inv in Ha as [Hfa Ha].
  assert (exists evs, logged w wa evs /\
            Forall (fun ev => exists loc, ev = EvStat loc \/ ev = EvGlob loc \/ ev = EvRead loc) evs)
    as (evsa & Hla & Hea).
  { destruct Ha as [(_ & _ & ->) | (loc & _ & -> & _)].
    - exists []. split; [unfold logged; by rewrite app_nil_r | constructor].
    - exists [EvStat loc]. split; [done |]. repeat constructor. eauto. }
  destruct b; [change (negb true) with false | change (negb false) with true];
    cbv beta iota.
  2:{ exists wa, evsa. split_and!; try done. by left. }
  assert (exists files wb evsb, glob_md kdir wa = (Ret files, wb) /\ fs wb = fs wa /\
            logged wa wb evsb /\
            Forall (fun ev => exists loc, ev = EvStat loc \/ ev = EvGlob loc \/ ev = EvRead loc) evsb)
    as (files & wb & evsb & Hg & Hfb & Hlb & Heb).
  { unfold glob_md. destruct (realpath (fs wa) kdir) as [loc|].
    - destruct (stat (fs wa) loc) as [[| |]|]; eexists _, _, [EvGlob loc];
        (split_and!; [done | done | done | repeat constructor; eauto]).
    - eexists _, _, []. split_and!; [done | done | unfold logged; by rewrite app_nil_r | constructor]. }
  rewrite Hg.
  destruct (index_entries_spec (sorted files) wb) as (wc & Hi & Hfc & evsc & Hlc & Hec).
  rewrite Hi. exists wc, (evsa ++ evsb ++ evsc). split_and!.
  - congruence.
  - unfold logged in *. by rewrite Hlc, Hlb, Hla, <- !app_assoc.
  - rewrite !Forall_app. split_and!; try done.
    eapply Forall_impl; [exact Hec |]. intros ev [loc ->]. eauto.
  - right. eauto.
Qed.

Lemma update_index_same_links ctx w o w' :
  _update_index ctx w = (o, w') -> same_links (fs w) (fs w').
Proof.
  intros H. destruct (update_index_cases ctx w) as (w1 & evs & Hfs & _ & _ & [E | [c E]]);
    rewrite E in H.
  - simplify_eq. rewrite Hfs. apply same_links_refl.
  - apply write_text_same_links in H. by rewrite Hfs in H.
Qed.

(** A rebuild changes nothing but the file the index path resolves to. *)
Lemma update_index_frame ctx w o w' q :
  _update_index ctx w = (o, w') ->
  realpath (fs w) (truediv (drive_path ctx KNOWLEDGE_DIR) INDEX_FILE) <> Some q ->
  fs w' !! q = fs w !! q.
Proof.
  intros H Hq. destruct (update_index_cases ctx w) as (w1 & evs & Hfs & _ & _ & [E | [c E]]);
    rewrite E in H.
  - simplify_eq. by rewrite Hfs.
  - rewrite <- Hfs. eapply write_text_frame; [exact H |]. by rewrite Hfs.
Qed.

Lemma update_index_logged ctx w o w' :
  _update_index ctx w = (o, w') -> exists evs, logged w w' evs.
Proof.
  intros H. destruct (update_index_cases ctx w) as (w1 & evs & _ & Hl & _ & [E | [c E]]);
    rewrite E in H.
  - pair_eq H. eauto.
  - apply write_text_inv in H as [(_ & -> & _) | (loc & _ & Hlog & _)]; [eauto |].
    exists (evs ++ [EvWrite loc c]). by eapply logged_trans.
Qed.

(** ** The path resolver *)

Lemma safe_path_pure ctx topic w o w' : _safe_path ctx topic w = (o, w') -> w' = w.
Proof.
  unfold _safe_path, bind, lift, resolve, raise, ret. cbv zeta.
  intros H. repeat case_match; by simplify_eq.
Qed.

Lemma safe_path_same_links ctx topic w w2 :
  same_links (fs w) (fs w2) ->
  (_safe_path ctx topic w2).1 = (_safe_path ctx topic w).1.
Proof.
  intros Hl. unfold _safe_path, bind, lift, resolve, raise, ret. cbv zeta.
  destruct (_sanitize_topic topic) as [t|e]; [| done].
  rewrite <- !(realpath_same_links _ _ _ Hl).
  destruct (realpath (fs w) _) as [r|]; [| done].
  rewrite <- !(realpath_same_links _ _ _ Hl).
  destruct (realpath (fs w) _) as [k|]; [| done].
  by destruct (_ && _).
Qed.

Lemma safe_path_ret ctx topic w p w' :
  let kdir := drive_path ctx KNOWLEDGE_DIR in
  _safe_path ctx topic w = (Ret p, w') ->
  exists t r k,
    _sanitize_topic topic = Ret t /\ p = truediv kdir (t ++ lit ".md")
    /\ realpath (fs w) p = Some r /\ realpath (fs w) kdir = Some k
    /\ (startswith (str_of_path k ++ lit "/") (str_of_path r) = true \/ r = k).
Proof.
  intros kdir. unfold _safe_path, bind, lift, resolve, raise, ret. cbv zeta. fold kdir.
  destruct (_sanitize_topic topic) as [t|e]; [| done].
  destruct (realpath (fs w) (truediv kdir (t ++ lit ".md"))) as [r|] eqn:Er; [| done].
  destruct (realpath (fs w) kdir) as [k|] eqn:Ek; [| done].
  destruct (startswith (str_of_path k ++ lit "/") (str_of_path r)) eqn:Es; simpl.
  - intros [= <- <-]. exists t, r, k. split_and!; auto.
  - case_bool_decide as Heq; simpl; [| done].
    intros [= <- <-]. exists t, r, k. split_and!; auto.
Qed.

(** The entry path of a topic that passed the resolver. *)
Lemma safe_path_entry ctx topic w p :
  (_safe_path ctx topic w).1 = Ret p ->
  p = truediv (drive_path ctx KNOWLEDGE_DIR) (strip topic ++ lit ".md")
  /\ exists r, realpath (fs w) p = Some r.
Proof.
  intros Hp. destruct (_safe_path ctx topic w) as [o w1] eqn:Es. simpl in Hp. subst o.
  apply safe_path_ret in Es as (t & r & k & Ht & -> & Hr & _).
  apply sanitize_ret_strip in Ht as ->. eauto.
Qed.

Lemma safe_path_padded ctx t l r w :
  _sanitize_topic t = Ret t -> forallb isspace l = true -> forallb isspace r = true ->
  _safe_path ctx (l ++ t ++ r) w = _safe_path ctx t w.
Proof.
  intros Ht Hl Hr. unfold _safe_path. by rewrite (sanitize_topic_padded _ _ _ Ht Hl Hr), Ht.
Qed.

(** ** The handlers *)

Lemma knowledge_read_cases ctx topic w :
  (exists e, (_safe_path ctx topic w).1 = Raise (ValueError e)
             /\ _knowledge_read ctx topic w = (Ret (invalid_topic_msg e), w))
  \/ (exists e, (_safe_path ctx topic w).1 = Raise e /\ (forall msg, e <> ValueError msg)
                /\ _knowledge_read ctx topic w = (Raise e, w))
  \/ (exists p, (_safe_path ctx topic w).1 = Ret p
                /\ _knowledge_read ctx topic w
                   = (let* present := exists_ p in
                      if negb present then ret (not_found_msg topic) else read_text p) w).
Proof.
  unfold _knowledge_read, try_ValueError.
  destruct (_safe_path ctx topic w) as [o w'] eqn:Es.
  pose proof (safe_path_pure _ _ _ _ _ Es) as ->. simpl.
  destruct o as [p|e]; [right; right; eauto |].
  destruct e; try (right; left; eexists; split_and!; [done | done | done]).
  left. eauto.
Qed.

(** Reading an entry that holds text. *)
Lemma knowledge_read_text ctx topic w p r text :
  (_safe_path ctx topic w).1 = Ret p -> realpath (fs w) p = Some r -> r <> [] ->
  fs w !! r = Some (File (Some text)) ->
  (_knowledge_read ctx topic w).1 = Ret (universal_newlines text).
Proof.
  intros Hp Hr Hne Hf.
  destruct (knowledge_read_cases ctx topic w)
    as [(e & He & E) | [(e & He & _ & E) | (p' & Hp' & E)]]; [congruence | congruence |].
  rewrite Hp in Hp'. injection Hp' as <-. rewrite E.
  assert (stat (fs w) r = Some (File (Some text))) as Hs by (by destruct r).
  unfold bind, exists_, read_text. rewrite Hr, Hs. simpl. by rewrite Hr, Hs.
Qed.

(** A read only uses the topic as given for the not-found message. *)
Lemma knowledge_read_echo ctx topic topic' w :
  _safe_path ctx topic' w = _safe_path ctx topic w ->
  (_knowledge_read ctx topic' w).2 = (_knowledge_read ctx topic w).2
  /\ ((_knowledge_read ctx topic' w).1 = (_knowledge_read ctx topic w).1
      \/ ((_knowledge_read ctx topic w).1 = Ret (not_found_msg topic)
          /\ (_knowledge_read ctx topic' w).1 = Ret (not_found_msg topic'))).
Proof.
  intros Hs. unfold _knowledge_read, try_ValueError. rewrite Hs.
  destruct (_safe_path ctx topic w) as [[p|e] w1].
  2:{ destruct e; simpl; auto. }
  unfold bind. destruct (exists_total p w1) as (b & w2 & Hx). rewrite Hx.
  destruct b; simpl; auto.
Qed.

(** A write on a valid topic with a valid mode is the content step, then
    the rebuild, then the acknowledgement. *)
Lemma knowledge_write_valid ctx topic content mode w p :
  (_safe_path ctx topic w).1 = Ret p ->
  mode = lit "overwrite" \/ mode = lit "append" ->
  _knowledge_write ctx topic content mode w
  = (let* _ := store_content ctx p content mode in
     let* _ := _update_index ctx in
     ret (saved_msg topic mode)) w.
Proof.
  intros Hp Hm. unfold _knowledge_write, try_ValueError.
  destruct (_safe_path ctx topic w) as [o w'] eqn:Es.
  pose proof (safe_path_pure _ _ _ _ _ Es) as ->. simpl in Hp. subst o.
  by destruct Hm as [-> | ->].
Qed.

(** What an acknowledged write went through. *)
Lemma knowledge_write_saved ctx topic content mode w :
  (_knowledge_write ctx topic content mode w).1 = Ret (saved_msg topic mode) ->
  exists p w1 w2,
    (_safe_path ctx topic w).1 = Ret p
    /\ (mode = lit "overwrite" \/ mode = lit "append")
    /\ store_content ctx p content mode w = (Ret tt, w1)
    /\ _update_index ctx w1 = (Ret tt, w2)
    /\ _knowledge_write ctx topic content mode w = (Ret (saved_msg topic mode), w2).
Proof.
  unfold _knowledge_write, try_ValueError.
  destruct (_safe_path ctx topic w) as [o w'] eqn:Es.
  pose proof (safe_path_pure _ _ _ _ _ Es) as ->.
  destruct o as [p|e].
  2:{ destruct e; simpl; intros H; try done. }
  destruct (bool_decide (mode = lit "overwrite") || bool_decide (mode = lit "append")) eqn:Hm;
    simpl; [| intros H; done].
  unfold bind. destruct (store_content ctx p content mode w) as [[[]|e] w1] eqn:E1; [| done].
  destruct (_update_index ctx w1) as [[[]|e] w2] eqn:E2; [| done].
  intros _. exists p, w1, w2. split_and!; try done.
  apply orb_true_iff in Hm as [Hm | Hm]; apply bool_decide_eq_true in Hm; auto.
Qed.

Lemma saved_not_invalid_topic topic mode e : saved_msg topic mode <> invalid_topic_msg e.
Proof. done. Qed.

Lemma saved_not_invalid_mode topic mode mode' : saved_msg topic mode <> invalid_mode_msg mode'.
Proof. done. Qed.

(** A write only uses the topic as given for the acknowledgement. *)
Lemma knowledge_write_echo ctx topic topic' content mode w :
  _safe_path ctx topic' w = _safe_path ctx topic w ->
  (_knowledge_write ctx topic' content mode w).2 = (_knowledge_write ctx topic content mode w).2
  /\ ((_knowledge_write ctx topic content mode w).1 = Ret (saved_msg topic mode) ->
      (_knowledge_write ctx topic' content mode w).1 = Ret (saved_msg topic' mode))
  /\ ((_knowledge_write ctx topic content mode w).1 <> Ret (saved_msg topic mode) ->
      (_knowledge_write ctx topic' content mode w).1 = (_knowledge_write ctx topic content mode w).1).
Proof.
  intros Hs. unfold _knowledge_write, try_ValueError. rewrite Hs.
  destruct (_safe_path ctx topic w) as [[p|e] w1].
  2:{ destruct e; simpl; split_and!; try done. }
  destruct (negb _); simpl.
  { split_and!; try done. }
  unfold bind. destruct (store_content ctx p content mode w1) as [[[]|e] w2]; [| done].
  destruct (_update_index ctx w2) as [[[]|e] w3]; [| done].
  simpl. split_and!; try done.
Qed.

(** After the directory is ensured, every call the content step makes acts
    on the file the entry path resolves to. *)
Lemma store_content_events ctx p content mode w o w' r :
  store_content ctx p content mode w = (o, w') -> realpath (fs w) p = Some r ->
  exists o0 w0 evs,
    _ensure_dir ctx w = (o0, w0) /\ logged w0 w' evs
    /\ Forall (fun ev => ev = EvStat r \/ ev = EvRead r \/ exists d, ev = EvWrite r d) evs.
Proof.
  unfold store_content, bind. intros H Hr.
  destruct (_ensure_dir ctx w) as [o0 w0] eqn:Ed. exists o0, w0.
  pose proof (ensure_dir_same_links _ _ _ _ Ed) as Hl.
  assert (realpath (fs w0) p = Some r) as Hr0 by (by rewrite <- (realpath_same_links _ _ _ Hl)).
  assert (logged w0 w0 []) as Hnil by (unfold logged; by rewrite app_nil_r).
  destruct o0 as [[]|e]; [| pair_eq H; exists []; split_and!; [done | done | constructor]].
  assert (forall data w1 evs1,
            write_text p data w1 = (o, w') -> fs w1 = fs w0 -> logged w0 w1 evs1 ->
            Forall (fun ev => ev = EvStat r \/ ev = EvRead r \/ exists d, ev = EvWrite r d) evs1 ->
            exists evs, (@Ret unit tt, w0) = (Ret tt, w0) /\ logged w0 w' evs
              /\ Forall (fun ev => ev = EvStat r \/ ev = EvRead r \/ exists d, ev = EvWrite r d) evs)
    as Hw.
  { intros data w1 evs1 Hwr Hf1 Hl1 He1. exists (evs1 ++ [EvWrite r data]).
    split; [done |]. split.
    - eapply write_text_log in Hwr; [| by rewrite Hf1]. unfold logged in *.
      by rewrite Hwr, Hl1, app_assoc.
    - apply Forall_app. split; [done | each_event]. }
  case_bool_decide as Hm.
  - destruct (exists_ p w0) as [ob w1] eqn:Ex.
    destruct (exists_total p w0) as (b & w1' & Ex'). rewrite Ex in Ex'. injection Ex' as -> ->.
    pose proof Ex as Ex'. apply exists_inv in Ex' as [Hf1 [(Hn & _) | (loc & Hloc & -> & Hb)]];
      [congruence |]. rewrite Hr0 in Hloc. injection Hloc as <-.
    destruct b.
    + destruct (read_text p (emit (EvStat r) w0)) as [o2 w2] eqn:Erd.
      apply read_text_inv in Erd as [Hf2 [(Hn & _) | (loc & Hloc & -> & Ho2)]];
        [rewrite fs_emit in Hn; congruence |].
      rewrite fs_emit, Hr0 in Hloc. injection Hloc as <-.
      destruct o2 as [existing|e].
      * apply (Hw _ _ [EvStat r; EvRead r] H); [done | log_ok | each_event].
      * pair_eq H. exists [EvStat r; EvRead r]. split_and!; [done | log_ok | each_event].
    + apply (Hw _ _ [EvStat r] H); [done | log_ok | each_event].
  - simpl in H. unfold ret in H.
    apply (Hw _ _ [] H); [done | done | each_event].
Qed.

(** The content step in overwrite mode: the directory, then one write. *)
Lemma store_content_overwrite ctx p content mode w :
  mode <> lit "append" ->
  store_content ctx p content mode w
  = (let* _ := _ensure_dir ctx in write_text p content) w.
Proof.
  intros Hm. unfold store_content, bind.
  destruct (_ensure_dir ctx w) as [[[]|e] w0]; [| done].
  by rewrite bool_decide_eq_false_2.
Qed.

Lemma store_content_overwrite_ok ctx p content mode w w1 r :
  mode <> lit "append" ->
  store_content ctx p content mode w = (Ret tt, w1) -> realpath (fs w) p = Some r ->
  exists w0, _ensure_dir ctx w = (Ret tt, w0)
             /\ fs w1 = <[r := File (Some content)]> (fs w0)
             /\ r <> [] /\ encodable content = true /\ same_links (fs w) (fs w1).
Proof.
  intros Hm H Hr. rewrite store_content_overwrite in H by done. unfold bind in H.
  destruct (_ensure_dir ctx w) as [[[]|e] w0] eqn:Ed; [| done].
  pose proof (ensure_dir_same_links _ _ _ _ Ed) as Hl.
  pose proof (write_text_same_links _ _ _ _ _ H) as Hl'.
  apply write_text_inv in H as [(_ & _ & ?) | (loc & Hloc & _ & [[_ [e ?]] | (_ & Hne & [(_ & He & Hf) | (? & _)])])];
    try done.
  rewrite <- (realpath_same_links _ _ _ Hl), Hr in Hloc. injection Hloc as <-.
  exists w0. split_and!; try done. by apply same_links_trans with (fs w0).
Qed.

Lemma append_result_eq existing content :
  (if bool_decide (existing <> []) && negb (endswith [nl] existing)
   then existing ++ [nl] else existing) ++ content
  = append_result existing content.
Proof.
  unfold append_result.
  destruct (bool_decide (existing <> []) && negb (endswith [nl] existing)); [| done].
  by rewrite <- app_assoc.
Qed.

(** The content step in append mode, when it succeeds: one write at the
    entry, of the old text and the new, or of the new text alone when
    there was no entry. *)
Lemma store_content_append ctx p content w w1 r :
  store_content ctx p content (lit "append") w = (Ret tt, w1) ->
  realpath (fs w) p = Some r ->
  exists w0 data before,
    _ensure_dir ctx w = (Ret tt, w0)
    /\ fs w1 = <[r := File (Some data)]> (fs w0) /\ r <> []
    /\ same_links (fs w) (fs w1)
    /\ logged w0 w1 (before ++ [EvWrite r data])
    /\ Forall (fun ev => ~ is_write ev) before
    /\ (forall old, stat (fs w) r = Some (File (Some old)) ->
                    data = append_result (universal_newlines old) content)
    /\ ((exists_ p w).1 = Ret false -> data = content).
Proof.
  unfold store_content, bind. intros H Hr.
  destruct (_ensure_dir ctx w) as [[[]|e] w0] eqn:Ed; [| done].
  pose proof (ensure_dir_same_links _ _ _ _ Ed) as Hl.
  assert (realpath (fs w0) p = Some r) as Hr0 by (by rewrite <- (realpath_same_links _ _ _ Hl)).
  rewrite bool_decide_eq_true_2 in H by done.
  rewrite (exists_at _ _ _ Hr0) in H. rewrite (exists_at _ _ _ Hr).
  assert (forall data w2 before,
            write_text p data w2 = (Ret tt, w1) -> fs w2 = fs w0 ->
            logged w0 w2 before ->
            fs w1 = <[r := File (Some data)]> (fs w0) /\ r <> []
            /\ same_links (fs w) (fs w1) /\ logged w0 w1 (before ++ [EvWrite r data])) as Hw.
  { intros data w2 before Hwr Hf2 Hl2.
    pose proof (write_text_same_links _ _ _ _ _ Hwr) as Hl'. rewrite Hf2 in Hl'.
    pose proof Hwr as Hlog. apply write_text_log with (r := r) in Hlog; [| by rewrite Hf2].
    apply write_text_inv in Hwr
      as [(_ & _ & ?) | (loc & Hloc & _ & [[_ [e ?]] | (_ & Hne & [(_ & He & Hf) | (? & _)])])];
      try done.
    rewrite Hf2, Hr0 in Hloc. injection Hloc as <-.
    split_and!; [by rewrite Hf, Hf2 | done | by apply same_links_trans with (fs w0) |].
    by eapply logged_trans. }
  destruct (stat (fs w0) r) as [i0|] eqn:Hs0.
  2:{ (* nothing at the entry *)
      exists w0, content, [EvStat r].
      destruct (Hw content (emit (EvStat r) w0) [EvStat r] H) as (? & ? & ? & ?);
        [done | log_ok |].
      split_and!; try done.
      - repeat constructor. apply not_write_stat.
      - intros old Hold. apply stat_lookup in Hold as [Hne' Hold]; [| done].
        pose proof (ensure_dir_keeps _ _ _ _ _ _ Ed Hold) as Hk.
        destruct r; [done |]. simpl in Hs0. congruence. }
  destruct i0 as [|text|t].
  - (* a directory: the read raises *)
    exfalso. unfold read_text in H. rewrite fs_emit, Hr0, Hs0 in H. done.
  - unfold read_text in H at 1. rewrite fs_emit, Hr0, Hs0 in H.
    destruct text as [old0|]; [| done].
    rewrite append_result_eq in H.
    exists w0, (append_result (universal_newlines old0) content), [EvStat r; EvRead r].
    destruct (Hw _ _ [EvStat r; EvRead r] H) as (? & ? & ? & ?); [done | log_ok |].
    apply stat_lookup in Hs0 as [Hne Hs0]; [| done].
    pose proof (ensure_dir_adds _ _ _ _ Ed r) as [Hsame | [_ Hdir]]; [| congruence].
    rewrite Hs0 in Hsame.
    assert (stat (fs w) r = Some (File (Some old0))) as Hs by (by destruct r).
    split_and!; try done.
    + repeat constructor; [apply not_write_stat | apply not_write_read].
    + intros old Hold. congruence.
    + rewrite Hs. done.
  - (* a link that does not resolve *)
    exists w0, content, [EvStat r].
    destruct (Hw content (emit (EvStat r) w0) [EvStat r] H) as (? & ? & ? & ?);
      [done | log_ok |].
    apply stat_lookup in Hs0 as [Hne Hs0]; [| done].
    pose proof (ensure_dir_adds _ _ _ _ Ed r) as [Hsame | [_ Hdir]]; [| congruence].
    rewrite Hs0 in Hsame.
    assert (stat (fs w) r = Some (Symlink t)) as Hs by (by destruct r).
    split_and!; try done.
    + repeat constructor. apply not_write_stat.
    + intros old Hold. congruence.
Qed.

(** After an acknowledged overwrite the entry file holds the content, as
    long as the index is another file. *)
Lemma overwrite_stores ctx topic content w p r :
  let kdir := drive_path ctx KNOWLEDGE_DIR in
  let after := (_knowledge_write ctx topic content (lit "overwrite") w).2 in
  (_knowledge_write ctx topic content (lit "overwrite") w).1
    = Ret (saved_msg topic (lit "overwrite")) ->
  (_safe_path ctx topic w).1 = Ret p -> realpath (fs w) p = Some r ->
  realpath (fs w) (truediv kdir INDEX_FILE) <> Some r ->
  same_links (fs w) (fs after) /\ r <> [] /\ fs after !! r = Some (File (Some content)).
Proof.
  intros kdir after Hack Hp Hr Hidx. subst after.
  apply knowledge_write_saved in Hack as (p' & w1 & w2 & Hp' & _ & Hst & Hup & ->). simpl.
  rewrite Hp in Hp'. injection Hp' as <-.
  apply store_content_overwrite_ok with (r := r) in Hst as (w0 & Hd & Hf1 & Hne & _ & Hl1);
    [| done | done].
  pose proof (update_index_same_links _ _ _ _ Hup) as Hl2.
  split_and!; [by apply same_links_trans with (fs w1) | done |].
  rewrite (update_index_frame _ _ _ _ r Hup).
  - rewrite Hf1. apply lookup_insert_eq.
  - fold kdir. by rewrite <- (realpath_same_links _ _ _ Hl1).
Qed.

(** * More properties *)

(** ** More about the sanitizer *)

Lemma well_shaped_strip (t : str) : well_shaped t -> strip t = t.
Proof.
  intros (Hne & _ & _ & (a & Ha & Haa) & (b & Hb & Hbb)).
  pose proof (strip_by_pad isspace [] t [] a b Ha (alnum_not_space _ Haa)
                Hb (alnum_not_space _ Hbb) eq_refl eq_refl) as H.
  simpl in H. by rewrite app_nil_r in H.
Qed.

Lemma sanitize_fixpoint raw t : _sanitize_topic raw = Ret t -> _sanitize_topic t = Ret t.
Proof.
  intros H. destruct (sanitize_ret_shape _ _ H) as [Ht Hs].
  pose proof (well_shaped_strip _ Hs) as Hst.
  rewrite <- H. symmetry. apply sanitize_strip_eq.
  - intros ->. vm_compute in H. discriminate.
  - by destruct Hs.
  - by rewrite Hst.
Qed.

(** ** More about paths *)

Lemma join_app sep (p q : list str) :
  p <> [] -> q <> [] -> join sep (p ++ q) = join sep p ++ sep ++ join sep q.
Proof.
  intros Hp Hq. induction p as [|a p IH]; [done |].
  destruct p as [|b p].
  - destruct q as [|c q]; [done |]. reflexivity.
  - change ((a :: b :: p) ++ q) with (a :: (b :: p) ++ q).
    change ((b :: p) ++ q) with (b :: (p ++ q)) at 1. rewrite !join_cons2.
    change (b :: (p ++ q)) with ((b :: p) ++ q). rewrite IH by done.
    by rewrite <- !app_assoc.
Qed.

(** The test of [_safe_path] accepts everything below a base directory
    other than the root. *)
Lemma within_startswith (k r : Path) :
  k <> [] -> within k r -> r <> k ->
  startswith (str_of_path k ++ lit "/") (str_of_path r) = true.
Proof.
  intros Hk [rest ->] Hne. apply startswith_spec.
  assert (rest <> []) as Hrest by (intros ->; by rewrite app_nil_r in Hne).
  exists (join [slash] rest). unfold str_of_path. change (lit "/") with [slash].
  rewrite join_app by done. simpl. by rewrite <- !app_assoc.
Qed.

(** Directly below the root the test rejects: the root is written "/", so
    the prefix asked for is "//". *)
Lemma root_startswith (n : str) :
  n <> [] -> slash ∉ n ->
  startswith (str_of_path [] ++ lit "/") (str_of_path [n]) = false.
Proof.
  intros Hne Hs. destruct n as [|c n]; [done |].
  assert (c <> slash) as Hc by (intros ->; apply Hs; by left).
  unfold str_of_path. change (lit "/") with [slash].
  cbn [startswith join app].
  rewrite (proj2 (N.eqb_neq slash c)); [reflexivity |]. intros E. by apply Hc.
Qed.

(** ** More about the path resolver *)

Lemma safe_path_accepts ctx topic t w r k :
  let kdir := drive_path ctx KNOWLEDGE_DIR in
  _sanitize_topic topic = Ret t ->
  realpath (fs w) (truediv kdir (t ++ lit ".md")) = Some r ->
  realpath (fs w) kdir = Some k ->
  (k <> [] /\ within k r) \/ r = k ->
  _safe_path ctx topic w = (Ret (truediv kdir (t ++ lit ".md")), w).
Proof.
  intros kdir Ht Hr Hk Hin.
  unfold _safe_path, bind, lift, resolve, raise, ret. cbv zeta. fold kdir.
  rewrite Ht, Hr, Hk.
  destruct (decide (r = k)) as [-> | Hne].
  - rewrite (bool_decide_eq_true_2 (k = k)) by done. by rewrite andb_false_r.
  - destruct Hin as [[Hk0 Hw] | ?]; [| done].
    by rewrite within_startswith.
Qed.

Lemma safe_path_rejects ctx topic t w r k :
  let kdir := drive_path ctx KNOWLEDGE_DIR in
  _sanitize_topic topic = Ret t ->
  realpath (fs w) (truediv kdir (t ++ lit ".md")) = Some r ->
  realpath (fs w) kdir = Some k ->
  startswith (str_of_path k ++ lit "/") (str_of_path r) = false -> r <> k ->
  _safe_path ctx topic w = (Raise (ValueError (lit "Path escape detected: " ++ t)), w).
Proof.
  intros kdir Ht Hr Hk Hs Hne.
  unfold _safe_path, bind, lift, resolve, raise, ret. cbv zeta. fold kdir.
  rewrite Ht, Hr, Hk, Hs. by rewrite bool_decide_eq_false_2.
Qed.

Lemma sanitized_not_dotdot topic t : _sanitize_topic topic = Ret t -> t ++ lit ".md" <> lit "..".
Proof.
  intros H E. destruct (sanitize_ret_shape _ _ H) as [_ (Hne & _)].
  destruct t as [|a [|b [|c t]]]; done.
Qed.

(** The entry of an accepted topic, when the directory holds no link under
    its name. *)
Lemma entry_realpath (ctx : ToolContext) (topic t : str) (m : gmap Path inode) (k : Path) :
  let kdir := drive_path ctx KNOWLEDGE_DIR in
  _sanitize_topic topic = Ret t ->
  realpath m kdir = Some k ->
  (forall target, m !! (k ++ [t ++ lit ".md"]) <> Some (Symlink target)) ->
  realpath m (truediv kdir (t ++ lit ".md")) = Some (k ++ [t ++ lit ".md"]).
Proof.
  intros kdir Ht Hk Hpl. apply realpath_snoc; [done | by eapply sanitized_not_dotdot | done].
Qed.

(** ** More about path resolution *)

(** The last step of a resolution: the name is appended to what the
    parent resolves to, unless a link stands there. *)
Lemma realpath_from_snoc_inv (fuel : nat) (m : gmap Path inode) (cur p : Path) (n : str) (r : Path) :
  n <> lit ".." ->
  realpath_from fuel m cur (p ++ [n]) = Some r ->
  exists k, realpath_from fuel m cur p = Some k
            /\ (r = k ++ [n] \/ exists t, m !! (k ++ [n]) = Some (Symlink t)).
Proof.
  intros Hn. revert cur p r.
  induction fuel as [|fuel IHf]; intros cur p; revert cur;
    induction p as [|c p IHp]; intros cur r; simpl app;
    rewrite ?realpath_from_nil, !realpath_from_cons.
  - rewrite bool_decide_eq_false_2 by done. intros H. exists cur. split; [done |].
    destruct (m !! (cur ++ [n])) as [[| |t]|] eqn:E; rewrite ?realpath_from_nil in H;
      first [left; congruence | right; by exists t].
  - case_bool_decide; [apply IHp |].
    destruct (m !! (cur ++ [c])) as [[| |t]|] eqn:E; try apply IHp. done.
  - rewrite bool_decide_eq_false_2 by done. intros H. exists cur. split; [done |].
    destruct (m !! (cur ++ [n])) as [[| |t]|] eqn:E; rewrite ?realpath_from_nil in H;
      first [left; congruence | right; by exists t].
  - case_bool_decide; [apply IHp |].
    destruct (m !! (cur ++ [c])) as [[| |t]|] eqn:E; try apply IHp.
    rewrite app_assoc. apply IHf.
Qed.

Lemma realpath_snoc_inv (m : gmap Path inode) (p : Path) (n : str) (r : Path) :
  n <> lit ".." ->
  realpath m (p ++ [n]) = Some r ->
  exists k, realpath m p = Some k
            /\ (r = k ++ [n] \/ exists t, m !! (k ++ [n]) = Some (Symlink t)).
Proof. apply realpath_from_snoc_inv. Qed.

Lemma stat_snoc (m : gmap Path inode) (d : Path) (n : str) : stat m (d ++ [n]) = m !! (d ++ [n]).
Proof. by destruct d. Qed.

(** ** More about creating directories *)

Lemma is_dir_true p w w' :
  is_dir p w = (Ret true, w') ->
  fs w' = fs w /\ exists loc, realpath (fs w) p = Some loc /\ stat (fs w) loc = Some Dir.
Proof.
  unfold is_dir. destruct (realpath (fs w) p) as [loc|]; [| done].
  intros H. pair_eq H. split; [done |]. exists loc. split; [done |].
  destruct (stat (fs w) loc) as [i|]; [by destruct i | done].
Qed.

Lemma is_dir_at p w loc :
  realpath (fs w) p = Some loc -> stat (fs w) loc = Some Dir ->
  is_dir p w = (Ret true, emit (EvStat loc) w).
Proof. intros Hr Hs. unfold is_dir. by rewrite Hr, Hs. Qed.

Lemma os_mkdir_ok p w w' :
  os_mkdir p w = (Ret tt, w') ->
  exists par n ploc,
    p = par ++ [n] /\ realpath (fs w) par = Some ploc /\ stat (fs w) ploc = Some Dir
    /\ fs w !! (ploc ++ [n]) = None /\ fs w' = <[ploc ++ [n] := Dir]> (fs w).
Proof.
  unfold os_mkdir. destruct (rev p) as [|n rpar] eqn:Ep; [done |].
  assert (p = rev rpar ++ [n]) as ->.
  { rewrite <- (rev_involutive p), Ep. reflexivity. }
  destruct (realpath (fs w) (rev rpar)) as [ploc|] eqn:Er; [| done].
  destruct (stat (fs w) ploc) as [i|] eqn:Es; [destruct i |]; try done.
  destruct (fs w !! (ploc ++ [n])) eqn:El; [done |].
  intros H. injection H as <-. by exists (rev rpar), n, ploc.
Qed.

Lemma os_mkdir_dir p w w' :
  os_mkdir p w = (Ret tt, w') -> lit ".." ∉ p ->
  exists loc, realpath (fs w') p = Some loc /\ stat (fs w') loc = Some Dir.
Proof.
  intros H Hdd. pose proof (os_mkdir_adds _ _ _ _ H) as Hadd.
  apply os_mkdir_ok in H as (par & n & ploc & -> & Hr & Hs & Hnone & Hf).
  exists (ploc ++ [n]).
  assert (fs w' !! (ploc ++ [n]) = Some Dir) as Hl by (rewrite Hf; apply lookup_insert_eq).
  split; [| by rewrite stat_snoc].
  apply realpath_snoc.
  - by rewrite <- (realpath_same_links _ _ _ (adds_dirs_same_links _ _ Hadd)).
  - intros ->. apply Hdd. set_solver.
  - intros t. by rewrite Hl.
Qed.

Lemma is_dir_fallback_dir p e w w' :
  match is_dir p w with
  | (Ret true, w'') => (Ret tt, w'')
  | (_, w'') => (Raise e, w'')
  end = (Ret tt, w') ->
  fs w' = fs w /\ exists loc, realpath (fs w) p = Some loc /\ stat (fs w) loc = Some Dir.
Proof.
  destruct (is_dir p w) as [[[|]|] w''] eqn:E; try done.
  intros H. injection H as <-. by apply is_dir_true.
Qed.

Lemma mkdir_exist_ok_dir p w w' :
  mkdir_exist_ok p w = (Ret tt, w') -> lit ".." ∉ p ->
  exists loc, realpath (fs w') p = Some loc /\ stat (fs w') loc = Some Dir.
Proof.
  unfold mkdir_exist_ok. intros H Hdd.
  destruct (os_mkdir p w) as [[[]|e] w1] eqn:Em.
  - injection H as <-. by eapply os_mkdir_dir.
  - destruct e; try done;
      apply is_dir_fallback_dir in H as [Hf (loc & Hr & Hs)]; exists loc; by rewrite Hf.
Qed.

Lemma mkdir_parents_rev_dir rp w w' :
  mkdir_parents_rev rp w = (Ret tt, w') -> lit ".." ∉ rp ->
  exists loc, realpath (fs w') (rev rp) = Some loc /\ stat (fs w') loc = Some Dir.
Proof.
  rewrite mkdir_parents_rev_unfold. intros H Hdd.
  assert (lit ".." ∉ rev rp) as Hdd'.
  { intros Hin. apply Hdd, list_elem_of_In, in_rev. by apply list_elem_of_In. }
  destruct (os_mkdir (rev rp) w) as [[[]|e] w1] eqn:Em.
  - injection H as <-. by eapply os_mkdir_dir.
  - destruct e;
      try (apply is_dir_fallback_dir in H as [Hf (loc & Hr & Hs)]; exists loc; by rewrite Hf).
    destruct rp as [|n rpar]; [done |].
    destruct (mkdir_parents_rev rpar w1) as [[[]|e'] w2] eqn:Ep; [| done].
    by eapply mkdir_exist_ok_dir.
Qed.

Lemma os_mkdir_exists (par : Path) (n : str) w (ploc : Path) i :
  realpath (fs w) par = Some ploc -> stat (fs w) ploc = Some Dir ->
  fs w !! (ploc ++ [n]) = Some i ->
  os_mkdir (par ++ [n]) w
  = (Raise (FileExistsError (par ++ [n])), emit (EvMkdir (ploc ++ [n])) w).
Proof.
  intros Hr Hs Hl. unfold os_mkdir. rewrite rev_unit, rev_involutive, Hr. cbv zeta.
  by rewrite Hs, Hl.
Qed.

(** [mkdir(parents=True, exist_ok=True)] on a path something already
    stands at: the attempt fails, and the call succeeds exactly when the
    path is a directory. *)
Lemma mkdir_parents_exists (par : Path) (n : str) w (ploc : Path) i :
  realpath (fs w) par = Some ploc -> stat (fs w) ploc = Some Dir ->
  fs w !! (ploc ++ [n]) = Some i ->
  mkdir_parents (par ++ [n]) w
  = match is_dir (par ++ [n]) (emit (EvMkdir (ploc ++ [n])) w) with
    | (Ret true, w'') => (Ret tt, w'')
    | (_, w'') => (Raise (FileExistsError (par ++ [n])), w'')
    end.
Proof.
  intros Hr Hs Hl. unfold mkdir_parents. rewrite mkdir_parents_rev_unfold, rev_involutive.
  by rewrite (os_mkdir_exists par n w ploc i Hr Hs Hl).
Qed.

(** ** More about the index builder *)

#[global] Instance name_le_antisymm : AntiSymm (=) name_le.
Proof. intros a b Hab Hba. unfold name_le in *. by apply str_ltb_total. Qed.

(** The sorted list of the names of a directory is determined by the set
    of the names. *)
Lemma sorted_names_unique (l1 l2 : list str) :
  NoDup l1 -> NoDup l2 -> StronglySorted name_le l1 -> StronglySorted name_le l2 ->
  (forall n, n ∈ l1 <-> n ∈ l2) -> l1 = l2.
Proof.
  intros Hd1 Hd2 Hs1 Hs2 Hel.
  apply (StronglySorted_unique name_le); [done | done |]. by apply NoDup_Permutation.
Qed.

Lemma read_result_agree (m m' : gmap Path inode) (p loc : Path) :
  realpath m p = Some loc -> realpath m' p = Some loc -> stat m' loc = stat m loc ->
  read_result m' p = read_result m p.
Proof. intros Hr Hr' Hs. unfold read_result. by rewrite Hr, Hr', Hs. Qed.

Lemma md_not_dotdot (n : str) : endswith (lit ".md") n = true -> n <> lit "..".
Proof. intros H ->. vm_compute in H. discriminate. Qed.

Lemma update_index_absent ctx w :
  (exists_ (drive_path ctx KNOWLEDGE_DIR) w).1 = Ret false ->
  exists w' evs,
    _update_index ctx w = (Ret tt, w') /\ fs w' = fs w
    /\ logged w w' evs /\ Forall (fun ev => exists loc, ev = EvStat loc) evs.
Proof.
  intros Hx. unfold _update_index, bind. cbv zeta.
  destruct (exists_total (drive_path ctx KNOWLEDGE_DIR) w) as (b & w1 & E).
  rewrite E in *. simpl in Hx. injection Hx as ->. simpl.
  apply exists_inv in E as [Hf [(_ & _ & ->) | (loc & _ & -> & _)]].
  - exists w, []. split_and!; [done | done | apply logged_nil | constructor].
  - exists (emit (EvStat loc) w), [EvStat loc]. split_and!; [done | done | done |].
    repeat constructor. by exists loc.
Qed.

(** A rebuild that returns, over a directory whose index name is not a
    link: the index file holds the text built from the entries. *)
Lemma update_index_done ctx w w' (k : Path) :
  let kdir := drive_path ctx KNOWLEDGE_DIR in
  realpath (fs w) kdir = Some k -> stat (fs w) k = Some Dir ->
  (forall t, fs w !! (k ++ [INDEX_FILE]) <> Some (Symlink t)) ->
  _update_index ctx w = (Ret tt, w') ->
  exists names text,
    (forall n, n ∈ names <-> is_Some (fs w !! (k ++ [n])) /\ endswith (lit ".md") n = true
                              /\ n <> INDEX_FILE)
    /\ NoDup names /\ StronglySorted name_le names
    /\ text = index_header ++ index_body ((fun n => entry_of (fs w) (truediv kdir n)) <$> names)
    /\ encodable text = true
    /\ fs w' = <[k ++ [INDEX_FILE] := File (Some text)]> (fs w)
    /\ exists evs, logged w w' evs /\ writes evs = [EvWrite (k ++ [INDEX_FILE]) text].
Proof.
  intros kdir Hk Hd Hpl H.
  destruct (update_index_as_write ctx w k Hk Hd)
    as (names & w1 & Hn & Hnd & Hs & Hf & (evs & Hl & He) & E).
  fold kdir in E. rewrite E in H.
  assert (realpath (fs w1) (truediv kdir INDEX_FILE) = Some (k ++ [INDEX_FILE])) as Hi.
  { rewrite Hf. apply realpath_snoc; [done | apply index_file_not_dotdot | done]. }
  exists names, (index_header
                 ++ index_body ((fun n => entry_of (fs w) (truediv kdir n)) <$> names)).
  apply write_text_inv in H
    as [(Hnone & _) | (loc & Hloc & Hlog & [[_ [e ?]] | (_ & _ & [(_ & Henc & Hf') | (? & _)])])];
    try done.
  { by rewrite Hi in Hnone. }
  rewrite Hi in Hloc. injection Hloc as <-.
  split_and!; [done | done | done | done | done | by rewrite Hf', Hf |].
  exists (evs ++ [EvWrite (k ++ [INDEX_FILE])
                    (index_header
                     ++ index_body ((fun n => entry_of (fs w) (truediv kdir n)) <$> names))]).
  split.
  - unfold logged in *. by rewrite Hlog, Hl, app_assoc.
  - by rewrite writes_app, (writes_none evs He).
Qed.

(** A second rebuild, from a world with the files the first one left, finds
    what the first one left. *)
Lemma update_index_again ctx w w1 wr (k : Path) :
  let kdir := drive_path ctx KNOWLEDGE_DIR in
  realpath (fs w) kdir = Some k -> stat (fs w) k = Some Dir ->
  plain_entries (fs w) k ->
  _update_index ctx w = (Ret tt, w1) -> fs wr = fs w1 ->
  exists w2, _update_index ctx wr = (Ret tt, w2) /\ fs w2 = fs w1.
Proof.
  intros kdir Hk Hd Hpl H Hfr.
  pose proof (update_index_same_links _ _ _ _ H) as Hlinks.
  destruct (update_index_done ctx w w1 k Hk Hd (Hpl INDEX_FILE) H)
    as (names & text & Hn & Hnd & Hs & Ht & Henc & Hf & _).
  set (iloc := k ++ [INDEX_FILE]) in *.
  assert (forall n, n <> INDEX_FILE -> fs w1 !! (k ++ [n]) = fs w !! (k ++ [n])) as Hsame.
  { intros n Hne. rewrite Hf. apply lookup_insert_ne. unfold iloc. intros Heq.
    by apply app_inj_tail in Heq as [_ ?]. }
  assert (realpath (fs w1) kdir = Some k) as Hk1.
  { by rewrite <- (realpath_same_links _ _ _ Hlinks). }
  assert (stat (fs w1) k = Some Dir) as Hd1.
  { destruct k as [|c k']; [done |]. simpl in *. rewrite Hf.
    rewrite lookup_insert_ne; [done |]. unfold iloc. intros Heq.
    apply (f_equal length) in Heq. simpl in Heq. rewrite length_app in Heq. simpl in Heq. lia. }
  destruct (update_index_as_write ctx wr k)
    as (names' & wb & Hn' & Hnd' & Hs' & Hfb & _ & E);
    [rewrite Hfr; exact Hk1 | rewrite Hfr; exact Hd1 |].
  fold kdir in E. rewrite Hfr in Hn', Hfb, E.
  assert (names' = names) as ->.
  { apply sorted_names_unique; [done | done | done | done |].
    intros n. rewrite Hn, Hn'. split; intros (Hsome & Hmd & Hne); (split_and!; [| done | done]).
    - by rewrite <- Hsame.
    - by rewrite Hsame. }
  assert ((fun n => entry_of (fs w1) (truediv kdir n)) <$> names
          = (fun n => entry_of (fs w) (truediv kdir n)) <$> names) as Hent.
  { apply list_fmap_ext. intros i n Hin. apply list_elem_of_lookup_2, Hn in Hin
      as (_ & Hmd & Hne).
    assert (realpath (fs w) (truediv kdir n) = Some (k ++ [n])) as Hr.
    { apply realpath_snoc; [exact Hk | by apply md_not_dotdot | apply Hpl]. }
    assert (read_result (fs w1) (truediv kdir n) = read_result (fs w) (truediv kdir n)) as Hrr.
    { apply (read_result_agree (fs w) (fs w1) _ (k ++ [n]) Hr).
      - rewrite <- (realpath_same_links _ _ _ Hlinks). exact Hr.
      - rewrite !stat_snoc. by apply Hsame. }
    unfold entry_of. rewrite Hrr. reflexivity. }
  fold kdir in Ht. rewrite Hent, <- Ht in E.
  assert (realpath (fs wb) (truediv kdir INDEX_FILE) = Some iloc) as Hi.
  { rewrite Hfb, <- (realpath_same_links _ _ _ Hlinks).
    apply realpath_snoc; [exact Hk | apply index_file_not_dotdot | apply Hpl]. }
  assert (stat (fs wb) iloc = Some (File (Some text))) as Hsi.
  { unfold iloc. rewrite stat_snoc, Hfb, Hf. apply lookup_insert_eq. }
  exists (set_inode iloc (File (Some text)) (emit (EvWrite iloc text) wb)). split.
  - rewrite E. unfold write_text. rewrite Hi, Hsi. cbv zeta. by rewrite Henc.
  - unfold set_inode. simpl. rewrite Hfb, Hf. apply insert_insert_eq.
Qed.

Lemma link_free_plain (m : gmap Path inode) (k : Path) : link_free m -> plain_entries m k.
Proof.
  intros Hm n target Hl. apply Hm in Hl. done.
Qed.

(** ** More about the handlers *)

Lemma sanitized_not_index topic t : _sanitize_topic topic = Ret t -> t ++ lit ".md" <> INDEX_FILE.
Proof.
  intros H E. destruct (sanitize_ret_shape _ _ H) as [_ (_ & _ & _ & (c & Hc & Hac) & _)].
  destruct t as [|c' t]; [done |]. simpl in Hc. injection Hc as ->.
  injection E as -> _. vm_compute in Hac. discriminate.
Qed.

Lemma sanitized_md (t : str) : endswith (lit ".md") (t ++ lit ".md") = true.
Proof. apply endswith_spec. by exists t. Qed.

Lemma sanitized_nonempty topic t : _sanitize_topic topic = Ret t -> t <> [].
Proof. intros H. by destruct (sanitize_ret_shape _ _ H) as [_ (? & _)]. Qed.

(** The content step is [_ensure_dir], then tests and reads that change
    nothing, then at most one [write_text] on the entry path. *)
Lemma store_content_shape ctx p content mode w o w1 :
  store_content ctx p content mode w = (o, w1) ->
  exists o0 w0,
    _ensure_dir ctx w = (o0, w0)
    /\ (fs w1 = fs w0
        \/ exists data w2, o0 = Ret tt /\ fs w2 = fs w0 /\ write_text p data w2 = (o, w1)).
Proof.
  unfold store_content, bind. intros H.
  destruct (_ensure_dir ctx w) as [o0 w0] eqn:Ed. exists o0, w0. split; [done |].
  destruct o0 as [[]|e]; [| injection H as _ <-; by left].
  case_bool_decide as Hm.
  - destruct (exists_total p w0) as (b & wa & Ex). rewrite Ex in H.
    apply exists_inv in Ex as [Hfa _].
    destruct b.
    + destruct (read_text p wa) as [o2 wb] eqn:Erd.
      apply read_text_inv in Erd as [Hfb _].
      destruct o2 as [existing|e].
      * right. eexists _, wb. split_and!; [done | congruence | exact H].
      * injection H as _ <-. left. congruence.
    + right. eexists _, wa. split_and!; [done | done | exact H].
  - right. eexists _, w0. split_and!; [done | done | exact H].
Qed.

Lemma store_content_frame ctx p content mode w o w1 (r q : Path) :
  store_content ctx p content mode w = (o, w1) ->
  realpath (fs w) p = Some r -> q <> r ->
  fs w1 !! q = fs w !! q \/ (fs w !! q = None /\ fs w1 !! q = Some Dir).
Proof.
  intros H Hr Hq.
  destruct (store_content_shape _ _ _ _ _ _ _ H)
    as (o0 & w0 & Ed & [Hf | (data & w2 & _ & Hf & Hw)]).
  - rewrite Hf. apply (ensure_dir_adds _ _ _ _ Ed q).
  - pose proof (ensure_dir_same_links _ _ _ _ Ed) as Hl.
    assert (fs w1 !! q = fs w0 !! q) as ->.
    { rewrite <- Hf. apply (write_text_frame _ _ _ _ _ _ Hw).
      rewrite Hf, <- (realpath_same_links _ _ _ Hl), Hr. congruence. }
    apply (ensure_dir_adds _ _ _ _ Ed q).
Qed.

Lemma store_content_same_links ctx p content mode w o w1 :
  store_content ctx p content mode w = (o, w1) -> same_links (fs w) (fs w1).
Proof.
  intros H.
  destruct (store_content_shape _ _ _ _ _ _ _ H)
    as (o0 & w0 & Ed & [Hf | (data & w2 & _ & Hf & Hw)]).
  - rewrite Hf. by eapply ensure_dir_same_links.
  - apply same_links_trans with (fs w0); [by eapply ensure_dir_same_links |].
    rewrite <- Hf. by eapply write_text_same_links.
Qed.

Lemma ensure_dir_dir ctx w w0 (k : Path) :
  let kdir := drive_path ctx KNOWLEDGE_DIR in
  _ensure_dir ctx w = (Ret tt, w0) -> lit ".." ∉ kdir ->
  realpath (fs w) kdir = Some k ->
  realpath (fs w0) kdir = Some k /\ stat (fs w0) k = Some Dir.
Proof.
  intros kdir Hed Hdd Hk.
  pose proof (ensure_dir_same_links _ _ _ _ Hed) as Hl.
  assert (realpath (fs w0) kdir = Some k) as Hk0.
  { rewrite <- (realpath_same_links _ _ _ Hl). exact Hk. }
  split; [exact Hk0 |].
  unfold _ensure_dir, mkdir_parents in Hed. apply mkdir_parents_rev_dir in Hed.
  - rewrite rev_involutive in Hed. destruct Hed as (loc & Hloc & Hs). fold kdir in Hloc.
    rewrite Hk0 in Hloc. by injection Hloc as <-.
  - intros Hin. apply Hdd, list_elem_of_In, in_rev. by apply list_elem_of_In.
Qed.

Lemma stat_insert_below (m : gmap Path inode) (k : Path) (n : str) i :
  stat (<[k ++ [n] := i]> m) k = stat m k.
Proof.
  destruct k as [|c k']; [done |]. simpl. apply lookup_insert_ne.
  intros Heq. apply (f_equal length) in Heq. simpl in Heq. rewrite length_app in Heq.
  simpl in Heq. lia.
Qed.

Lemma overwrite_not_append : lit "overwrite" <> lit "append".
Proof. intros H. vm_compute in H. discriminate. Qed.

(** What stands in the base directory after a content step that returned,
    when the entry is not a link. *)
Lemma store_content_done ctx p content mode w w1 (k : Path) (n : str) :
  let kdir := drive_path ctx KNOWLEDGE_DIR in
  mode = lit "overwrite" \/ mode = lit "append" ->
  store_content ctx p content mode w = (Ret tt, w1) ->
  lit ".." ∉ kdir -> realpath (fs w) kdir = Some k ->
  realpath (fs w) p = Some (k ++ [n]) ->
  exists data,
    fs w1 !! (k ++ [n]) = Some (File (Some data))
    /\ (mode = lit "overwrite" -> data = content)
    /\ (forall old, mode = lit "append" -> stat (fs w) (k ++ [n]) = Some (File (Some old)) ->
          data = append_result (universal_newlines old) content)
    /\ (forall q, q <> k ++ [n] ->
          fs w1 !! q = fs w !! q \/ (fs w !! q = None /\ fs w1 !! q = Some Dir))
    /\ same_links (fs w) (fs w1)
    /\ realpath (fs w1) kdir = Some k /\ stat (fs w1) k = Some Dir.
Proof.
  intros kdir Hm Hst Hdd Hk Hr.
  pose proof (store_content_same_links _ _ _ _ _ _ _ Hst) as Hl.
  assert (realpath (fs w1) kdir = Some k) as Hk1.
  { rewrite <- (realpath_same_links _ _ _ Hl). exact Hk. }
  assert (forall q, q <> k ++ [n] ->
            fs w1 !! q = fs w !! q \/ (fs w !! q = None /\ fs w1 !! q = Some Dir)) as Hfr.
  { intros q Hq. by eapply store_content_frame. }
  destruct Hm as [-> | ->].
  - destruct (store_content_overwrite_ok _ _ _ _ _ _ (k ++ [n]) overwrite_not_append Hst Hr)
      as (w0 & Hed & Hf & _ & _ & _).
    destruct (ensure_dir_dir ctx w w0 k Hed Hdd Hk) as [_ Hd0].
    exists content. split_and!; [| done | done | done | done | exact Hk1 |].
    + rewrite Hf. apply lookup_insert_eq.
    + by rewrite Hf, stat_insert_below.
  - destruct (store_content_append _ _ _ _ _ _ Hst Hr)
      as (w0 & data & before & Hed & Hf & _ & _ & _ & _ & Hold & _).
    destruct (ensure_dir_dir ctx w w0 k Hed Hdd Hk) as [_ Hd0].
    exists data. split_and!; [| done | | done | done | exact Hk1 |].
    + rewrite Hf. apply lookup_insert_eq.
    + intros old _. apply Hold.
    + by rewrite Hf, stat_insert_below.
Qed.

Lemma plain_entries_same_links (m m' : gmap Path inode) (k : Path) :
  same_links m m' -> plain_entries m k -> plain_entries m' k.
Proof. intros Hl Hpl n target Hs. apply (Hpl n target). by apply Hl. Qed.

(** A write that acknowledges, over a base directory without links: the
    content step stored the entry, and the rebuild that followed stored the
    index built from what the directory then held. *)
Lemma knowledge_write_done ctx topic content mode w w' (k : Path) :
  let t := strip topic in
  let kdir := drive_path ctx KNOWLEDGE_DIR in
  _knowledge_write ctx topic content mode w = (Ret (saved_msg topic mode), w') ->
  lit ".." ∉ kdir -> realpath (fs w) kdir = Some k -> plain_entries (fs w) k ->
  exists data names w1,
    _sanitize_topic topic = Ret t
    /\ fs w1 !! (k ++ [t ++ lit ".md"]) = Some (File (Some data))
    /\ (mode = lit "overwrite" -> data = content)
    /\ (forall old, mode = lit "append" ->
          stat (fs w) (k ++ [t ++ lit ".md"]) = Some (File (Some old)) ->
          data = append_result (universal_newlines old) content)
    /\ (forall q, q <> k ++ [t ++ lit ".md"] ->
          fs w1 !! q = fs w !! q \/ (fs w !! q = None /\ fs w1 !! q = Some Dir))
    /\ same_links (fs w) (fs w1)
    /\ (forall n, n ∈ names <-> is_Some (fs w1 !! (k ++ [n])) /\ endswith (lit ".md") n = true
                                /\ n <> INDEX_FILE)
    /\ NoDup names /\ StronglySorted name_le names
    /\ fs w' = <[k ++ [INDEX_FILE] :=
                   File (Some (index_header
                               ++ index_body ((fun n => entry_of (fs w1) (truediv kdir n))
                                                <$> names)))]> (fs w1)
    /\ same_links (fs w) (fs w').
Proof.
  intros t kdir H Hdd Hk Hpl.
  assert ((_knowledge_write ctx topic content mode w).1 = Ret (saved_msg topic mode)) as Hack
    by (by rewrite H).
  destruct (knowledge_write_saved _ _ _ _ _ Hack) as (p & w1 & w2 & Hp & Hm & Hst & Hup & E).
  rewrite E in H. injection H as <-. clear Hack E.
  destruct (_safe_path ctx topic w) as [os ws] eqn:Es. simpl in Hp. subst os.
  apply safe_path_ret in Es as (t' & r & k' & Ht & -> & Hr & _).
  pose proof (sanitize_ret_strip _ _ Ht) as Hst'. fold t in Hst'. subst t'.
  fold kdir in Hr, Hst.
  pose proof (entry_realpath ctx topic t (fs w) k Ht Hk (Hpl _)) as Hr'. fold kdir in Hr'.
  rewrite Hr' in Hr. injection Hr as <-. rename Hr' into Hr.
  destruct (store_content_done ctx _ content mode w w1 k (t ++ lit ".md") Hm Hst Hdd Hk Hr)
    as (data & Hf1 & Hov & Hap & Hfr & Hl1 & Hk1 & Hd1).
  assert (forall tg, fs w1 !! (k ++ [INDEX_FILE]) <> Some (Symlink tg)) as Hpi.
  { intros tg Hs. apply (Hpl INDEX_FILE tg). by apply Hl1. }
  destruct (update_index_done ctx w1 w2 k Hk1 Hd1 Hpi Hup)
    as (names & text & Hn & Hnd & Hs & Htext & _ & Hf2 & _).
  exists data, names, w1. subst text.
  split_and!; [done | done | done | done | done | done | done | done | done | exact Hf2 |].
  apply same_links_trans with (fs w1); [done |]. by eapply update_index_same_links.
Qed.

(** The entry after a write that acknowledges. *)
Lemma knowledge_write_stored ctx topic content mode w w' (k : Path) :
  let t := strip topic in
  let kdir := drive_path ctx KNOWLEDGE_DIR in
  let eloc := k ++ [t ++ lit ".md"] in
  _knowledge_write ctx topic content mode w = (Ret (saved_msg topic mode), w') ->
  lit ".." ∉ kdir -> realpath (fs w) kdir = Some k -> plain_entries (fs w) k ->
  exists data,
    fs w' !! eloc = Some (File (Some data))
    /\ (mode = lit "overwrite" -> data = content)
    /\ (forall old, mode = lit "append" -> stat (fs w) eloc = Some (File (Some old)) ->
          data = append_result (universal_newlines old) content)
    /\ same_links (fs w) (fs w')
    /\ (_safe_path ctx topic w').1 = Ret (truediv kdir (t ++ lit ".md"))
    /\ realpath (fs w') (truediv kdir (t ++ lit ".md")) = Some eloc.
Proof.
  intros t kdir eloc H Hdd Hk Hpl.
  destruct (knowledge_write_done ctx topic content mode w w' k H Hdd Hk Hpl)
    as (data & names & w1 & Ht & Hf1 & Hov & Hap & _ & _ & _ & _ & _ & Hf & Hl).
  fold t kdir in Ht, Hf1, Hf, Hap. fold eloc in Hf1, Hap.
  exists data. split_and!; [| exact Hov | exact Hap | exact Hl | |].
  - rewrite Hf, lookup_insert_ne; [exact Hf1 |].
    unfold eloc. intros Heq. apply app_inj_tail in Heq as [_ Heq].
    by apply (sanitized_not_index _ _ Ht).
  - rewrite (safe_path_same_links _ _ w w' Hl).
    assert ((_knowledge_write ctx topic content mode w).1 = Ret (saved_msg topic mode)) as Hack
      by (by rewrite H).
    destruct (knowledge_write_saved _ _ _ _ _ Hack) as (p & _ & _ & Hp & _).
    destruct (safe_path_entry _ _ _ _ Hp) as [-> _]. exact Hp.
  - apply (entry_realpath ctx topic t (fs w') k Ht).
    + rewrite <- (realpath_same_links _ _ _ Hl). exact Hk.
    + apply (plain_entries_same_links _ _ _ Hl Hpl).
Qed.

Lemma append_result_no_cr (a b : str) : cr ∉ a -> cr ∉ b -> cr ∉ append_result a b.
Proof.
  intros Ha Hb. unfold append_result. rewrite !elem_of_app. intros [? | [Hin | ?]]; [done | | done].
  destruct (bool_decide (a <> []) && negb (endswith [nl] a)); [| by apply elem_of_nil in Hin].
  apply list_elem_of_singleton in Hin. done.
Qed.

(** ** More about strings and summaries *)

Lemma split_no_sep (sep : char) (s : str) : Forall (fun l => sep ∉ l) (split sep s).
Proof.
  induction s as [|c s IH]; simpl.
  - repeat constructor. apply not_elem_of_nil.
  - destruct (N.eqb_spec c sep) as [-> | Hne].
    + constructor; [apply not_elem_of_nil | done].
    + assert (forall l : str, sep ∉ l -> sep ∉ c :: l) as Hc.
      { intros l Hl Hin. apply elem_of_cons in Hin as [-> | Hin]; [done | by apply Hl]. }
      destruct (split sep s) as [|l ls].
      * constructor; [apply Hc, not_elem_of_nil | constructor].
      * apply Forall_cons in IH as [Hl Hls]. constructor; [by apply Hc | done].
Qed.

Lemma lstrip_by_elem p (s : str) x : x ∈ lstrip_by p s -> x ∈ s.
Proof.
  induction s as [|c s IH]; simpl; [done |].
  destruct (p c); [| done]. intros H. right. by apply IH.
Qed.

Lemma rev_elem (s : str) x : x ∈ rev s <-> x ∈ s.
Proof. rewrite !list_elem_of_In. symmetry. apply in_rev. Qed.

Lemma strip_by_elem p (s : str) x : x ∈ strip_by p s -> x ∈ s.
Proof.
  unfold strip_by, rstrip_by. intros H.
  apply (proj1 (rev_elem _ _)), lstrip_by_elem in H.
  by apply (proj1 (rev_elem _ _)), lstrip_by_elem in H.
Qed.

Lemma clean_elem (line : str) x : x ∈ clean line -> x ∈ line.
Proof.
  unfold clean, strip, lstrip_hash. intros H.
  apply strip_by_elem in H. apply lstrip_by_elem in H. by apply strip_by_elem in H.
Qed.

(** The summary is empty or the cut of a cleaned line of the trimmed
    text. *)
Lemma summary_cases (text : str) :
  summary text = [] \/
  exists line, line ∈ split nl (strip text) /\ clean line <> []
               /\ summary text = take 120 (clean line).
Proof.
  unfold summary.
  destruct (first_line_spec (split nl (strip text)))
    as [(skipped & line & rest & Hl & _ & Hne & E) | [_ E]]; [| by left].
  right. exists line. split_and!; [| done | done]. rewrite Hl. set_solver.
Qed.

Lemma sanitized_no_nl topic t : _sanitize_topic topic = Ret t -> nl ∉ t.
Proof.
  intros H Hin. destruct (sanitize_ret_shape _ _ H) as [_ (_ & _ & Hc & _)].
  by pose proof (forallb_true_elem _ _ _ Hc Hin).
Qed.

Lemma ensure_dir_stat ctx w o w0 (r : Path) i :
  _ensure_dir ctx w = (o, w0) -> stat (fs w) r = Some i -> stat (fs w0) r = Some i.
Proof.
  intros Hed Hs. destruct r as [|c r']; [done |]. simpl in *.
  by eapply ensure_dir_keeps.
Qed.

(** ** A base directory that is already there *)

Lemma base_ready_realpath (ctx : ToolContext) (m : gmap Path inode) (k : Path) :
  base_ready ctx m k ->
  realpath m (drive_path ctx KNOWLEDGE_DIR) = Some k /\ stat m k = Some Dir.
Proof. intros (par & n & ploc & -> & _ & _ & _ & Hr & Hs). done. Qed.

Lemma ensure_dir_noop ctx w (k : Path) :
  base_ready ctx (fs w) k ->
  exists w' evs, _ensure_dir ctx w = (Ret tt, w') /\ fs w' = fs w /\ logged w w' evs
                 /\ Forall (fun ev => ~ is_write ev) evs.
Proof.
  intros (par & n & ploc & Hk & Hn & Hp & Hps & Hr & Hs).
  assert (is_Some (fs w !! (ploc ++ [n]))) as [i Hi].
  { destruct (realpath_snoc_inv _ _ _ _ Hn Hr) as (k' & Hk' & [-> | [t Ht]]).
    - rewrite Hp in Hk'. injection Hk' as <-. rewrite stat_snoc in Hs. by rewrite Hs.
    - rewrite Hp in Hk'. injection Hk' as <-. by rewrite Ht. }
  exists (emit (EvStat k) (emit (EvMkdir (ploc ++ [n])) w)), [EvMkdir (ploc ++ [n]); EvStat k].
  unfold _ensure_dir. rewrite Hk, (mkdir_parents_exists par n w ploc i Hp Hps Hi).
  rewrite (is_dir_at (par ++ [n]) (emit (EvMkdir (ploc ++ [n])) w) k Hr Hs).
  split_and!; [done | done | log_ok |].
  repeat constructor; intros (? & ? & ?); discriminate.
Qed.

(** A write over a base directory that is there changes the entry and the
    index only. *)
Lemma knowledge_write_frame ctx topic content mode w o w' (k : Path) t :
  base_ready ctx (fs w) k -> plain_entries (fs w) k ->
  _sanitize_topic topic = Ret t ->
  _knowledge_write ctx topic content mode w = (o, w') ->
  same_links (fs w) (fs w')
  /\ forall q, q <> k ++ [t ++ lit ".md"] -> q <> k ++ [INDEX_FILE] ->
               fs w' !! q = fs w !! q.
Proof.
  intros Hb Hpl Ht H.
  destruct (base_ready_realpath _ _ _ Hb) as [Hk Hd].
  pose proof (entry_realpath ctx topic t (fs w) k Ht Hk (Hpl _)) as Hr.
  assert (realpath (fs w) (truediv (drive_path ctx KNOWLEDGE_DIR) INDEX_FILE)
          = Some (k ++ [INDEX_FILE])) as Hi.
  { apply realpath_snoc; [exact Hk | apply index_file_not_dotdot | apply Hpl]. }
  unfold _knowledge_write, try_ValueError in H.
  destruct (_safe_path ctx topic w) as [os ws] eqn:Es.
  pose proof (safe_path_pure _ _ _ _ _ Es) as ->.
  destruct os as [p|e].
  2:{ assert (w' = w) as -> by (destruct e; by injection H).
      split; [apply same_links_refl | done]. }
  apply safe_path_ret in Es as (t' & r & k' & Ht' & -> & _).
  rewrite Ht in Ht'. injection Ht' as <-.
  destruct (negb (bool_decide (mode = lit "overwrite") || bool_decide (mode = lit "append"))).
  { injection H as _ <-. split; [apply same_links_refl | done]. }
  unfold bind in H.
  destruct (store_content ctx _ content mode w) as [o1 w1] eqn:Est.
  pose proof (store_content_same_links _ _ _ _ _ _ _ Est) as Hl1.
  assert (forall q, q <> k ++ [t ++ lit ".md"] -> fs w1 !! q = fs w !! q) as Hfr1.
  { intros q Hq.
    destruct (store_content_shape _ _ _ _ _ _ _ Est)
      as (o0 & w0 & Ed & Hcase).
    destruct (ensure_dir_noop ctx w k Hb) as (w0' & evs & Ed' & Hf0 & _).
    rewrite Ed' in Ed. injection Ed as <- <-.
    destruct Hcase as [Hf | (data & w2 & _ & Hf & Hw)]; [by rewrite Hf, Hf0 |].
    rewrite <- Hf0, <- Hf. apply (write_text_frame _ _ _ _ _ _ Hw).
    rewrite Hf, Hf0, Hr. congruence. }
  destruct o1 as [[]|e]; [| injection H as _ <-; split; [done | intros q Hq _; by apply Hfr1]].
  destruct (_update_index ctx w1) as [o2 w2] eqn:Eup.
  assert (w' = w2) as -> by (destruct o2; by injection H).
  split.
  - apply same_links_trans with (fs w1); [done |]. by eapply update_index_same_links.
  - intros q Hq1 Hq2. rewrite <- (Hfr1 q Hq1).
    apply (update_index_frame _ _ _ _ q Eup).
    rewrite <- (realpath_same_links _ _ _ Hl1), Hi. congruence.
Qed.

(** The result of read, by what stands at the entry. *)
Lemma knowledge_read_result ctx topic w p (r : Path) :
  (_safe_path ctx topic w).1 = Ret p -> realpath (fs w) p = Some r ->
  (_knowledge_read ctx topic w).1
  = match stat (fs w) r with
    | None | Some (Symlink _) => Ret (not_found_msg topic)
    | Some i => read_inode p i
    end.
Proof.
  intros Hp Hr.
  destruct (knowledge_read_cases ctx topic w)
    as [(e & He & E) | [(e & He & Hne & E) | (p' & Hp' & E)]]; [congruence | congruence |].
  rewrite Hp in Hp'. injection Hp' as <-.
  rewrite E. unfold bind. rewrite (exists_at _ _ _ Hr).
  destruct (stat (fs w) r) as [i|] eqn:Es; [destruct i as [|text|t] |]; simpl; try done.
  - unfold read_text. by rewrite fs_emit, Hr, Es.
  - unfold read_text. rewrite fs_emit, Hr, Es. by destruct text.
Qed.

Lemma knowledge_read_rejected ctx topic w e :
  (_safe_path ctx topic w).1 = Raise e ->
  (_knowledge_read ctx topic w).1
  = match e with
    | ValueError msg => Ret (invalid_topic_msg msg)
    | _ => Raise e
    end.
Proof.
  intros He. unfold _knowledge_read, try_ValueError.
  destruct (_safe_path ctx topic w) as [os ws]. simpl in He. subst os. by destruct e.
Qed.

Lemma safe_path_sanitized ctx topic w p :
  (_safe_path ctx topic w).1 = Ret p -> _sanitize_topic topic = Ret (strip topic).
Proof.
  intros Hp. destruct (_safe_path ctx topic w) as [os ws] eqn:Es. simpl in Hp. subst os.
  apply safe_path_ret in Es as (t & _ & _ & Ht & _).
  by rewrite <- (sanitize_ret_strip _ _ Ht).
Qed.

(** ** Text that can be encoded *)

Lemma encodable_spec (s : str) :
  encodable s = true <-> forall x, x ∈ s -> encodable_char x = true.
Proof.
  unfold encodable. rewrite forallb_forall. split; intros H x Hx; apply H.
  - by apply list_elem_of_In.
  - by apply list_elem_of_In.
Qed.

Lemma encodable_app (a b : str) :
  encodable a = true -> encodable b = true -> encodable (a ++ b) = true.
Proof. unfold encodable. intros Ha Hb. by rewrite forallb_app, Ha, Hb. Qed.

Lemma encodable_sub (s s' : str) :
  (forall x, x ∈ s' -> x ∈ s \/ x = nl) -> encodable s = true -> encodable s' = true.
Proof.
  rewrite !encodable_spec. intros Hsub Hs x Hx.
  destruct (Hsub x Hx) as [Hin | ->]; [by apply Hs | reflexivity].
Qed.

Lemma universal_newlines_elem (s : str) x : x ∈ universal_newlines s -> x ∈ s \/ x = nl.
Proof.
  revert x. induction s as [s IH] using (induction_ltof1 _ (@length N)). unfold ltof in IH.
  intros x. destruct s as [|c s]; [intros H; by apply elem_of_nil in H |].
  simpl. destruct (c =? cr).
  - destruct s as [|d s].
    + intros H. apply list_elem_of_singleton in H. by right.
    + destruct (d =? nl); intros H; apply elem_of_cons in H as [-> | H]; try by right.
      * destruct (IH s ltac:(simpl; lia) x H) as [? | ?]; [left | by right].
        by do 2 right.
      * destruct (IH (d :: s) ltac:(simpl; lia) x H) as [? | ?]; [left | by right].
        by right.
  - intros H. apply elem_of_cons in H as [-> | H]; [left; by left |].
    destruct (IH s ltac:(simpl; lia) x H) as [? | ?]; [left | by right]. by right.
Qed.

Lemma split_elem (sep : char) (s l : str) x : l ∈ split sep s -> x ∈ l -> x ∈ s.
Proof.
  revert l. induction s as [|c s IH]; intros l; simpl.
  - intros Hl Hx. apply list_elem_of_singleton in Hl. by subst.
  - destruct (c =? sep).
    + intros Hl Hx. apply elem_of_cons in Hl as [-> | Hl]; [by apply elem_of_nil in Hx |].
      right. by apply (IH l).
    + destruct (split sep s) as [|l0 ls] eqn:E.
      * intros Hl Hx. apply list_elem_of_singleton in Hl. subst.
        apply list_elem_of_singleton in Hx. subst. by left.
      * intros Hl Hx. apply elem_of_cons in Hl as [-> | Hl].
        -- apply elem_of_cons in Hx as [-> | Hx]; [by left |]. right. apply (IH l0); [by left | done].
        -- right. apply (IH l); [by right | done].
Qed.

Lemma summary_elem (text : str) x : x ∈ summary text -> x ∈ text.
Proof.
  destruct (summary_cases text) as [-> | (line & Hin & _ & ->)];
    [intros H; by apply elem_of_nil in H |].
  intros Hx. apply elem_of_take in Hx as (i & Hx & _). apply list_elem_of_lookup_2 in Hx.
  apply clean_elem in Hx. apply (split_elem _ _ _ _ Hin) in Hx.
  by apply strip_by_elem in Hx.
Qed.

Lemma stem_elem (f : Path) x : x ∈ stem f -> x ∈ name f.
Proof.
  unfold stem. cbv zeta. destruct (endswith (lit ".md") (name f) && _); [| done].
  intros Hx. apply elem_of_take in Hx as (i & Hx & _). by apply list_elem_of_lookup_2 in Hx.
Qed.

Lemma entry_line_encodable (topic s : str) :
  encodable topic = true -> encodable s = true -> encodable (entry_line topic s) = true.
Proof.
  intros Ht Hs. unfold entry_line. repeat apply encodable_app; done.
Qed.

Lemma index_body_encodable (lines : list str) :
  Forall (fun l => encodable l = true) lines -> encodable (index_body lines) = true.
Proof.
  intros H. unfold index_body. destruct lines as [|l ls]; [reflexivity |].
  induction H as [|x xs Hx _ IH]; [reflexivity |].
  rewrite fmap_cons. simpl concat. repeat apply encodable_app; done.
Qed.

Lemma sanitized_encodable topic t : _sanitize_topic topic = Ret t -> encodable t = true.
Proof.
  intros H. destruct (sanitize_ret_shape _ _ H) as [_ (_ & _ & Hc & _)].
  apply encodable_spec. intros x Hx. pose proof (forallb_true_elem _ _ _ Hc Hx) as Htc.
  unfold topic_char, alnum in Htc. unfold encodable_char.
  rewrite !orb_true_iff, !andb_true_iff, !N.leb_le, !N.eqb_eq in Htc.
  apply orb_true_iff. left. apply N.ltb_lt. lia.
Qed.

(** ** Writes that succeed *)

Lemma write_text_ok p data w (d : Path) (n : str) :
  realpath (fs w) p = Some (d ++ [n]) -> stat (fs w) d = Some Dir ->
  writable (fs w !! (d ++ [n])) -> encodable data = true ->
  write_text p data w
  = (Ret tt, set_inode (d ++ [n]) (File (Some data)) (emit (EvWrite (d ++ [n]) data) w)).
Proof.
  intros Hr Hd Hw Henc. unfold write_text. rewrite Hr, stat_snoc. cbv zeta. rewrite Henc.
  destruct Hw as [-> | [x ->]]; [| done]. by rewrite parent_snoc, Hd.
Qed.

(** The content step succeeds over a base directory that is there, on an
    entry that is absent or holds text, with content that can be
    encoded. *)
Lemma store_content_ok ctx topic t content mode w (k : Path) :
  let kdir := drive_path ctx KNOWLEDGE_DIR in
  let eloc := k ++ [t ++ lit ".md"] in
  _sanitize_topic topic = Ret t ->
  base_ready ctx (fs w) k -> plain_entries (fs w) k ->
  text_or_nothing (fs w !! eloc) ->
  (forall old, fs w !! eloc = Some (File (Some old)) -> encodable old = true) ->
  encodable content = true ->
  exists w1 data,
    store_content ctx (truediv kdir (t ++ lit ".md")) content mode w = (Ret tt, w1)
    /\ fs w1 = <[eloc := File (Some data)]> (fs w)
    /\ encodable data = true.
Proof.
  intros kdir eloc Ht Hb Hpl Hent Hold Henc.
  destruct (base_ready_realpath _ _ _ Hb) as [Hk Hd].
  destruct (ensure_dir_noop ctx w k Hb) as (w0 & evs & Hed & Hf0 & _).
  pose proof (entry_realpath ctx topic t (fs w) k Ht Hk (Hpl _)) as Hr. fold kdir eloc in Hr.
  assert (forall data w2, fs w2 = fs w -> encodable data = true ->
            write_text (truediv kdir (t ++ lit ".md")) data w2
            = (Ret tt, set_inode eloc (File (Some data)) (emit (EvWrite eloc data) w2))) as Hw.
  { intros data w2 Hf2 Hdata. apply write_text_ok; rewrite ?Hf2; try done.
    destruct Hent as [Hn | [text Hs]]; [left; exact Hn | right; exists (Some text); exact Hs]. }
  assert (stat (fs w) eloc = fs w !! eloc) as Hst by (unfold eloc; apply stat_snoc).
  unfold store_content, bind. rewrite Hed.
  destruct (decide (mode = lit "append")) as [-> | Hm].
  - rewrite bool_decide_eq_true_2 by done.
    rewrite (exists_at _ w0 eloc) by (rewrite Hf0; exact Hr).
    rewrite Hf0, Hst.
    destruct Hent as [Hnone | [old Hsome]].
    + rewrite Hnone. rewrite (Hw content (emit (EvStat eloc) w0) Hf0 Henc).
      eexists _, content. split_and!; [done | | done]. unfold set_inode. simpl. by rewrite Hf0.
    + rewrite Hsome.
      rewrite (read_text_at _ (emit (EvStat eloc) w0) eloc old);
        [| rewrite fs_emit, Hf0; exact Hr
         | rewrite fs_emit, Hf0, Hst; exact Hsome].
      rewrite append_result_eq.
      assert (encodable (append_result (universal_newlines old) content) = true) as Hdata.
      { unfold append_result. repeat apply encodable_app; [| by destruct (_ && _) | done].
        apply (encodable_sub old); [apply universal_newlines_elem | by apply Hold]. }
      rewrite (Hw _ (emit (EvRead eloc) (emit (EvStat eloc) w0)) Hf0 Hdata).
      eexists _, _. split_and!; [done | | exact Hdata]. unfold set_inode. simpl. by rewrite Hf0.
  - rewrite bool_decide_eq_false_2 by done. unfold ret.
    rewrite (Hw content _ Hf0 Henc).
    eexists _, content. split_and!; [done | | done]. unfold set_inode. simpl. by rewrite Hf0.
Qed.

(** The line of an entry can be encoded when its name and its text can. *)
Lemma entry_of_encodable (ctx : ToolContext) (m : gmap Path inode) (k : Path) (n : str) :
  let kdir := drive_path ctx KNOWLEDGE_DIR in
  realpath m kdir = Some k -> plain_entries m k -> encodable_dir m k ->
  is_Some (m !! (k ++ [n])) -> endswith (lit ".md") n = true ->
  encodable (entry_of m (truediv kdir n)) = true.
Proof.
  intros kdir Hk Hpl Henc [i Hi] Hmd.
  destruct (Henc n i Hi) as [Hn Htext].
  unfold entry_of. apply entry_line_encodable.
  - apply (encodable_sub n); [| done]. intros x Hx. left.
    apply stem_elem in Hx. unfold truediv in Hx. by rewrite name_snoc in Hx.
  - assert (realpath m (truediv kdir n) = Some (k ++ [n])) as Hr.
    { apply realpath_snoc; [exact Hk | by apply md_not_dotdot | apply Hpl]. }
    unfold read_result. rewrite Hr, stat_snoc, Hi.
    destruct i as [|[text|]|tg]; try reflexivity.
    apply (encodable_sub text); [| by apply Htext].
    intros x Hx. apply summary_elem in Hx. by apply universal_newlines_elem.
Qed.

(** The rebuild succeeds over a base directory that is there, when the
    names and texts of its entries can be encoded and the index is absent
    or a regular file. *)
Lemma update_index_ok ctx w (k : Path) :
  let kdir := drive_path ctx KNOWLEDGE_DIR in
  realpath (fs w) kdir = Some k -> stat (fs w) k = Some Dir ->
  plain_entries (fs w) k -> encodable_dir (fs w) k ->
  writable (fs w !! (k ++ [INDEX_FILE])) ->
  exists w' text,
    _update_index ctx w = (Ret tt, w')
    /\ fs w' = <[k ++ [INDEX_FILE] := File (Some text)]> (fs w).
Proof.
  intros kdir Hk Hd Hpl Henc Hidx.
  destruct (update_index_as_write ctx w k Hk Hd)
    as (names & w1 & Hn & _ & _ & Hf & _ & E).
  fold kdir in E.
  set (text := index_header
               ++ index_body ((fun n => entry_of (fs w) (truediv kdir n)) <$> names)) in *.
  assert (encodable text = true) as Ht.
  { apply encodable_app; [reflexivity |]. apply index_body_encodable.
    apply Forall_fmap, Forall_forall. intros n Hin. apply Hn in Hin as (Hsome & Hmd & _).
    by apply (entry_of_encodable ctx (fs w) k n). }
  eexists _, text. split.
  - rewrite E. apply write_text_ok; rewrite ?Hf; try done.
    apply realpath_snoc; [exact Hk | apply index_file_not_dotdot | apply Hpl].
  - unfold set_inode. simpl. by rewrite Hf.
Qed.

Lemma encodable_store_dir (m : gmap Path inode) (k : Path) :
  encodable_store m -> encodable_dir m k.
Proof.
  intros Hm n i Hi. apply Hm in Hi. unfold encodable_inode in Hi.
  apply andb_true_iff in Hi as [Hn Ht]. rewrite name_snoc in Hn.
  split; [done |]. by intros text ->.
Qed.

(** ** Writing the same again *)

Lemma write_text_ret p data w w' :
  write_text p data w = (Ret tt, w') ->
  exists loc, realpath (fs w) p = Some loc /\ loc <> [] /\ writable (fs w !! loc)
              /\ encodable data = true /\ fs w' = <[loc := File (Some data)]> (fs w).
Proof.
  unfold write_text. destruct (realpath (fs w) p) as [loc|]; [| done]. cbv zeta.
  intros H. exists loc. split; [done |].
  destruct loc as [|c loc']; [simpl in H; done |].
  change (stat (fs w) (c :: loc')) with (fs w !! (c :: loc')) in H.
  destruct (fs w !! (c :: loc')) as [i|] eqn:El.
  - destruct i as [|x|t]; try done.
    destruct (encodable data); [| done]. injection H as <-.
    split_and!; [done | right; by exists x | done | done].
  - destruct (stat (fs w) (parent (c :: loc'))) as [i|]; [| done].
    destruct i; try done. destruct (encodable data); [| done]. injection H as <-.
    split_and!; [done | by left | done | done].
Qed.

Lemma dir_not_writable (m : gmap Path inode) (d loc : Path) :
  stat m d = Some Dir -> loc <> [] -> writable (m !! loc) -> d <> loc.
Proof.
  intros Hd Hne Hw ->. destruct loc as [|c loc']; [done |]. simpl in Hd.
  destruct Hw as [Hw | [x Hw]]; congruence.
Qed.

Lemma stat_insert_ne (m : gmap Path inode) (loc d : Path) i :
  d <> loc -> stat (<[loc := i]> m) d = stat m d.
Proof. intros Hne. destruct d as [|c d']; [done |]. simpl. by apply lookup_insert_ne. Qed.

(** A rebuild that returned over a directory: the index was absent or a
    regular file before, and holds the text after. *)
Lemma update_index_ret ctx w w' (k : Path) :
  let kdir := drive_path ctx KNOWLEDGE_DIR in
  realpath (fs w) kdir = Some k -> stat (fs w) k = Some Dir ->
  (forall t, fs w !! (k ++ [INDEX_FILE]) <> Some (Symlink t)) ->
  _update_index ctx w = (Ret tt, w') ->
  writable (fs w !! (k ++ [INDEX_FILE]))
  /\ exists text, fs w' = <[k ++ [INDEX_FILE] := File (Some text)]> (fs w).
Proof.
  intros kdir Hk Hd Hpl H.
  destruct (update_index_as_write ctx w k Hk Hd)
    as (names & w1 & _ & _ & _ & Hf & _ & E).
  fold kdir in E. rewrite E in H.
  apply write_text_ret in H as (loc & Hloc & _ & Hw & _ & Hf').
  assert (realpath (fs w1) (truediv kdir INDEX_FILE) = Some (k ++ [INDEX_FILE])) as Hi.
  { rewrite Hf. apply realpath_snoc; [exact Hk | apply index_file_not_dotdot | done]. }
  rewrite Hi in Hloc. injection Hloc as <-. rewrite Hf in Hw, Hf'.
  split; [done | by eexists].
Qed.

(** * The claims *)

(** ** The path resolver *)

(** C1, as the code has it. On a drive whose paths are well formed (no
    separator inside a component of the base directory or of a link
    target), a topic whose candidate file resolves neither to the base
    directory nor below it is rejected with the path-escape error once the
    two paths are resolved and before any other call on the file system
    ([exists], [read_text], [write_text], [mkdir], [glob]): [_safe_path]
    raises, read and write return the invalid-topic message, nothing is
    read, created or written and the file system is as before. For every
    topic that passes the sanitizer, read only touches the file the
    candidate resolves to, which then lies within the base directory, and
    so does the content step of write once the directory is ensured. The
    location checked is the one the operating system reaches when it opens
    the candidate, and it does not depend on the bound on links followed.
    The rebuild of the index that write runs after the content step is not
    covered: it reads what every entry of the directory resolves to and
    writes where the index path resolves to. *)
Theorem path_escape_rejected :
  forall ctx topic t w r k,
    let kdir := drive_path ctx KNOWLEDGE_DIR in
    _sanitize_topic topic = Ret t ->
    slash_free kdir -> links_slash_free (fs w) ->
    realpath (fs w) (truediv kdir (t ++ lit ".md")) = Some r ->
    realpath (fs w) kdir = Some k ->
    (~ within k r ->
       _safe_path ctx topic w = (Raise (ValueError (lit "Path escape detected: " ++ t)), w)
       /\ _knowledge_read ctx topic w
          = (Ret (invalid_topic_msg (lit "Path escape detected: " ++ t)), w)
       /\ forall content mode,
            _knowledge_write ctx topic content mode w
            = (Ret (invalid_topic_msg (lit "Path escape detected: " ++ t)), w))
    /\ (forall p, (_safe_path ctx topic w).1 = Ret p ->
          p = truediv kdir (t ++ lit ".md") /\ within k r)
    /\ (exists evs, logged w (_knowledge_read ctx topic w).2 evs
          /\ Forall (fun ev => (ev = EvStat r \/ ev = EvRead r) /\ within k r) evs)
    /\ (forall p content mode o w',
          (_safe_path ctx topic w).1 = Ret p ->
          store_content ctx p content mode w = (o, w') ->
          exists o0 w0 evs,
            _ensure_dir ctx w = (o0, w0) /\ logged w0 w' evs
            /\ Forall (fun ev => (ev = EvStat r \/ ev = EvRead r \/ exists d, ev = EvWrite r d)
                                 /\ within k r) evs)
    /\ (forall loc, namei (fs w) (truediv kdir (t ++ lit ".md")) = Some loc -> loc = r)
    /\ (forall bound r',
          realpath_from bound (fs w) [] (truediv kdir (t ++ lit ".md")) = Some r' -> r' = r)
    /\ (forall bound k', realpath_from bound (fs w) [] kdir = Some k' -> k' = k).
Proof.
  intros ctx topic t w r k kdir Ht Hkd Hlinks Hr Hk.
  assert (slash_free k) as Hsk by (by eapply realpath_slash_free).
  assert (slash_free r) as Hsr.
  { eapply realpath_slash_free; [exact Hlinks | | exact Hr].
    apply Forall_app. split; [done |]. constructor; [| constructor].
    by eapply sanitized_name_slash_free. }
  assert (forall p, (_safe_path ctx topic w).1 = Ret p ->
                    p = truediv kdir (t ++ lit ".md") /\ within k r) as Hacc.
  { intros p Hp. destruct (_safe_path ctx topic w) as [o w1] eqn:Es. simpl in Hp. subst o.
    apply safe_path_ret in Es as (t' & r' & k' & Ht' & -> & Hr' & Hk' & Hc).
    fold kdir in Hr', Hk'. rewrite Ht in Ht'. injection Ht' as <-.
    rewrite Hr in Hr'. injection Hr' as <-. rewrite Hk in Hk'. injection Hk' as <-.
    split; [done |]. destruct Hc as [Hc | ->]; [by apply startswith_within | done]. }
  assert (~ within k r ->
          _safe_path ctx topic w
          = (Raise (ValueError (lit "Path escape detected: " ++ t)), w)) as Hrej.
  { intros Hout. unfold _safe_path, bind, lift, resolve, raise, ret. cbv zeta. fold kdir.
    rewrite Ht, Hr, Hk.
    destruct (startswith (str_of_path k ++ lit "/") (str_of_path r)) eqn:Es.
    { exfalso. by apply Hout, startswith_within. }
    rewrite bool_decide_eq_false_2; [done |]. intros ->. by apply Hout. }
  split_and!.
  - intros Hout. specialize (Hrej Hout). split_and!; [done | |].
    + unfold _knowledge_read, try_ValueError. by rewrite Hrej.
    + intros content mode. unfold _knowledge_write, try_ValueError. by rewrite Hrej.
  - done.
  - destruct (knowledge_read_cases ctx topic w)
      as [(e & He & E) | [(e & He & Hne & E) | (p & Hp & E)]]; rewrite E; simpl.
    + exists []. split; [unfold logged; by rewrite app_nil_r | constructor].
    + exists []. split; [unfold logged; by rewrite app_nil_r | constructor].
    + destruct (Hacc p Hp) as [-> Hin]. unfold bind, exists_. rewrite Hr.
      destruct (match stat (fs w) r with Some Dir | Some (File _) => true | _ => false end);
        simpl.
      * unfold read_text. rewrite fs_emit, Hr.
        exists [EvStat r; EvRead r]. split.
        -- unfold logged. repeat case_match; simpl; by rewrite <- app_assoc.
        -- each_event.
      * exists [EvStat r]. split; [done | each_event].
  - intros p content mode o w' Hp Hst. destruct (Hacc p Hp) as [-> Hin].
    destruct (store_content_events _ _ _ _ _ _ _ r Hst Hr) as (o0 & w0 & evs & Hd & Hl & He).
    exists o0, w0, evs. split_and!; [done | done |].
    eapply Forall_impl; [exact He |]. intros ev Hev. by split.
  - intros loc Hn. apply namei_realpath in Hn. rewrite Hr in Hn. by injection Hn.
  - intros bound r' Hb. exact (realpath_any_bound bound _ _ r r' Hr Hb).
  - intros bound k' Hb. exact (realpath_any_bound bound _ _ k k' Hk Hb).
Qed.

Lemma path_escape_rejected_witness :
  _knowledge_read drive_ctx (lit "evil") (World planted_store [])
  = (Ret (invalid_topic_msg (lit "Path escape detected: evil")), World planted_store []).
Proof.
  refine (proj1 (proj2 (proj1
    (path_escape_rejected drive_ctx (lit "evil") (lit "evil") (World planted_store [])
       [lit "etc"; lit "passwd"] kb_dir _ _ _ _ _) _))).
  - by_eval.
  - decide_eval.
  - intros loc target. simpl. unfold planted_store, empty_store.
    rewrite !lookup_insert, lookup_empty. repeat case_decide; intros [= <-]. decide_eval.
  - by_eval.
  - by_eval.
  - decide_eval.
Defined.

(** C1 as stated fails for write: with the accepted topic "ok", over a
    base directory that holds a link "evil.md" to /etc/passwd and a link
    "_index.md" to /etc/motd, write acknowledges after its rebuild has read
    /etc/passwd and written its first line into /etc/motd, both outside
    the base directory. *)
Lemma path_escape_counterexample :
  let passwd := [lit "etc"; lit "passwd"] in
  let motd := [lit "etc"; lit "motd"] in
  let index := index_header ++ lit "- **evil**: root:x:0:0" ++ [nl] ++ lit "- **ok**: x" ++ [nl] in
  let wr := _knowledge_write drive_ctx (lit "ok") (lit "x") (lit "overwrite")
              (World leaky_store []) in
  _sanitize_topic (lit "ok") = Ret (lit "ok")
  /\ wr.1 = Ret (saved_msg (lit "ok") (lit "overwrite"))
  /\ log wr.2
     = [EvMkdir kb_dir; EvStat kb_dir; EvWrite (kb_dir ++ [lit "ok.md"]) (lit "x");
        EvStat kb_dir; EvGlob kb_dir; EvRead passwd; EvRead (kb_dir ++ [lit "ok.md"]);
        EvWrite motd index]
  /\ leaky_store !! motd = None
  /\ fs wr.2 !! motd = Some (File (Some index))
  /\ ~ within kb_dir passwd /\ ~ within kb_dir motd.
Proof.
  cbv zeta. split_and!; [by_eval | by_eval | by_eval | by_eval | by_eval | |]; decide_eval.
Qed.

(** ** A rebuild that fails after the content was written *)

(** C2, as the code has it. On a valid topic with a valid mode, when the
    content step succeeds and the rebuild that follows raises, write raises
    the same exception: the operation fails as a whole, with no
    acknowledgement, in the same form as a failure of the content step,
    whose exception write raises as well. The only result write returns is
    the acknowledgement, after both steps have returned. After a failed
    rebuild the entry file still holds what the content step stored (the
    content, in overwrite mode), unless it is the index file under another
    name. *)
Theorem rebuild_failure_propagates :
  forall ctx topic content mode w p,
    (_safe_path ctx topic w).1 = Ret p ->
    mode = lit "overwrite" \/ mode = lit "append" ->
    (forall w1 e w2,
        store_content ctx p content mode w = (Ret tt, w1) ->
        _update_index ctx w1 = (Raise e, w2) ->
        _knowledge_write ctx topic content mode w = (Raise e, w2)
        /\ forall r, realpath (fs w) p = Some r ->
                     realpath (fs w) (truediv (drive_path ctx KNOWLEDGE_DIR) INDEX_FILE)
                     <> Some r ->
                     exists data, fs w2 !! r = Some (File (Some data))
                                  /\ (mode = lit "overwrite" -> data = content))
    /\ (forall e w1,
          store_content ctx p content mode w = (Raise e, w1) ->
          _knowledge_write ctx topic content mode w = (Raise e, w1))
    /\ (forall msg w',
          _knowledge_write ctx topic content mode w = (Ret msg, w') ->
          msg = saved_msg topic mode
          /\ exists w1, store_content ctx p content mode w = (Ret tt, w1)
                        /\ _update_index ctx w1 = (Ret tt, w')).
Proof.
  intros ctx topic content mode w p Hp Hm. split_and!.
  - intros w1 e w2 Hst Hup. split.
    + rewrite (knowledge_write_valid _ _ _ _ _ _ Hp Hm). unfold bind. by rewrite Hst, Hup.
    + intros r Hr Hidx.
      assert (exists data, fs w1 !! r = Some (File (Some data)) /\ same_links (fs w) (fs w1)
                           /\ (mode = lit "overwrite" -> data = content))
        as (data & Hf & Hl & Hd).
      { destruct Hm as [-> | ->].
        - apply store_content_overwrite_ok with (r := r) in Hst as (w0 & _ & Hf & _ & _ & Hl);
            [| done | done].
          exists content. split_and!; [| done | done]. rewrite Hf. apply lookup_insert_eq.
        - apply store_content_append with (r := r) in Hst
            as (w0 & data & before & _ & Hf & _ & Hl & _); [| done].
          exists data. split_and!; [| done | done]. rewrite Hf. apply lookup_insert_eq. }
      exists data. split; [| done].
      rewrite (update_index_frame _ _ _ _ r Hup); [done |].
      by rewrite <- (realpath_same_links _ _ _ Hl).
  - intros e w1 Hst.
    rewrite (knowledge_write_valid _ _ _ _ _ _ Hp Hm). unfold bind. by rewrite Hst.
  - intros msg w' H.
    rewrite (knowledge_write_valid _ _ _ _ _ _ Hp Hm) in H. unfold bind in H.
    destruct (store_content ctx p content mode w) as [[[]|e1] w1] eqn:Hst; [| discriminate H].
    destruct (_update_index ctx w1) as [[[]|e2] w2] eqn:Hup; [| discriminate H].
    unfold ret in H. injection H as <- <-. split; [reflexivity |].
    exists w1. split; [reflexivity | exact Hup].
Qed.

Lemma rebuild_failure_propagates_witness :
  let w := World broken_index_store [] in
  let entry := kb_dir ++ [lit "notes.md"] in
  _knowledge_write drive_ctx (lit "notes") (lit "x") (lit "overwrite") w
  = (Raise (IsADirectoryError (kb_dir ++ [INDEX_FILE])),
     (_update_index drive_ctx (store_content drive_ctx entry (lit "x") (lit "overwrite") w).2).2).
Proof.
  intros w entry.
  refine (proj1 (proj1
    (rebuild_failure_propagates drive_ctx (lit "notes") (lit "x") (lit "overwrite") w entry _ _)
    (store_content drive_ctx entry (lit "x") (lit "overwrite") w).2 _ _ _ _)).
  - by_eval.
  - by left.
  - by_eval.
  - by_eval.
Defined.

(** C2 as stated fails: with the index path taken by a directory the
    content is written and the caller gets an exception, of the same kind
    as when the entry itself cannot be written. *)
Lemma rebuild_failure_counterexample :
  let wr := _knowledge_write drive_ctx (lit "notes") (lit "x") (lit "overwrite")
              (World broken_index_store []) in
  let wr' := _knowledge_write drive_ctx (lit "notes") (lit "x") (lit "overwrite")
               (World broken_entry_store []) in
  wr.1 = Raise (IsADirectoryError (kb_dir ++ [INDEX_FILE]))
  /\ fs wr.2 !! (kb_dir ++ [lit "notes.md"]) = Some (File (Some (lit "x")))
  /\ (forall msg, wr.1 <> Ret msg)
  /\ wr'.1 = Raise (IsADirectoryError (kb_dir ++ [lit "notes.md"])).
Proof. vm_compute. split_and!; [reflexivity | reflexivity | discriminate | reflexivity]. Qed.

(** ** Overwrite, then read *)

(** C3, as the code has it. When write in overwrite mode acknowledges,
    the entry file holds exactly the content, whatever it held before, and
    a read of the same topic returns the content as text mode reads it:
    with every "\r\n" and "\r" turned into "\n", hence the content itself
    when it has no carriage return. The entry must not be the index file
    under another name. *)
Theorem overwrite_then_read :
  forall ctx topic content w,
    let kdir := drive_path ctx KNOWLEDGE_DIR in
    let entry := truediv kdir (strip topic ++ lit ".md") in
    let after := (_knowledge_write ctx topic content (lit "overwrite") w).2 in
    (_knowledge_write ctx topic content (lit "overwrite") w).1
      = Ret (saved_msg topic (lit "overwrite")) ->
    realpath (fs w) (truediv kdir INDEX_FILE) <> realpath (fs w) entry ->
    (_knowledge_read ctx topic after).1 = Ret (universal_newlines content)
    /\ (cr ∉ content -> (_knowledge_read ctx topic after).1 = Ret content)
    /\ exists r, realpath (fs w) entry = Some r
                 /\ fs after !! r = Some (File (Some content)).
Proof.
  intros ctx topic content w kdir entry after Hack Hidx.
  destruct (knowledge_write_saved _ _ _ _ _ Hack) as (p & _ & _ & Hp & _).
  destruct (safe_path_entry _ _ _ _ Hp) as [Hpe [r Hr]]. fold kdir entry in Hpe. subst p.
  rewrite Hr in Hidx.
  destruct (overwrite_stores ctx topic content w entry r Hack Hp Hr Hidx) as (Hl & Hne & Hf).
  fold after in Hl, Hf. clearbody after. clear Hack Hidx.
  assert ((_knowledge_read ctx topic after).1 = Ret (universal_newlines content)) as Hrd.
  { apply knowledge_read_text with (p := entry) (r := r).
    - rewrite (safe_path_same_links _ _ w after Hl). exact Hp.
    - rewrite <- (realpath_same_links _ _ _ Hl). exact Hr.
    - exact Hne.
    - exact Hf. }
  split_and!; [exact Hrd | | exists r; by split].
  intros Hcr. rewrite Hrd. f_equal. by apply universal_newlines_id.
Qed.

Lemma overwrite_then_read_witness :
  (_knowledge_read drive_ctx (lit "notes")
     (_knowledge_write drive_ctx (lit "notes") (lit "# Title") (lit "overwrite") fresh_world).2).1
  = Ret (lit "# Title").
Proof.
  apply (overwrite_then_read drive_ctx (lit "notes") (lit "# Title") fresh_world).
  - by_eval.
  - by_eval.
  - decide_eval.
Defined.

(** C3 as stated fails on a carriage return: the text written is not the
    text read back. *)
Lemma overwrite_then_read_counterexample :
  let content := [97; cr; 98] in
  let wr := _knowledge_write drive_ctx (lit "notes") content (lit "overwrite") fresh_world in
  wr.1 = Ret (saved_msg (lit "notes") (lit "overwrite"))
  /\ (_knowledge_read drive_ctx (lit "notes") wr.2).1 = Ret [97; nl; 98]
  /\ (_knowledge_read drive_ctx (lit "notes") wr.2).1 <> Ret content.
Proof. vm_compute. split_and!; [reflexivity | reflexivity | discriminate]. Qed.

(** ** Append *)

(** C4, as the code has it. When write in append mode acknowledges, the
    one write it makes to the entry stores: if the entry held text, that
    text as text mode reads it (every "\r\n" and "\r" as "\n", hence the
    text itself when it has no carriage return) followed by the new
    content, with one newline in between exactly when the text read is not
    empty and does not end with a newline; if there was no entry, the new
    content alone, as overwrite stores it. The entry still holds that text
    when the call returns, unless the entry is the index file under
    another name. So "a" then "b" gives "a\nb", and a text that ends with
    a newline gets no blank line. *)
Theorem append_stores :
  forall ctx topic content w,
    let kdir := drive_path ctx KNOWLEDGE_DIR in
    let entry := truediv kdir (strip topic ++ lit ".md") in
    let after := (_knowledge_write ctx topic content (lit "append") w).2 in
    (_knowledge_write ctx topic content (lit "append") w).1
      = Ret (saved_msg topic (lit "append")) ->
    exists r data,
      realpath (fs w) entry = Some r
      /\ first_write w after r data
      /\ (realpath (fs w) (truediv kdir INDEX_FILE) <> Some r ->
          fs after !! r = Some (File (Some data)))
      /\ (forall old, stat (fs w) r = Some (File (Some old)) ->
                      data = append_result (universal_newlines old) content)
      /\ (forall old, stat (fs w) r = Some (File (Some old)) -> cr ∉ old ->
                      data = append_result old content)
      /\ ((exists_ entry w).1 = Ret false -> data = content)
      /\ append_result (lit "a") (lit "b") = lit "a" ++ [nl] ++ lit "b"
      /\ append_result (lit "a" ++ [nl]) (lit "b") = lit "a" ++ [nl] ++ lit "b"
      /\ append_result [] (lit "b") = lit "b".
Proof.
  intros ctx topic content w kdir entry after Hack. subst after.
  apply knowledge_write_saved in Hack as (p & w1 & w2 & Hp & _ & Hst & Hup & ->). simpl.
  destruct (safe_path_entry _ _ _ _ Hp) as [Hpe [r Hr]]. fold kdir entry in Hpe. subst p.
  destruct (store_content_append _ _ _ _ _ _ Hst Hr)
    as (w0 & data & before & Hd & Hf1 & Hne & Hl1 & Hlog1 & Hbefore & Hold & Hnew).
  destruct (ensure_dir_log _ _ _ _ Hd) as (evs0 & Hl0 & He0).
  destruct (update_index_logged _ _ _ _ Hup) as (evs2 & Hl2).
  exists r, data. split_and!; try done.
  - exists (evs0 ++ before), evs2. split; [| by apply Forall_app].
    unfold logged in *. rewrite Hl2, Hlog1, Hl0. by rewrite <- !app_assoc.
  - intros Hidx. rewrite (update_index_frame _ _ _ _ r Hup).
    + rewrite Hf1. apply lookup_insert_eq.
    + fold kdir. by rewrite <- (realpath_same_links _ _ _ Hl1).
  - intros old Ho Hcr. rewrite <- (universal_newlines_id old Hcr). by apply Hold.
Qed.

Lemma append_stores_witness :
  let w1 := (_knowledge_write drive_ctx (lit "notes") (lit "a") (lit "overwrite") fresh_world).2 in
  let after := (_knowledge_write drive_ctx (lit "notes") (lit "b") (lit "append") w1).2 in
  fs after !! (kb_dir ++ [lit "notes.md"]) = Some (File (Some (lit "a" ++ [nl] ++ lit "b"))).
Proof.
  intros w1 after.
  destruct (append_stores drive_ctx (lit "notes") (lit "b") w1)
    as (r & data & Hr & _ & Hf & Hold & _); [by_eval |].
  assert (r = kb_dir ++ [lit "notes.md"]) as ->.
  { assert (realpath (fs w1) (truediv (drive_path drive_ctx KNOWLEDGE_DIR)
                                (strip (lit "notes") ++ lit ".md"))
            = Some (kb_dir ++ [lit "notes.md"])) as E by by_eval.
    rewrite E in Hr. by injection Hr. }
  rewrite (Hold (lit "a")) in Hf by by_eval.
  apply Hf. by_eval.
Defined.

(** C4 as stated fails on a carriage return: appending "b" to an entry
    that holds "a\r" stores "a\nb", not the existing content followed by
    a newline and "b". *)
Lemma append_stores_counterexample :
  let old := [97; cr] in
  let w1 := (_knowledge_write drive_ctx (lit "notes") old (lit "overwrite") fresh_world).2 in
  let wr := _knowledge_write drive_ctx (lit "notes") (lit "b") (lit "append") w1 in
  fs w1 !! (kb_dir ++ [lit "notes.md"]) = Some (File (Some old))
  /\ wr.1 = Ret (saved_msg (lit "notes") (lit "append"))
  /\ fs wr.2 !! (kb_dir ++ [lit "notes.md"]) = Some (File (Some [97; nl; 98]))
  /\ append_result old (lit "b") = [97; cr; nl; 98]
  /\ fs wr.2 !! (kb_dir ++ [lit "notes.md"]) <> Some (File (Some (append_result old (lit "b")))).
Proof. vm_compute. split_and!; [reflexivity | reflexivity | reflexivity | reflexivity | discriminate]. Qed.

(** ** The sanitizer *)

(** C5. The sanitizer rejects an input exactly when its trimmed form is
    empty, longer than 100 characters, has a character outside letters,
    digits, underscore, hyphen and dot, contains a slash, a backslash or
    "..", does not start or end with a letter or digit, or is, up to
    letter case, one of _index, con, prn, aux, nul; every other input is
    accepted and comes back trimmed, as are browser-automation, a and
    joi_gotchas. The device names are refused as reserved in every letter
    case, the index name in every letter case (by its leading underscore),
    and a name that only contains a reserved word is accepted. *)
Theorem sanitize_topic_rejects_exactly :
  forall raw : str,
    ((exists e, _sanitize_topic raw = Raise e) <-> spec_rejected raw)
    /\ (_sanitize_topic raw = Ret (strip raw) <-> ~ spec_rejected raw)
    /\ _sanitize_topic (lit "browser-automation") = Ret (lit "browser-automation")
    /\ _sanitize_topic (lit "a") = Ret (lit "a")
    /\ _sanitize_topic (lit "joi_gotchas") = Ret (lit "joi_gotchas")
    /\ Forall (fun t => _sanitize_topic t
                        = Raise (ValueError (lit "Reserved topic name: " ++ strip t)))
         [lit "con"; lit "prn"; lit "aux"; lit "nul";
          lit "CON"; lit "Prn"; lit "aUx"; lit "nuL"; lit " Con "]
    /\ Forall (fun t => exists e, _sanitize_topic t = Raise e)
         [lit "_index"; lit "_INDEX"; lit "_Index"]
    /\ Forall (fun t => _sanitize_topic t = Ret t) [lit "console"; lit "index"; lit "nul.l"].
Proof.
  intros raw. split_and!.
  - rewrite sanitize_raises. apply code_rejected_spec.
  - rewrite sanitize_returns, code_rejected_spec. done.
  - reflexivity.
  - reflexivity.
  - reflexivity.
  - repeat (apply Forall_cons; split; [by vm_compute |]). apply Forall_nil_2.
  - repeat (apply Forall_cons; split; [eexists; by vm_compute |]). apply Forall_nil_2.
  - repeat (apply Forall_cons; split; [by vm_compute |]). apply Forall_nil_2.
Qed.

(** ** The text of the index *)

(** C6, as the code has it. Over an existing base directory the rebuild
    writes one file: the fixed header, then one line per entry file (every
    *.md of the directory but the index itself) in the order of the file
    names, or the fixed "(empty)" line when there is none. The line of an
    entry is "- **stem**: summary"; the summary is the first line of the
    trimmed text that is not empty once surrounding whitespace and leading
    "#" are stripped, so stripped and cut at 120 characters (empty when no
    line qualifies: blank lines and lines of markers alone are skipped);
    an entry that cannot be read gets "(unreadable)" and the rebuild goes
    on. When the write returns, the index file holds that text. *)
Theorem index_rebuild_content :
  forall ctx w k,
    let kdir := drive_path ctx KNOWLEDGE_DIR in
    realpath (fs w) kdir = Some k -> stat (fs w) k = Some Dir ->
    index_rebuilt ctx w k
    /\ (forall w' text, fs w' = fs w ->
          forall o w'', write_text (truediv kdir INDEX_FILE) text w' = (o, w'') -> o = Ret tt ->
          exists iloc, realpath (fs w) (truediv kdir INDEX_FILE) = Some iloc
                       /\ fs w'' = <[iloc := File (Some text)]> (fs w))
    /\ (forall f text, read_result (fs w) f = Ret text ->
          entry_of (fs w) f = lit "- **" ++ stem f ++ lit "**: " ++ summary text
          /\ is_summary text (summary text))
    /\ (forall f e, read_result (fs w) f = Raise e ->
          entry_of (fs w) f = lit "- **" ++ stem f ++ lit "**: (unreadable)")
    /\ (forall t, t <> [] -> stem (truediv kdir (t ++ lit ".md")) = t)
    /\ index_header = lit "# Knowledge Base Index" ++ [nl; nl]
    /\ index_body [] = lit "(empty)" ++ [nl]
    /\ (forall e es, index_body (e :: es) = e ++ [nl] ++ concat ((fun x => x ++ [nl]) <$> es)).
Proof.
  intros ctx w k kdir Hk Hd. split_and!.
  - destruct (update_index_as_write ctx w k Hk Hd)
      as (names & w1 & Hn & Hnd & Hs & Hf & _ & E).
    exists names, w1. done.
  - intros w' text Hf o w'' Hw ->.
    apply write_text_inv in Hw
      as [(_ & _ & ?) | (loc & Hloc & _ & [[_ [e ?]] | (_ & _ & [(_ & _ & Hf') | (? & _)])])];
      try done.
    exists loc. rewrite <- Hf. done.
  - intros f text Hr. unfold entry_of. rewrite Hr. split; [done | apply summary_is_summary].
  - intros f e Hr. unfold entry_of. by rewrite Hr.
  - intros t Ht. by apply stem_md.
  - done.
  - done.
  - intros e es. simpl. by rewrite <- app_assoc.
Qed.

Lemma index_rebuild_content_witness :
  index_rebuilt drive_ctx (World sample_store []) kb_dir.
Proof.
  apply (index_rebuild_content drive_ctx (World sample_store []) kb_dir); by_eval.
Defined.

(** C6 as stated fails on an entry whose first non-blank line holds
    markers only: the specification's summary is empty, the index has the
    next line. *)
Lemma index_rebuild_counterexample :
  let text := lit "#" ++ [nl] ++ lit "hello" in
  let w' := (_update_index drive_ctx (World sample_store [])).2 in
  fs w' !! (kb_dir ++ [INDEX_FILE])
  = Some (File (Some (index_header
                      ++ lit "- **a**: Title" ++ [nl]
                      ++ lit "- **b**: hello" ++ [nl]
                      ++ lit "- **c**: (unreadable)" ++ [nl])))
  /\ spec_summary text = []
  /\ summary text = lit "hello"
  /\ summary text <> spec_summary text.
Proof. vm_compute. split_and!; [reflexivity | reflexivity | reflexivity | discriminate]. Qed.

(** ** Listing *)

(** C7, as the code has it. With an index file that holds text, list
    returns that text as text mode reads it (the text itself when it has no
    carriage return) after one stat and one read, and rebuilds nothing.
    With no index entry in an existing base directory, list makes exactly
    one write, the rebuilt index, and returns it, provided its text can be
    encoded. With neither index nor base directory, list returns the fixed
    empty-store message and leaves the file system as it is. *)
Theorem list_returns_index :
  forall ctx w,
    let kdir := drive_path ctx KNOWLEDGE_DIR in
    let index_path := truediv kdir INDEX_FILE in
    (forall iloc text,
        realpath (fs w) index_path = Some iloc ->
        stat (fs w) iloc = Some (File (Some text)) ->
        _knowledge_list ctx w
        = (Ret (universal_newlines text), emit (EvRead iloc) (emit (EvStat iloc) w))
        /\ (cr ∉ text -> (_knowledge_list ctx w).1 = Ret text))
    /\ (forall k,
          realpath (fs w) kdir = Some k -> stat (fs w) k = Some Dir ->
          fs w !! (k ++ [INDEX_FILE]) = None ->
          exists names text,
            (forall n, n ∈ names <-> is_Some (fs w !! (k ++ [n]))
                                      /\ endswith (lit ".md") n = true /\ n <> INDEX_FILE)
            /\ NoDup names /\ StronglySorted name_le names
            /\ text = index_header
                      ++ index_body ((fun n => entry_of (fs w) (truediv kdir n)) <$> names)
            /\ (encodable text = true ->
                exists w' evs,
                  _knowledge_list ctx w = (Ret (universal_newlines text), w')
                  /\ fs w' = <[k ++ [INDEX_FILE] := File (Some text)]> (fs w)
                  /\ logged w w' evs
                  /\ writes evs = [EvWrite (k ++ [INDEX_FILE]) text]))
    /\ ((exists_ index_path w).1 = Ret false -> (exists_ kdir w).1 = Ret false ->
        (_knowledge_list ctx w).1 = Ret empty_store_msg
        /\ fs (_knowledge_list ctx w).2 = fs w
        /\ exists evs, logged w (_knowledge_list ctx w).2 evs /\ writes evs = []).
Proof.
  intros ctx w kdir index_path. split_and!.
  - intros iloc text Hi Hs.
    assert (_knowledge_list ctx w
            = (Ret (universal_newlines text), emit (EvRead iloc) (emit (EvStat iloc) w))) as E.
    { unfold _knowledge_list, bind. cbv zeta. fold kdir index_path.
      rewrite (exists_at _ _ _ Hi), Hs. cbv beta iota.
      by apply read_text_at. }
    split; [done |]. intros Hcr. rewrite E. simpl. f_equal. by apply universal_newlines_id.
  - intros k Hk Hd Hnone.
    set (iloc := k ++ [INDEX_FILE]) in *.
    assert (forall m, same_links (fs w) m -> realpath m index_path = Some iloc) as Hidx.
    { intros m Hl. rewrite <- (realpath_same_links _ _ _ Hl).
      apply realpath_snoc; [done | apply index_file_not_dotdot |].
      intros t. fold iloc. congruence. }
    assert (stat (fs w) iloc = None) as Hsi by (unfold iloc; by destruct k).
    set (wb := emit (EvStat k) (emit (EvStat iloc) w)).
    destruct (update_index_as_write ctx wb k Hk Hd)
      as (names & w1 & Hn & Hnd & Hs & Hf1 & (evs1 & Hl1 & He1) & E).
    fold kdir index_path in E.
    assert (fs w1 = fs w) as Hf1' by (rewrite Hf1; done).
    assert (fs wb = fs w) as Hfb by done. rewrite Hfb in Hn, E.
    exists names, (index_header
                   ++ index_body ((fun n => entry_of (fs w) (truediv kdir n)) <$> names)).
    split_and!; try done. intros Henc.
    set (text := index_header ++ _) in *.
    set (wc := set_inode iloc (File (Some text)) (emit (EvWrite iloc text) w1)).
    assert (_update_index ctx wb = (Ret tt, wc)) as Eup.
    { rewrite E. unfold write_text. rewrite Hf1'.
      rewrite (Hidx _ (same_links_refl _)), Hsi. unfold iloc at 1. rewrite parent_snoc, Hd.
      cbv zeta. by rewrite Henc. }
    assert (same_links (fs w) (fs wc)) as Hlc.
    { unfold wc, set_inode. simpl. rewrite Hf1'.
      apply same_links_insert; [intros t; congruence | done]. }
    assert (stat (fs wc) iloc = Some (File (Some text))) as Hsc.
    { unfold iloc. destruct k; simpl; apply lookup_insert_eq. }
    exists (emit (EvRead iloc) (emit (EvStat iloc) wc)),
      ([EvStat iloc; EvStat k] ++ evs1 ++ [EvWrite iloc text; EvStat iloc; EvRead iloc]).
    split_and!.
    + unfold _knowledge_list, bind. cbv zeta. fold kdir index_path.
      rewrite (exists_at _ _ _ (Hidx _ (same_links_refl _))), Hsi. cbv beta iota.
      rewrite (exists_at _ (emit (EvStat iloc) w) k Hk). rewrite ?fs_emit. rewrite Hd. cbv beta iota.
      fold wb. rewrite Eup.
      rewrite (exists_at _ _ _ (Hidx _ Hlc)), Hsc. cbv beta iota.
      apply read_text_at; [apply (Hidx _ Hlc) | done].
    + unfold wc, set_inode. simpl. by rewrite Hf1'.
    + unfold logged in *. simpl. rewrite Hl1. simpl. by rewrite <- !app_assoc.
    + rewrite !writes_app, (writes_none evs1 He1). done.
  - intros Hi Hk.
    unfold _knowledge_list, bind. cbv zeta. fold kdir index_path.
    destruct (exists_total index_path w) as (b1 & w1 & E1). rewrite E1 in *. simpl in Hi.
    injection Hi as ->. pose proof E1 as E1'. apply exists_inv in E1' as [Hf1 Hc1].
    assert ((exists_ kdir w1).1 = Ret false /\ fs (exists_ kdir w1).2 = fs w
            /\ exists evs, logged w (exists_ kdir w1).2 evs /\ writes evs = [])
      as (Hk1 & Hf2 & evs & Hl & Hw).
    { unfold exists_ in *. rewrite Hf1.
      destruct (realpath (fs w) kdir) as [k|]; simpl in *.
      - split_and!; [done | done |].
        destruct Hc1 as [(_ & _ & ->) | (loc & _ & -> & _)].
        + exists [EvStat k]. split; [done | done].
        + exists [EvStat loc; EvStat k]. split; [log_ok | done].
      - split_and!; [done | done |].
        destruct Hc1 as [(_ & _ & ->) | (loc & _ & -> & _)].
        + exists []. split; [apply logged_nil | done].
        + exists [EvStat loc]. split; [done | done]. }
    destruct (exists_ kdir w1) as [o2 w2]. simpl in *. subst o2. simpl. eauto.
Qed.

(** C7 as stated fails on an index file that holds a carriage return:
    list does not rebuild, but what it returns is not the file's text as
    it stands. *)
Lemma list_returns_index_counterexample :
  let w := World foreign_index_store [] in
  fs w !! (kb_dir ++ [INDEX_FILE]) = Some (File (Some (lit "# Index" ++ [cr; nl] ++ lit "- a")))
  /\ (_knowledge_list drive_ctx w).1 = Ret (lit "# Index" ++ [nl] ++ lit "- a")
  /\ (_knowledge_list drive_ctx w).1 <> Ret (lit "# Index" ++ [cr; nl] ++ lit "- a").
Proof. vm_compute. split_and!; [reflexivity | reflexivity | discriminate]. Qed.

(** ** An unknown mode *)

(** C8. With a valid topic and a mode other than overwrite and append,
    write returns the invalid-mode message and leaves the world as it was:
    no directory, no entry, no index is written, no file is even queried,
    and any read afterwards returns what it returned before. *)
Theorem write_invalid_mode_no_change :
  forall ctx topic content mode w p,
    (_safe_path ctx topic w).1 = Ret p ->
    mode <> lit "overwrite" -> mode <> lit "append" ->
    _knowledge_write ctx topic content mode w = (Ret (invalid_mode_msg mode), w)
    /\ forall t, _knowledge_read ctx t (_knowledge_write ctx topic content mode w).2
                 = _knowledge_read ctx t w.
Proof.
  intros ctx topic content mode w p Hp Ho Ha.
  assert (_knowledge_write ctx topic content mode w = (Ret (invalid_mode_msg mode), w)) as E.
  { unfold _knowledge_write, try_ValueError.
    destruct (_safe_path ctx topic w) as [o w'] eqn:Es.
    pose proof (safe_path_pure _ _ _ _ _ Es) as ->. simpl in Hp. subst o.
    by rewrite !bool_decide_eq_false_2. }
  split; [done |]. intros t. by rewrite E.
Qed.

Lemma write_invalid_mode_no_change_witness :
  _knowledge_write drive_ctx (lit "a") (lit "x") (lit "bogus-mode") fresh_world
  = (Ret (invalid_mode_msg (lit "bogus-mode")), fresh_world)
  /\ forall t, _knowledge_read drive_ctx t
                 (_knowledge_write drive_ctx (lit "a") (lit "x") (lit "bogus-mode") fresh_world).2
               = _knowledge_read drive_ctx t fresh_world.
Proof.
  apply (write_invalid_mode_no_change drive_ctx (lit "a") (lit "x") (lit "bogus-mode")
           fresh_world (kb_dir ++ [lit "a.md"])).
  - vm_compute. reflexivity.
  - vm_compute. discriminate.
  - vm_compute. discriminate.
Defined.

(** ** Read changes nothing *)

(** C9. Whatever the topic and the state, read leaves every file and
    directory as it was and only queries storage (stat and read calls, no
    write, no mkdir, no listing); a topic the sanitizer or the containment
    check rejects and a topic with no entry come back as messages. *)
Theorem read_never_mutates :
  forall ctx topic w,
    fs (_knowledge_read ctx topic w).2 = fs w
    /\ (exists evs, logged w (_knowledge_read ctx topic w).2 evs
                    /\ Forall (fun ev => exists loc, ev = EvStat loc \/ ev = EvRead loc) evs)
    /\ (forall e, (_safe_path ctx topic w).1 = Raise (ValueError e) ->
                  _knowledge_read ctx topic w = (Ret (invalid_topic_msg e), w))
    /\ (forall p, (_safe_path ctx topic w).1 = Ret p -> (exists_ p w).1 = Ret false ->
                  (_knowledge_read ctx topic w).1 = Ret (not_found_msg topic)).
Proof.
  intros ctx topic w.
  assert (logged w w []) as Hnil by (unfold logged; by rewrite app_nil_r).
  destruct (knowledge_read_cases ctx topic w)
    as [(e & He & E) | [(e & He & Hne & E) | (p & Hp & E)]]; rewrite E; simpl.
  - split_and!; [done | by exists [] | | congruence].
    intros e' He'. congruence.
  - split_and!; [done | by exists [] | | congruence].
    intros e' He'. rewrite He in He'. injection He' as ->. by destruct (Hne e').
  - unfold bind. destruct (exists_total p w) as (b & w1 & Hx). rewrite Hx.
    pose proof Hx as Hx'. apply exists_inv in Hx' as [Hf1 Hc].
    assert (exists evs1, logged w w1 evs1 /\
              Forall (fun ev => exists loc, ev = EvStat loc \/ ev = EvRead loc) evs1)
      as (evs1 & Hl1 & He1).
    { destruct Hc as [(_ & _ & ->) | (loc & _ & -> & _)]; [by exists [] |].
      exists [EvStat loc]. split; [done |]. repeat constructor. eauto. }
    destruct b; simpl.
    + destruct (read_text_result p w1) as (w2 & Hr & Hf2 & evs2 & Hl2 & He2). rewrite Hr. simpl.
      split_and!; [congruence | | congruence |].
      * exists (evs1 ++ evs2). split.
        -- unfold logged in *. by rewrite Hl2, Hl1, app_assoc.
        -- apply Forall_app. split; [done |].
           eapply Forall_impl; [exact He2 |]. intros ev [loc ->]. eauto.
      * intros p' Hp' Hx2. rewrite Hp in Hp'. injection Hp' as <-. rewrite Hx in Hx2. done.
    + split_and!; [done | eauto | congruence | done].
Qed.

(** ** Padded topics *)

(** C10, as the code has it. Whitespace around a valid topic changes
    nothing but the echo: the padded string resolves to the same entry
    file, named after the trimmed topic; write leaves the same world and
    read returns the same result, except that the acknowledgement and the
    not-found message quote the string as given. A padded overwrite that
    acknowledges is read back under the trimmed topic as text mode reads
    it (the content itself when it has no carriage return), provided the
    entry is not the index file under another name. *)
Theorem padded_topic_same_entry :
  forall ctx t l r content mode w,
    _sanitize_topic t = Ret t ->
    forallb isspace l = true -> forallb isspace r = true ->
    let padded := l ++ t ++ r in
    let kdir := drive_path ctx KNOWLEDGE_DIR in
    let entry := truediv kdir (t ++ lit ".md") in
    let after := (_knowledge_write ctx padded content (lit "overwrite") w).2 in
    _safe_path ctx padded w = _safe_path ctx t w
    /\ (forall p, (_safe_path ctx padded w).1 = Ret p -> p = entry)
    /\ (_knowledge_write ctx padded content mode w).2 = (_knowledge_write ctx t content mode w).2
    /\ ((_knowledge_write ctx t content mode w).1 = Ret (saved_msg t mode) ->
        (_knowledge_write ctx padded content mode w).1 = Ret (saved_msg padded mode))
    /\ ((_knowledge_write ctx t content mode w).1 <> Ret (saved_msg t mode) ->
        (_knowledge_write ctx padded content mode w).1 = (_knowledge_write ctx t content mode w).1)
    /\ (_knowledge_read ctx padded w).2 = (_knowledge_read ctx t w).2
    /\ ((_knowledge_read ctx padded w).1 = (_knowledge_read ctx t w).1
        \/ ((_knowledge_read ctx t w).1 = Ret (not_found_msg t)
            /\ (_knowledge_read ctx padded w).1 = Ret (not_found_msg padded)))
    /\ ((_knowledge_write ctx padded content (lit "overwrite") w).1
          = Ret (saved_msg padded (lit "overwrite")) ->
        realpath (fs w) (truediv kdir INDEX_FILE) <> realpath (fs w) entry ->
        (_knowledge_read ctx t after).1 = Ret (universal_newlines content)
        /\ (cr ∉ content -> (_knowledge_read ctx t after).1 = Ret content)).
Proof.
  intros ctx t l r content mode w Ht Hl Hr padded kdir entry after.
  pose proof (fun w => safe_path_padded ctx t l r w Ht Hl Hr) as Hsp. fold padded in Hsp.
  assert (strip padded = t) as Hstrip.
  { pose proof (sanitize_topic_padded _ _ _ Ht Hl Hr) as Hp.
    by apply sanitize_ret_strip in Hp. }
  destruct (knowledge_write_echo ctx t padded content mode w (Hsp w)) as (Hw2 & Hw1 & Hw1').
  destruct (knowledge_read_echo ctx t padded w (Hsp w)) as (Hr2 & Hr1).
  split_and!; try done.
  - intros p Hp. apply safe_path_entry in Hp as [-> _]. by rewrite Hstrip.
  - intros Hack Hidx.
    destruct (knowledge_write_saved _ _ _ _ _ Hack) as (p & _ & _ & Hp & _).
    destruct (safe_path_entry _ _ _ _ Hp) as [Hpe [loc Hloc]].
    rewrite Hstrip in Hpe. fold kdir entry in Hpe. subst p. rewrite Hloc in Hidx.
    destruct (overwrite_stores ctx padded content w entry loc Hack Hp Hloc Hidx)
      as (Hlinks & Hne & Hf).
    fold after in Hlinks, Hf. clearbody after. clear Hack Hidx Hw2 Hw1 Hw1' Hr2 Hr1.
    assert ((_knowledge_read ctx t after).1 = Ret (universal_newlines content)) as Hrd.
    { apply knowledge_read_text with (p := entry) (r := loc).
      - rewrite <- (Hsp after), (safe_path_same_links _ _ w after Hlinks). exact Hp.
      - rewrite <- (realpath_same_links _ _ _ Hlinks). exact Hloc.
      - exact Hne.
      - exact Hf. }
    split; [exact Hrd |]. intros Hcr. rewrite Hrd. f_equal. by apply universal_newlines_id.
Qed.

Lemma padded_topic_same_entry_witness :
  (_knowledge_read drive_ctx (lit "notes")
     (_knowledge_write drive_ctx (lit " notes  ") (lit "body") (lit "overwrite") fresh_world).2).1
  = Ret (lit "body").
Proof.
  pose proof (padded_topic_same_entry drive_ctx (lit "notes") (lit " ") (lit "  ")
                (lit "body") (lit "overwrite") fresh_world) as H.
  destruct H as (_ & _ & _ & _ & _ & _ & _ & H); [by_eval | by_eval | by_eval |].
  destruct H as [_ H]; [by_eval | by_eval |].
  apply H. decide_eval.
Defined.

(** C10 as stated fails on a carriage return, like the round trip it
    rests on. *)
Lemma padded_topic_same_entry_counterexample :
  let content := [97; cr; 98] in
  let wr := _knowledge_write drive_ctx (lit " notes ") content (lit "overwrite") fresh_world in
  wr.1 = Ret (saved_msg (lit " notes ") (lit "overwrite"))
  /\ (_knowledge_read drive_ctx (lit "notes") wr.2).1 = Ret [97; nl; 98]
  /\ (_knowledge_read drive_ctx (lit "notes") wr.2).1 <> Ret content.
Proof. vm_compute. split_and!; [reflexivity | reflexivity | discriminate]. Qed.
(** * Further properties of the module *)

(** ** The sanitizer *)

(** X1. The sanitizer is idempotent: what it returns, it accepts and
    returns unchanged. *)
Theorem sanitize_topic_idempotent :
  forall raw t, _sanitize_topic raw = Ret t -> _sanitize_topic t = Ret t.
Proof. intros raw t H. by eapply sanitize_fixpoint. Qed.

Lemma sanitize_topic_idempotent_witness :
  _sanitize_topic (lit "joi_gotchas") = Ret (lit "joi_gotchas").
Proof.
  apply (sanitize_topic_idempotent (lit "  joi_gotchas" ++ [nl]) (lit "joi_gotchas")).
  by_eval.
Defined.

(** X2. The file name of an accepted topic, the topic followed by ".md",
    is one visible path component: it holds no separator, is not "..",
    does not start with a dot, and is not the index file, not even up to
    letter case (a topic never starts with an underscore). The directory
    listing "*.md" matches it, and its stem is the topic again. *)
Theorem sanitized_entry_name :
  forall raw t (d : Path),
    _sanitize_topic raw = Ret t ->
    let n := t ++ lit ".md" in
    lower n <> INDEX_FILE /\ n <> INDEX_FILE
    /\ n <> lit ".." /\ (slash ∉ n) /\ head n <> Some 46
    /\ endswith (lit ".md") n = true
    /\ name (truediv d n) = n /\ stem (truediv d n) = t
    /\ (length n <= 103)%nat.
Proof.
  intros raw t d H n.
  destruct (sanitize_ret_shape _ _ H) as [_ (Hne & Hlen & _ & (c & Hc & Hac) & _)].
  destruct t as [| c' t']; [done |]. simpl in Hc. injection Hc as ->.
  assert (c <> 95 /\ c <> 46 /\ lower_char c <> 95) as (H95 & H46 & Hl).
  { unfold alnum in Hac. unfold lower_char.
    rewrite !orb_true_iff, !andb_true_iff, !N.leb_le in Hac.
    destruct (N.leb_spec 65 c), (N.leb_spec c 90); simpl; lia. }
  split_and!.
  - subst n. simpl. intros [= ? _]. done.
  - subst n. simpl. intros [= ? _]. done.
  - subst n. simpl. intros [= ? _]. done.
  - by eapply sanitized_name_slash_free.
  - subst n. simpl. intros [= ?]. done.
  - apply endswith_spec. by exists (c :: t').
  - apply name_snoc.
  - by apply stem_md.
  - subst n. rewrite length_app. simpl in *. lia.
Qed.

Lemma sanitized_entry_name_witness :
  stem (truediv kb_dir (lit "browser-automation" ++ lit ".md")) = lit "browser-automation".
Proof.
  apply (sanitized_entry_name (lit " browser-automation ") (lit "browser-automation") kb_dir).
  by_eval.
Defined.

(** X3. The sanitizer fails with [ValueError] only, and the message is
    decided by the first test that fails, in the order of the code: an
    empty input; else a slash, a backslash or ".." in the trimmed input;
    else a trimmed input that has not the shape of a topic; else a
    reserved word, in any letter case. The four cases exclude one another,
    and every message but the first quotes the trimmed input. *)
Theorem sanitize_topic_errors :
  forall raw e,
    _sanitize_topic raw = Raise e ->
    let t := strip raw in
    let separated := slash ∈ t \/ backslash ∈ t \/ exists a b, t = a ++ lit ".." ++ b in
    (raw = [] /\ e = ValueError (lit "Topic must be a non-empty string"))
    \/ (raw <> [] /\ separated
        /\ e = ValueError (lit "Invalid characters in topic: " ++ t))
    \/ (raw <> [] /\ ~ separated /\ ~ well_shaped t
        /\ e = ValueError (lit "Invalid topic name: " ++ t
                           ++ lit ". Use alphanumeric, underscore, hyphen, dot."))
    \/ (raw <> [] /\ ~ separated /\ well_shaped t
        /\ (exists w, w ∈ reserved_words /\ equal_ignoring_case t w = true)
        /\ e = ValueError (lit "Reserved topic name: " ++ t)).
Proof.
  intros raw e H t separated. unfold _sanitize_topic in H. cbv zeta in H. fold t in H.
  case_bool_decide as Hraw; cbv beta iota in H; [left; split; [done | by injection H] |].
  destruct (contains (lit "/") t) eqn:Es; simpl in H.
  { right; left. split_and!; [done | | by injection H]. left. by apply contains_char. }
  destruct (contains (lit "\") t) eqn:Eb; simpl in H.
  { right; left. split_and!; [done | | by injection H]. right; left. by apply contains_char. }
  destruct (contains (lit "..") t) eqn:Ed; simpl in H.
  { right; left. split_and!; [done | | by injection H]. right; right. by apply contains_spec. }
  assert (~ separated) as Hsep.
  { intros [Hin | [Hin | Hin]].
    - apply (contains_char slash) in Hin. change [slash] with (lit "/") in Hin. congruence.
    - apply (contains_char backslash) in Hin. change [backslash] with (lit "\") in Hin.
      congruence.
    - apply contains_spec in Hin. congruence. }
  pose proof (VALID_TOPIC_shape t (strip_last_not_nl raw)) as Hshape.
  destruct (_VALID_TOPIC t) eqn:Ev; simpl in H.
  - destruct (in_reserved (lower t)) eqn:Er; [| done].
    right; right; right.
    split_and!; [done | done | by apply Hshape | by apply in_reserved_spec | by injection H].
  - right; right; left. split_and!; [done | done | | by injection H].
    intros Hw. apply Hshape in Hw. done.
Qed.

Lemma sanitize_topic_errors_witness :
  let raw := lit " CON " in
  let e := ValueError (lit "Reserved topic name: CON") in
  let t := strip raw in
  let separated := slash ∈ t \/ backslash ∈ t \/ exists a b, t = a ++ lit ".." ++ b in
  (raw = [] /\ e = ValueError (lit "Topic must be a non-empty string"))
  \/ (raw <> [] /\ separated
      /\ e = ValueError (lit "Invalid characters in topic: " ++ t))
  \/ (raw <> [] /\ ~ separated /\ ~ well_shaped t
      /\ e = ValueError (lit "Invalid topic name: " ++ t
                         ++ lit ". Use alphanumeric, underscore, hyphen, dot."))
  \/ (raw <> [] /\ ~ separated /\ well_shaped t
      /\ (exists w, w ∈ reserved_words /\ equal_ignoring_case t w = true)
      /\ e = ValueError (lit "Reserved topic name: " ++ t)).
Proof.
  apply (sanitize_topic_errors (lit " CON ") (ValueError (lit "Reserved topic name: CON"))).
  by_eval.
Defined.

(** X4. An input of whitespace only is not reported as empty: it passes
    the first test, is trimmed to nothing, and fails the pattern, so the
    message is the invalid-name one with nothing quoted. *)
Theorem sanitize_topic_blank :
  forall raw,
    raw <> [] -> forallb isspace raw = true ->
    _sanitize_topic raw
    = Raise (ValueError (lit "Invalid topic name: "
                         ++ lit ". Use alphanumeric, underscore, hyphen, dot.")).
Proof.
  intros raw Hne Hsp.
  assert (strip raw = []) as Hs.
  { unfold strip, strip_by.
    pose proof (lstrip_by_app_l isspace raw [] Hsp) as E. rewrite app_nil_r in E.
    rewrite E. reflexivity. }
  unfold _sanitize_topic. rewrite bool_decide_eq_false_2 by done. cbv zeta. rewrite Hs.
  reflexivity.
Qed.

Lemma sanitize_topic_blank_witness :
  _sanitize_topic (lit "   ")
  = Raise (ValueError (lit "Invalid topic name: "
                       ++ lit ". Use alphanumeric, underscore, hyphen, dot.")).
Proof. apply (sanitize_topic_blank (lit "   ")); by_eval. Defined.

(** ** The path resolver *)

(** X5. The containment check rejects nothing it should accept: when the
    base directory resolves to a directory other than the root, a topic
    that passes the sanitizer and whose entry resolves to the base
    directory or below it is accepted, and [_safe_path] returns the
    unresolved path of the entry and leaves the world as it is. *)
Theorem safe_path_accepts_within :
  forall ctx topic t w r k,
    let kdir := drive_path ctx KNOWLEDGE_DIR in
    _sanitize_topic topic = Ret t ->
    realpath (fs w) (truediv kdir (t ++ lit ".md")) = Some r ->
    realpath (fs w) kdir = Some k ->
    k <> [] -> within k r ->
    _safe_path ctx topic w = (Ret (truediv kdir (t ++ lit ".md")), w).
Proof.
  intros ctx topic t w r k kdir Ht Hr Hk Hk0 Hin.
  apply (safe_path_accepts ctx topic t w r k Ht Hr Hk). by left.
Qed.

Lemma safe_path_accepts_within_witness :
  _safe_path drive_ctx (lit "notes") (World empty_store [])
  = (Ret (kb_dir ++ [lit "notes.md"]), World empty_store []).
Proof.
  apply (safe_path_accepts_within drive_ctx (lit "notes") (lit "notes") (World empty_store [])
           (kb_dir ++ [lit "notes.md"]) kb_dir).
  - by_eval.
  - by_eval.
  - by_eval.
  - done.
  - by exists [lit "notes.md"].
Defined.

(** X6. When the base directory resolves to the root directory, every
    topic is rejected as a path escape although its entry would lie in the
    base directory: the check compares with the text of the base directory
    followed by "/", which is "//" for the root. Read and write answer with
    the invalid-topic message and change nothing. *)
Theorem root_base_rejects_topics :
  forall ctx topic t w,
    let kdir := drive_path ctx KNOWLEDGE_DIR in
    _sanitize_topic topic = Ret t ->
    realpath (fs w) kdir = Some [] ->
    (forall target, fs w !! [t ++ lit ".md"] <> Some (Symlink target)) ->
    realpath (fs w) (truediv kdir (t ++ lit ".md")) = Some [t ++ lit ".md"]
    /\ _safe_path ctx topic w = (Raise (ValueError (lit "Path escape detected: " ++ t)), w)
    /\ _knowledge_read ctx topic w
       = (Ret (invalid_topic_msg (lit "Path escape detected: " ++ t)), w)
    /\ forall content mode,
         _knowledge_write ctx topic content mode w
         = (Ret (invalid_topic_msg (lit "Path escape detected: " ++ t)), w).
Proof.
  intros ctx topic t w kdir Ht Hk Hpl.
  pose proof (entry_realpath ctx topic t (fs w) [] Ht Hk Hpl) as Hr. fold kdir in Hr.
  change ([] ++ [t ++ lit ".md"]) with [t ++ lit ".md"] in Hr.
  assert (_safe_path ctx topic w
          = (Raise (ValueError (lit "Path escape detected: " ++ t)), w)) as Hrej.
  { apply (safe_path_rejects ctx topic t w _ _ Ht Hr Hk); [| done].
    apply root_startswith; [| by eapply sanitized_name_slash_free].
    destruct (sanitize_ret_shape _ _ Ht) as [_ [Hne _]]. by destruct t. }
  split_and!; [done | done | |].
  - unfold _knowledge_read, try_ValueError. by rewrite Hrej.
  - intros content mode. unfold _knowledge_write, try_ValueError. by rewrite Hrej.
Qed.

Lemma root_base_rejects_topics_witness :
  _knowledge_read drive_ctx (lit "notes") (World rooted_store [])
  = (Ret (invalid_topic_msg (lit "Path escape detected: notes")), World rooted_store []).
Proof.
  refine (proj1 (proj2 (proj2
    (root_base_rejects_topics drive_ctx (lit "notes") (lit "notes") (World rooted_store [])
       _ _ _)))).
  - by_eval.
  - by_eval.
  - intros target. by_eval.
Defined.

(** ** The base directory *)

(** X7. When [_ensure_dir] returns, the base directory is a directory.
    Whatever stood on the drive still stands there unchanged: the call only
    adds directories where nothing was, and writes no file. The path of the
    base directory is taken without ".." components. *)
Theorem ensure_dir_creates :
  forall ctx w w',
    let kdir := drive_path ctx KNOWLEDGE_DIR in
    lit ".." ∉ kdir ->
    _ensure_dir ctx w = (Ret tt, w') ->
    (is_dir kdir w').1 = Ret true
    /\ (exists_ kdir w').1 = Ret true
    /\ adds_dirs (fs w) (fs w')
    /\ (forall loc i, fs w !! loc = Some i -> fs w' !! loc = Some i)
    /\ exists evs, logged w w' evs /\ Forall (fun ev => ~ is_write ev) evs.
Proof.
  intros ctx w w' kdir Hdd H.
  assert (exists loc, realpath (fs w') kdir = Some loc /\ stat (fs w') loc = Some Dir)
    as (loc & Hr & Hs).
  { unfold _ensure_dir, mkdir_parents in H. apply mkdir_parents_rev_dir in H.
    - by rewrite rev_involutive in H.
    - intros Hin. apply Hdd, list_elem_of_In, in_rev. by apply list_elem_of_In. }
  split_and!.
  - by rewrite (is_dir_at _ _ _ Hr Hs).
  - by rewrite (exists_at _ _ _ Hr), Hs.
  - by eapply ensure_dir_adds.
  - intros loc' i. by eapply ensure_dir_keeps.
  - by eapply ensure_dir_log.
Qed.

Lemma ensure_dir_creates_witness :
  (is_dir kb_dir (_ensure_dir drive_ctx fresh_world).2).1 = Ret true.
Proof.
  apply (ensure_dir_creates drive_ctx fresh_world (_ensure_dir drive_ctx fresh_world).2).
  - decide_eval.
  - by_eval.
Defined.

(** X8. On a drive where the base directory and its parent are
    directories, [_ensure_dir] succeeds and leaves every file and directory
    as it is: the failed attempt to create the directory is absorbed. *)
Theorem ensure_dir_present :
  forall ctx w par n ploc loc,
    drive_path ctx KNOWLEDGE_DIR = par ++ [n] -> n <> lit ".." ->
    realpath (fs w) par = Some ploc -> stat (fs w) ploc = Some Dir ->
    realpath (fs w) (par ++ [n]) = Some loc -> stat (fs w) loc = Some Dir ->
    exists w',
      _ensure_dir ctx w = (Ret tt, w') /\ fs w' = fs w
      /\ logged w w' [EvMkdir (ploc ++ [n]); EvStat loc].
Proof.
  intros ctx w par n ploc loc Hk Hn Hp Hps Hr Hs.
  assert (is_Some (fs w !! (ploc ++ [n]))) as [i Hi].
  { destruct (realpath_snoc_inv _ _ _ _ Hn Hr) as (k & Hk' & [-> | [t Ht]]).
    - rewrite Hp in Hk'. injection Hk' as <-. rewrite stat_snoc in Hs. by rewrite Hs.
    - rewrite Hp in Hk'. injection Hk' as <-. by rewrite Ht. }
  exists (emit (EvStat loc) (emit (EvMkdir (ploc ++ [n])) w)).
  unfold _ensure_dir. rewrite Hk, (mkdir_parents_exists par n w ploc i Hp Hps Hi).
  rewrite (is_dir_at (par ++ [n]) (emit (EvMkdir (ploc ++ [n])) w) loc Hr Hs).
  split_and!; [done | done | log_ok].
Qed.

Lemma ensure_dir_present_witness :
  exists w', _ensure_dir drive_ctx (World empty_store []) = (Ret tt, w')
             /\ fs w' = empty_store
             /\ logged (World empty_store []) w' [EvMkdir kb_dir; EvStat kb_dir].
Proof.
  apply (ensure_dir_present drive_ctx (World empty_store [])
           [lit "drive"; lit "memory"] (lit "knowledge") [lit "drive"; lit "memory"] kb_dir);
    by_eval.
Defined.

(** X9. When a regular file stands at the path of the base directory (in a
    parent that is a directory), [_ensure_dir] raises [FileExistsError],
    and so does every write with an accepted topic and a valid mode; no
    file or directory is created or changed. *)
Theorem ensure_dir_blocked :
  forall ctx w par n ploc text,
    let kdir := drive_path ctx KNOWLEDGE_DIR in
    kdir = par ++ [n] -> n <> lit ".." ->
    realpath (fs w) par = Some ploc -> stat (fs w) ploc = Some Dir ->
    fs w !! (ploc ++ [n]) = Some (File text) ->
    exists w',
      _ensure_dir ctx w = (Raise (FileExistsError kdir), w') /\ fs w' = fs w
      /\ forall topic p content mode,
           (_safe_path ctx topic w).1 = Ret p ->
           mode = lit "overwrite" \/ mode = lit "append" ->
           _knowledge_write ctx topic content mode w = (Raise (FileExistsError kdir), w').
Proof.
  intros ctx w par n ploc text kdir Hk Hn Hp Hps Hl.
  assert (realpath (fs w) (par ++ [n]) = Some (ploc ++ [n])) as Hr.
  { apply realpath_snoc; [done | done |]. intros t. by rewrite Hl. }
  assert (_ensure_dir ctx w
          = (Raise (FileExistsError kdir),
             emit (EvStat (ploc ++ [n])) (emit (EvMkdir (ploc ++ [n])) w))) as He.
  { unfold _ensure_dir. fold kdir. rewrite Hk.
    rewrite (mkdir_parents_exists par n w ploc _ Hp Hps Hl).
    unfold is_dir. rewrite fs_emit, Hr, stat_snoc, Hl. reflexivity. }
  eexists. split_and!; [exact He | done |].
  intros topic p content mode Hsp Hm.
  rewrite (knowledge_write_valid _ _ _ _ _ _ Hsp Hm).
  unfold bind at 1. unfold store_content. unfold bind at 1. by rewrite He.
Qed.

Lemma ensure_dir_blocked_witness :
  exists w',
    _ensure_dir drive_ctx (World blocked_store []) = (Raise (FileExistsError kb_dir), w')
    /\ fs w' = blocked_store
    /\ forall topic p content mode,
         (_safe_path drive_ctx topic (World blocked_store [])).1 = Ret p ->
         mode = lit "overwrite" \/ mode = lit "append" ->
         _knowledge_write drive_ctx topic content mode (World blocked_store [])
         = (Raise (FileExistsError kb_dir), w').
Proof.
  apply (ensure_dir_blocked drive_ctx (World blocked_store [])
           [lit "drive"; lit "memory"] (lit "knowledge") [lit "drive"; lit "memory"]
           (Some (lit "not a directory"))); by_eval.
Defined.

(** ** The index builder *)

(** X10. Without a base directory the rebuild does nothing: it returns
    after the existence test, creates neither the directory nor an index,
    and leaves the file system as it is. *)
Theorem update_index_no_directory :
  forall ctx w,
    (exists_ (drive_path ctx KNOWLEDGE_DIR) w).1 = Ret false ->
    exists w' evs,
      _update_index ctx w = (Ret tt, w') /\ fs w' = fs w
      /\ logged w w' evs /\ writes evs = []
      /\ Forall (fun ev => exists loc, ev = EvStat loc) evs.
Proof.
  intros ctx w Hx.
  destruct (update_index_absent ctx w Hx) as (w' & evs & E & Hf & Hl & He).
  exists w', evs. split_and!; [done | done | done | | done].
  apply writes_none. eapply Forall_impl; [exact He |]. intros ev [loc ->]. eauto.
Qed.

Lemma update_index_no_directory_witness :
  exists w' evs,
    _update_index drive_ctx fresh_world = (Ret tt, w') /\ fs w' = fs fresh_world
    /\ logged fresh_world w' evs /\ writes evs = []
    /\ Forall (fun ev => exists loc, ev = EvStat loc) evs.
Proof. apply (update_index_no_directory drive_ctx fresh_world). by_eval. Defined.

(** X11. A rebuild changes no location but the one the index path
    resolves to, whatever its outcome: it makes at most one write, of the
    index file, and adds or removes no symbolic link. *)
Theorem update_index_writes_index_only :
  forall ctx w o w',
    let index_path := truediv (drive_path ctx KNOWLEDGE_DIR) INDEX_FILE in
    _update_index ctx w = (o, w') ->
    (forall q, realpath (fs w) index_path <> Some q -> fs w' !! q = fs w !! q)
    /\ same_links (fs w) (fs w')
    /\ exists evs,
         logged w w' evs
         /\ (writes evs = []
             \/ exists iloc text,
                  realpath (fs w) index_path = Some iloc /\ writes evs = [EvWrite iloc text]).
Proof.
  intros ctx w o w' index_path H. split_and!.
  - intros q Hq. by eapply update_index_frame.
  - by eapply update_index_same_links.
  - destruct (update_index_cases ctx w) as (w1 & evs & Hf & Hl & He & [E | [content E]]).
    + rewrite E in H. injection H as _ <-. exists evs. split; [done |]. left.
      by apply writes_none.
    + rewrite E in H. fold index_path in H.
      apply write_text_inv in H as [(_ & -> & _) | (loc & Hloc & Hlog & _)].
      * exists evs. split; [done |]. left. by apply writes_none.
      * exists (evs ++ [EvWrite loc content]). split.
        -- unfold logged in *. by rewrite Hlog, Hl, app_assoc.
        -- right. exists loc, content. rewrite <- Hf. split; [exact Hloc |].
           by rewrite writes_app, (writes_none evs He).
Qed.

Lemma update_index_writes_index_only_witness :
  let w' := (_update_index drive_ctx (World sample_store [])).2 in
  fs w' !! (kb_dir ++ [lit "a.md"]) = sample_store !! (kb_dir ++ [lit "a.md"]).
Proof.
  intros w'.
  apply (update_index_writes_index_only drive_ctx (World sample_store []) (Ret tt) w').
  - by_eval.
  - by_eval.
Defined.

(** X12. Rebuilding twice is rebuilding once: over a base directory whose
    entries are not symbolic links, a second rebuild after one that
    returned writes the same index again and leaves the file system as the
    first one left it (the index file does not list itself). *)
Theorem update_index_idempotent :
  forall ctx w w1 k,
    realpath (fs w) (drive_path ctx KNOWLEDGE_DIR) = Some k ->
    stat (fs w) k = Some Dir ->
    plain_entries (fs w) k ->
    _update_index ctx w = (Ret tt, w1) ->
    exists w2, _update_index ctx w1 = (Ret tt, w2) /\ fs w2 = fs w1.
Proof.
  intros ctx w w1 k Hk Hd Hpl H.
  by apply (update_index_again ctx w w1 w1 k Hk Hd Hpl H).
Qed.

Lemma update_index_idempotent_witness :
  let w1 := (_update_index drive_ctx (World sample_store [])).2 in
  exists w2, _update_index drive_ctx w1 = (Ret tt, w2) /\ fs w2 = fs w1.
Proof.
  intros w1.
  apply (update_index_idempotent drive_ctx (World sample_store []) w1 kb_dir).
  - by_eval.
  - by_eval.
  - apply link_free_plain. decide_eval.
  - by_eval.
Defined.

(** ** Listing *)

(** X13. When a regular file stands at the path of the base directory,
    list does not answer with the empty-store message: the path exists, so
    list starts a rebuild, the rebuild finds no entry and fails to create
    the index below a file, and list raises [NotADirectoryError]. Nothing
    is changed. *)
Theorem list_base_is_file :
  forall ctx w k text,
    let kdir := drive_path ctx KNOWLEDGE_DIR in
    realpath (fs w) kdir = Some k ->
    stat (fs w) k = Some (File text) ->
    fs w !! (k ++ [INDEX_FILE]) = None ->
    exists w',
      _knowledge_list ctx w = (Raise (NotADirectoryError (truediv kdir INDEX_FILE)), w')
      /\ fs w' = fs w.
Proof.
  intros ctx w k text kdir Hk Hs Hnone.
  assert (forall w0, fs w0 = fs w ->
            realpath (fs w0) (truediv kdir INDEX_FILE) = Some (k ++ [INDEX_FILE])) as Hi.
  { intros w0 ->. apply realpath_snoc; [exact Hk | apply index_file_not_dotdot |].
    intros t. by rewrite Hnone. }
  assert (forall w0, fs w0 = fs w -> exists_ (truediv kdir INDEX_FILE) w0
            = (Ret false, emit (EvStat (k ++ [INDEX_FILE])) w0)) as Hxi.
  { intros w0 Hf. rewrite (exists_at _ _ _ (Hi w0 Hf)), Hf, stat_snoc, Hnone. reflexivity. }
  assert (forall w0, fs w0 = fs w -> exists_ kdir w0 = (Ret true, emit (EvStat k) w0)) as Hxk.
  { intros w0 Hf. rewrite (exists_at _ _ k) by (rewrite Hf; exact Hk). by rewrite Hf, Hs. }
  set (w1 := emit (EvStat (k ++ [INDEX_FILE])) w).
  set (w2 := emit (EvStat k) w1).
  set (w3 := emit (EvGlob k) (emit (EvStat k) w2)).
  assert (_update_index ctx w2
          = (Raise (NotADirectoryError (truediv kdir INDEX_FILE)),
             emit (EvWrite (k ++ [INDEX_FILE]) (index_content [])) w3)) as Hup.
  { unfold _update_index, bind. cbv zeta. fold kdir.
    rewrite (Hxk w2 eq_refl). change (negb true) with false. cbv beta iota.
    unfold glob_md. rewrite fs_emit. change (fs w2) with (fs w). rewrite Hk, Hs.
    change (sorted []) with (@nil Path). unfold index_entries, ret.
    fold w3. unfold write_text. rewrite (Hi w3 eq_refl). cbv zeta.
    change (fs w3) with (fs w).
    rewrite stat_snoc, Hnone, parent_snoc, Hs. reflexivity. }
  eexists. split.
  - unfold _knowledge_list, bind. cbv zeta. fold kdir.
    rewrite (Hxi w eq_refl). cbv beta iota. fold w1.
    rewrite (Hxk w1 eq_refl). fold w2. rewrite Hup. reflexivity.
  - reflexivity.
Qed.

Lemma list_base_is_file_witness :
  exists w',
    _knowledge_list drive_ctx (World blocked_store [])
    = (Raise (NotADirectoryError (kb_dir ++ [INDEX_FILE])), w')
    /\ fs w' = blocked_store.
Proof.
  apply (list_base_is_file drive_ctx (World blocked_store []) kb_dir
           (Some (lit "not a directory"))); by_eval.
Defined.

(** ** Read *)

(** X14. What read returns for an accepted topic is decided by what
    stands where the entry path resolves to: nothing, the not-found
    message; a regular file with text, the text as text mode reads it; a
    directory, [IsADirectoryError]; a regular file that is not UTF-8,
    [UnicodeDecodeError]. The last two are raised, not turned into
    messages: read only catches the [ValueError] of the path check. *)
Theorem read_outcome :
  forall ctx topic w p r,
    (_safe_path ctx topic w).1 = Ret p ->
    realpath (fs w) p = Some r ->
    (_knowledge_read ctx topic w).1
    = match stat (fs w) r with
      | None | Some (Symlink _) => Ret (not_found_msg topic)
      | Some i => read_inode p i
      end.
Proof.
  intros ctx topic w p r Hp Hr.
  destruct (knowledge_read_cases ctx topic w)
    as [(e & He & E) | [(e & He & Hne & E) | (p' & Hp' & E)]]; [congruence | congruence |].
  rewrite Hp in Hp'. injection Hp' as <-.
  rewrite E. unfold bind. rewrite (exists_at _ _ _ Hr).
  destruct (stat (fs w) r) as [i|] eqn:Es; [destruct i as [|text|t] |]; simpl; try done.
  - unfold read_text. by rewrite fs_emit, Hr, Es.
  - unfold read_text. rewrite fs_emit, Hr, Es. by destruct text.
Qed.

Lemma read_outcome_witness :
  (_knowledge_read drive_ctx (lit "dir") (World odd_store [])).1
  = Raise (IsADirectoryError (kb_dir ++ [lit "dir.md"])).
Proof.
  apply (read_outcome drive_ctx (lit "dir") (World odd_store [])
           (kb_dir ++ [lit "dir.md"]) (kb_dir ++ [lit "dir.md"])); by_eval.
Defined.

(** ** Rejected topics *)

(** X15. A topic the sanitizer rejects never reaches storage and never
    makes a handler raise: read and write, whatever the content and the
    mode (the topic is checked before the mode), answer with the
    invalid-topic message that quotes the sanitizer's words, and leave the
    world as it is. *)
Theorem rejected_topic_message :
  forall ctx topic e w,
    _sanitize_topic topic = Raise e ->
    exists msg,
      e = ValueError msg
      /\ _knowledge_read ctx topic w = (Ret (invalid_topic_msg msg), w)
      /\ forall content mode,
           _knowledge_write ctx topic content mode w = (Ret (invalid_topic_msg msg), w).
Proof.
  intros ctx topic e w H.
  assert (exists msg, e = ValueError msg) as [msg ->].
  { unfold _sanitize_topic in H. repeat case_match; try discriminate; injection H as <-; eauto. }
  exists msg.
  assert (_safe_path ctx topic w = (Raise (ValueError msg), w)) as Hs.
  { unfold _safe_path, bind, lift. by rewrite H. }
  split_and!; [done | |].
  - unfold _knowledge_read, try_ValueError. by rewrite Hs.
  - intros content mode. unfold _knowledge_write, try_ValueError. by rewrite Hs.
Qed.

Lemma rejected_topic_message_witness :
  exists msg,
    ValueError (lit "Invalid characters in topic: ../etc") = ValueError msg
    /\ _knowledge_read drive_ctx (lit "../etc") fresh_world
       = (Ret (invalid_topic_msg msg), fresh_world)
    /\ forall content mode,
         _knowledge_write drive_ctx (lit "../etc") content mode fresh_world
         = (Ret (invalid_topic_msg msg), fresh_world).
Proof.
  apply (rejected_topic_message drive_ctx (lit "../etc")
           (ValueError (lit "Invalid characters in topic: ../etc")) fresh_world).
  by_eval.
Defined.

(** ** Listing an index that cannot be read *)

(** X16. Whenever something stands where the index path resolves to, list
    rebuilds nothing and answers with the result of reading it, after one
    existence test and one read: the text of a regular file, and an
    exception when the index is a directory ([IsADirectoryError]) or not
    UTF-8 text ([UnicodeDecodeError]). *)
Theorem list_reads_what_stands :
  forall ctx w iloc i,
    let index_path := truediv (drive_path ctx KNOWLEDGE_DIR) INDEX_FILE in
    realpath (fs w) index_path = Some iloc ->
    stat (fs w) iloc = Some i -> is_link i = false ->
    _knowledge_list ctx w
    = (read_inode index_path i, emit (EvRead iloc) (emit (EvStat iloc) w)).
Proof.
  intros ctx w iloc i index_path Hi Hs Hl.
  unfold _knowledge_list, bind. cbv zeta. fold index_path.
  rewrite (exists_at _ _ _ Hi), Hs.
  destruct i as [|text|t]; [| | done]; cbv beta iota;
    unfold read_text; rewrite fs_emit, Hi, Hs; [done |]. by destruct text.
Qed.

Lemma list_reads_what_stands_witness :
  _knowledge_list drive_ctx (World broken_index_store [])
  = (Raise (IsADirectoryError (kb_dir ++ [INDEX_FILE])),
     emit (EvRead (kb_dir ++ [INDEX_FILE]))
       (emit (EvStat (kb_dir ++ [INDEX_FILE])) (World broken_index_store []))).
Proof.
  apply (list_reads_what_stands drive_ctx (World broken_index_store [])
           (kb_dir ++ [INDEX_FILE]) Dir); by_eval.
Defined.

(** ** Write *)

(** X17. A write changes nothing but its own entry and the index: every
    location other than the one the entry resolves to and the one the
    index resolves to holds after the call what it held before, or is a
    directory the call created where nothing was. This holds whatever the
    outcome of the call. *)
Theorem write_leaves_other_entries :
  forall ctx topic content mode w p r o w' q,
    let index_path := truediv (drive_path ctx KNOWLEDGE_DIR) INDEX_FILE in
    (_safe_path ctx topic w).1 = Ret p ->
    realpath (fs w) p = Some r ->
    _knowledge_write ctx topic content mode w = (o, w') ->
    q <> r -> realpath (fs w) index_path <> Some q ->
    fs w' !! q = fs w !! q \/ (fs w !! q = None /\ fs w' !! q = Some Dir).
Proof.
  intros ctx topic content mode w p r o w' q index_path Hp Hr H Hq Hi.
  unfold _knowledge_write, try_ValueError in H.
  destruct (_safe_path ctx topic w) as [os ws] eqn:Es.
  pose proof (safe_path_pure _ _ _ _ _ Es) as ->. simpl in Hp. subst os.
  destruct (negb (bool_decide (mode = lit "overwrite") || bool_decide (mode = lit "append"))).
  { injection H as _ <-. by left. }
  unfold bind in H.
  destruct (store_content ctx p content mode w) as [o1 w1] eqn:Est.
  pose proof (store_content_frame _ _ _ _ _ _ _ r q Est Hr Hq) as Hfr.
  destruct o1 as [[]|e]; [| injection H as _ <-; exact Hfr].
  destruct (_update_index ctx w1) as [o2 w2] eqn:Eup.
  assert (fs w2 !! q = fs w1 !! q) as Hfr2.
  { apply (update_index_frame _ _ _ _ q Eup).
    rewrite <- (realpath_same_links _ _ _ (store_content_same_links _ _ _ _ _ _ _ Est)).
    exact Hi. }
  assert (w' = w2) as -> by (destruct o2; by injection H).
  by rewrite Hfr2.
Qed.

Lemma write_leaves_other_entries_witness :
  let w' := (_knowledge_write drive_ctx (lit "b") (lit "new") (lit "overwrite")
               (World sample_store [])).2 in
  let q := kb_dir ++ [lit "a.md"] in
  fs w' !! q = sample_store !! q \/ (sample_store !! q = None /\ fs w' !! q = Some Dir).
Proof.
  intros w' q.
  apply (write_leaves_other_entries drive_ctx (lit "b") (lit "new") (lit "overwrite")
           (World sample_store []) (kb_dir ++ [lit "b.md"]) (kb_dir ++ [lit "b.md"])
           (Ret (saved_msg (lit "b") (lit "overwrite"))) w' q); by_eval.
Defined.

(** X18. A write whose text UTF-8 cannot encode (a lone surrogate in the
    content) destroys the entry it was to update: [write_text] opens the
    file, which truncates it, before the encoding fails. The call raises
    [UnicodeEncodeError], the entry is left empty, in append mode too, and
    the index is not rebuilt. *)
Theorem write_unencodable_truncates :
  forall ctx topic content mode w p r w0 old,
    (_safe_path ctx topic w).1 = Ret p ->
    realpath (fs w) p = Some r ->
    _ensure_dir ctx w = (Ret tt, w0) ->
    stat (fs w) r = Some (File (Some old)) ->
    mode = lit "overwrite" \/ mode = lit "append" ->
    encodable content = false ->
    exists w' evs,
      _knowledge_write ctx topic content mode w = (Raise UnicodeEncodeError, w')
      /\ fs w' = <[r := File (Some [])]> (fs w0)
      /\ logged w0 w' evs
      /\ Forall (fun ev => ev = EvStat r \/ ev = EvRead r \/ exists d, ev = EvWrite r d) evs.
Proof.
  intros ctx topic content mode w p r w0 old Hp Hr Hed Hs Hm Henc.
  pose proof (ensure_dir_same_links _ _ _ _ Hed) as Hl.
  assert (realpath (fs w0) p = Some r) as Hr0.
  { rewrite <- (realpath_same_links _ _ _ Hl). exact Hr. }
  assert (stat (fs w0) r = Some (File (Some old))) as Hs0.
  { apply stat_lookup in Hs as [Hne Hs]; [| done].
    pose proof (ensure_dir_keeps _ _ _ _ _ _ Hed Hs) as Hk. by destruct r. }
  assert (forall pre w1, fs w1 = fs w0 ->
            write_text p (pre ++ content) w1
            = (Raise UnicodeEncodeError,
               set_inode r (File (Some [])) (emit (EvWrite r (pre ++ content)) w1))) as Hw.
  { intros pre w1 Hf. unfold write_text. rewrite Hf, Hr0, Hs0. cbv zeta.
    unfold encodable in *. by rewrite forallb_app, Henc, andb_false_r. }
  rewrite (knowledge_write_valid _ _ _ _ _ _ Hp Hm).
  unfold bind at 1. unfold store_content. unfold bind at 1. rewrite Hed.
  destruct Hm as [-> | ->].
  - rewrite bool_decide_eq_false_2 by done. unfold bind at 1. unfold ret at 1.
    cbv beta iota. pose proof (Hw [] w0 eq_refl) as Hw0.
    change ([] ++ content) with content in Hw0. rewrite Hw0.
    eexists _, [EvWrite r content]. split_and!; [done | done | log_ok | each_event].
  - rewrite bool_decide_eq_true_2 by done. unfold bind at 1.
    rewrite (exists_at _ _ _ Hr0), Hs0. cbv beta iota. unfold bind at 1.
    rewrite (read_text_at p (emit (EvStat r) w0) r old Hr0 Hs0).
    rewrite (Hw _ (emit (EvRead r) (emit (EvStat r) w0)) eq_refl).
    eexists _, [EvStat r; EvRead r; EvWrite r _].
    split_and!; [done | done | log_ok | each_event].
Qed.

Lemma write_unencodable_truncates_witness :
  let w := World sample_store [] in
  let wr := _knowledge_write drive_ctx (lit "a") lone_surrogate (lit "append") w in
  wr.1 = Raise UnicodeEncodeError
  /\ fs wr.2 !! (kb_dir ++ [lit "a.md"]) = Some (File (Some [])).
Proof.
  intros w wr.
  destruct (write_unencodable_truncates drive_ctx (lit "a") lone_surrogate (lit "append") w
              (kb_dir ++ [lit "a.md"]) (kb_dir ++ [lit "a.md"])
              (_ensure_dir drive_ctx w).2 (lit "  ## Title  " ++ [nl] ++ lit "text"))
    as (w' & evs & E & Hf & _); [by_eval | by_eval | by_eval | by_eval | by right | by_eval |].
  subst wr. rewrite E. simpl. split; [done |]. rewrite Hf. apply lookup_insert_eq.
Defined.

(** X19. After a write that acknowledges, the index lists the topic: over
    a base directory whose entries are not links (and whose path has no
    ".."), the entry file holds the stored text (the content, in overwrite
    mode), the index file holds the header and a body with the line
    "- **topic**: summary" of that text, under the trimmed topic, and a
    list that follows returns that index, as text mode reads it, without
    changing a file. *)
Theorem write_then_list :
  forall ctx topic content mode w w' k,
    let t := strip topic in
    let kdir := drive_path ctx KNOWLEDGE_DIR in
    _knowledge_write ctx topic content mode w = (Ret (saved_msg topic mode), w') ->
    lit ".." ∉ kdir -> realpath (fs w) kdir = Some k -> plain_entries (fs w) k ->
    exists data lines,
      fs w' !! (k ++ [t ++ lit ".md"]) = Some (File (Some data))
      /\ (mode = lit "overwrite" -> data = content)
      /\ fs w' !! (k ++ [INDEX_FILE]) = Some (File (Some (index_header ++ index_body lines)))
      /\ entry_line t (summary (universal_newlines data)) ∈ lines
      /\ (_knowledge_list ctx w').1
         = Ret (universal_newlines (index_header ++ index_body lines))
      /\ fs (_knowledge_list ctx w').2 = fs w'.
Proof.
  intros ctx topic content mode w w' k t kdir H Hdd Hk Hpl.
  destruct (knowledge_write_done ctx topic content mode w w' k H Hdd Hk Hpl)
    as (data & names & w1 & Ht & Hf1 & Hov & _ & _ & Hl1 & Hn & _ & _ & Hf & Hl).
  fold t kdir in Ht, Hf1, Hf.
  set (lines := (fun n => entry_of (fs w1) (truediv kdir n)) <$> names) in *.
  set (text := index_header ++ index_body lines) in *.
  set (iloc := k ++ [INDEX_FILE]) in *.
  set (eloc := k ++ [t ++ lit ".md"]) in *.
  assert (iloc <> eloc) as Hne.
  { unfold iloc, eloc. intros Heq. apply app_inj_tail in Heq as [_ Heq].
    by apply (sanitized_not_index _ _ Ht). }
  assert (fs w' !! iloc = Some (File (Some text))) as Hidx.
  { rewrite Hf. apply lookup_insert_eq. }
  assert (realpath (fs w') (truediv kdir INDEX_FILE) = Some iloc) as Hri.
  { apply realpath_snoc; [| apply index_file_not_dotdot |].
    - rewrite <- (realpath_same_links _ _ _ Hl). exact Hk.
    - intros tg. fold iloc. by rewrite Hidx. }
  assert (stat (fs w') iloc = Some (File (Some text))) as Hsi.
  { unfold iloc. rewrite stat_snoc. exact Hidx. }
  exists data, lines. split_and!.
  - rewrite Hf, lookup_insert_ne by done. exact Hf1.
  - exact Hov.
  - exact Hidx.
  - apply list_elem_of_fmap. exists (t ++ lit ".md"). split.
    + unfold entry_of. rewrite (stem_md _ _ (sanitized_nonempty _ _ Ht)).
      assert (realpath (fs w1) (truediv kdir (t ++ lit ".md")) = Some eloc) as Hr1.
      { apply (entry_realpath ctx topic t (fs w1) k Ht).
        - rewrite <- (realpath_same_links _ _ _ Hl1). exact Hk.
        - apply (plain_entries_same_links _ _ _ Hl1 Hpl). }
      assert (stat (fs w1) eloc = Some (File (Some data))) as Hs1.
      { unfold eloc. rewrite stat_snoc. exact Hf1. }
      unfold read_result. by rewrite Hr1, Hs1.
    + apply Hn. split_and!; [exists (File (Some data)); exact Hf1 | apply sanitized_md |].
      by apply (sanitized_not_index _ _ Ht).
  - unfold _knowledge_list, bind. cbv zeta. fold kdir.
    rewrite (exists_at _ _ _ Hri), Hsi. cbv beta iota.
    by rewrite (read_text_at _ (emit (EvStat iloc) w') iloc text Hri Hsi).
  - unfold _knowledge_list, bind. cbv zeta. fold kdir.
    rewrite (exists_at _ _ _ Hri), Hsi. cbv beta iota.
    by rewrite (read_text_at _ (emit (EvStat iloc) w') iloc text Hri Hsi).
Qed.

Lemma write_then_list_witness :
  let w' := (_knowledge_write drive_ctx (lit " notes ") (lit "# Title" ++ [nl] ++ lit "body")
               (lit "overwrite") fresh_world).2 in
  exists data lines,
    fs w' !! (kb_dir ++ [strip (lit " notes ") ++ lit ".md"]) = Some (File (Some data))
    /\ (lit "overwrite" = lit "overwrite" -> data = lit "# Title" ++ [nl] ++ lit "body")
    /\ fs w' !! (kb_dir ++ [INDEX_FILE]) = Some (File (Some (index_header ++ index_body lines)))
    /\ entry_line (strip (lit " notes ")) (summary (universal_newlines data)) ∈ lines
    /\ (_knowledge_list drive_ctx w').1
       = Ret (universal_newlines (index_header ++ index_body lines))
    /\ fs (_knowledge_list drive_ctx w').2 = fs w'.
Proof.
  intros w'.
  apply (write_then_list drive_ctx (lit " notes ") (lit "# Title" ++ [nl] ++ lit "body")
           (lit "overwrite") fresh_world w' kb_dir).
  - by_eval.
  - decide_eval.
  - by_eval.
  - apply link_free_plain. decide_eval.
Defined.

(** X20. Overwrite, append, read: when a topic is written in overwrite
    mode with [a] and then in append mode with [b], both acknowledged, over
    a base directory whose entries are not links, read returns [a]
    followed by [b], with one newline in between exactly when [a] is not
    empty and does not end with a newline, for texts without carriage
    return. With carriage returns, append joins [b] to [a] as text mode
    reads it, and read returns the result as text mode reads it. *)
Theorem overwrite_append_read :
  forall ctx topic a b w w1 w2 k,
    let kdir := drive_path ctx KNOWLEDGE_DIR in
    _knowledge_write ctx topic a (lit "overwrite") w
      = (Ret (saved_msg topic (lit "overwrite")), w1) ->
    _knowledge_write ctx topic b (lit "append") w1
      = (Ret (saved_msg topic (lit "append")), w2) ->
    lit ".." ∉ kdir -> realpath (fs w) kdir = Some k -> plain_entries (fs w) k ->
    (_knowledge_read ctx topic w2).1
      = Ret (universal_newlines (append_result (universal_newlines a) b))
    /\ (cr ∉ a -> cr ∉ b -> (_knowledge_read ctx topic w2).1 = Ret (append_result a b)).
Proof.
  intros ctx topic a b w w1 w2 k kdir H1 H2 Hdd Hk Hpl.
  destruct (knowledge_write_stored ctx topic a _ w w1 k H1 Hdd Hk Hpl)
    as (d1 & Hf1 & Hov & _ & Hl1 & _ & _).
  rewrite (Hov eq_refl) in Hf1. clear Hov.
  assert (realpath (fs w1) kdir = Some k) as Hk1.
  { rewrite <- (realpath_same_links _ _ _ Hl1). exact Hk. }
  pose proof (plain_entries_same_links _ _ _ Hl1 Hpl) as Hpl1.
  destruct (knowledge_write_stored ctx topic b _ w1 w2 k H2 Hdd Hk1 Hpl1)
    as (d2 & Hf2 & _ & Hap & _ & Hp2 & Hr2).
  rewrite (Hap a eq_refl) in Hf2 by (rewrite stat_snoc; exact Hf1).
  assert ((_knowledge_read ctx topic w2).1
          = Ret (universal_newlines (append_result (universal_newlines a) b))) as Hrd.
  { apply (knowledge_read_text ctx topic w2 _ _ _ Hp2 Hr2); [by destruct k | exact Hf2]. }
  split; [exact Hrd |]. intros Ha Hb. rewrite Hrd. f_equal.
  rewrite (universal_newlines_id a Ha). apply universal_newlines_id.
  by apply append_result_no_cr.
Qed.

Lemma overwrite_append_read_witness :
  let w1 := (_knowledge_write drive_ctx (lit "notes") (lit "a") (lit "overwrite") fresh_world).2 in
  let w2 := (_knowledge_write drive_ctx (lit "notes") (lit "b") (lit "append") w1).2 in
  (_knowledge_read drive_ctx (lit "notes") w2).1 = Ret (append_result (lit "a") (lit "b")).
Proof.
  intros w1 w2.
  apply (overwrite_append_read drive_ctx (lit "notes") (lit "a") (lit "b") fresh_world w1 w2 kb_dir).
  - by_eval.
  - by_eval.
  - decide_eval.
  - by_eval.
  - apply link_free_plain. decide_eval.
  - decide_eval.
  - decide_eval.
Defined.

(** ** Summaries *)

(** X21. A summary is one short line: it has at most 120 characters,
    holds no newline, and does not start with whitespace. With the name of
    an accepted topic in front, the line of the index holds no newline
    either, so an entry written through the module takes exactly one line
    of the index. *)
Theorem summary_one_line :
  forall text,
    (length (summary text) <= 120)%nat
    /\ (nl ∉ summary text)
    /\ (forall c, head (summary text) = Some c -> isspace c = false)
    /\ (forall raw t, _sanitize_topic raw = Ret t -> nl ∉ entry_line t (summary text)).
Proof.
  intros text.
  assert (nl ∉ summary text) as Hnl.
  { destruct (summary_cases text) as [-> | (line & Hin & _ & ->)]; [apply not_elem_of_nil |].
    intros Hx. apply elem_of_take in Hx as (i & Hx & _). apply list_elem_of_lookup_2 in Hx.
    apply clean_elem in Hx.
    pose proof (split_no_sep nl (strip text)) as Hs.
    rewrite Forall_forall in Hs. by apply (Hs line Hin). }
  split_and!.
  - destruct (summary_cases text) as [-> | (line & _ & _ & ->)]; [simpl; lia |].
    rewrite length_take. lia.
  - exact Hnl.
  - intros c Hc. destruct (summary_cases text) as [E | (line & _ & Hne & E)]; rewrite E in Hc.
    + done.
    + destruct (clean line) as [|c' l] eqn:Ecl; [done |]. simpl in Hc. injection Hc as ->.
      apply (strip_by_head isspace (lstrip_hash (strip line)) c).
      change (strip_by isspace (lstrip_hash (strip line))) with (clean line).
      by rewrite Ecl.
  - intros raw t Ht. unfold entry_line. rewrite !elem_of_app.
    intros [Hin | [Hin | [Hin | Hin]]].
    + vm_compute in Hin. by repeat (apply elem_of_cons in Hin as [Hin | Hin]; [done |]);
        apply elem_of_nil in Hin.
    + by apply (sanitized_no_nl _ _ Ht).
    + vm_compute in Hin. by repeat (apply elem_of_cons in Hin as [Hin | Hin]; [done |]);
        apply elem_of_nil in Hin.
    + by apply Hnl.
Qed.

(** X22. Append does not fall back to overwrite when the entry cannot be
    read: if the entry is a directory or a file that is not UTF-8 text,
    the read that comes first raises ([IsADirectoryError],
    [UnicodeDecodeError]), write raises the same, and nothing is written:
    the file system is as [_ensure_dir] left it. *)
Theorem append_unreadable_entry :
  forall ctx topic content w p r w0 i,
    (_safe_path ctx topic w).1 = Ret p ->
    realpath (fs w) p = Some r ->
    _ensure_dir ctx w = (Ret tt, w0) ->
    stat (fs w) r = Some i -> i = Dir \/ i = File None ->
    exists w',
      _knowledge_write ctx topic content (lit "append") w = (read_inode p i, w')
      /\ fs w' = fs w0
      /\ logged w0 w' [EvStat r; EvRead r].
Proof.
  intros ctx topic content w p r w0 i Hp Hr Hed Hs Hi.
  pose proof (ensure_dir_same_links _ _ _ _ Hed) as Hl.
  assert (realpath (fs w0) p = Some r) as Hr0.
  { rewrite <- (realpath_same_links _ _ _ Hl). exact Hr. }
  pose proof (ensure_dir_stat _ _ _ _ _ _ Hed Hs) as Hs0.
  rewrite (knowledge_write_valid _ _ _ _ _ _ Hp (or_intror eq_refl)).
  unfold bind at 1. unfold store_content. unfold bind at 1. rewrite Hed.
  rewrite bool_decide_eq_true_2 by done. unfold bind at 1.
  rewrite (exists_at _ _ _ Hr0), Hs0.
  exists (emit (EvRead r) (emit (EvStat r) w0)).
  destruct Hi as [-> | ->]; cbv beta iota; unfold bind at 1;
    unfold read_text; rewrite fs_emit, Hr0, Hs0; (split_and!; [done | done | log_ok]).
Qed.

Lemma append_unreadable_entry_witness :
  exists w',
    _knowledge_write drive_ctx (lit "bin") (lit "x") (lit "append") (World odd_store [])
    = (Raise UnicodeDecodeError, w')
    /\ fs w' = fs (_ensure_dir drive_ctx (World odd_store [])).2
    /\ logged (_ensure_dir drive_ctx (World odd_store [])).2 w'
         [EvStat (kb_dir ++ [lit "bin.md"]); EvRead (kb_dir ++ [lit "bin.md"])].
Proof.
  apply (append_unreadable_entry drive_ctx (lit "bin") (lit "x") (World odd_store [])
           (kb_dir ++ [lit "bin.md"]) (kb_dir ++ [lit "bin.md"])
           (_ensure_dir drive_ctx (World odd_store [])).2 (File None)).
  - by_eval.
  - by_eval.
  - by_eval.
  - by_eval.
  - by right.
Defined.

(** X23. The containment check lets the base directory itself pass: an
    entry that is a link to the base directory resolves to it, so the
    topic is accepted although no file can stand there, and read raises
    [IsADirectoryError] instead of answering with a message. *)
Theorem link_to_base_accepted :
  forall ctx topic t w k,
    let kdir := drive_path ctx KNOWLEDGE_DIR in
    let entry := truediv kdir (t ++ lit ".md") in
    _sanitize_topic topic = Ret t ->
    realpath (fs w) kdir = Some k ->
    realpath (fs w) entry = Some k ->
    stat (fs w) k = Some Dir ->
    _safe_path ctx topic w = (Ret entry, w)
    /\ (_knowledge_read ctx topic w).1 = Raise (IsADirectoryError entry)
    /\ fs (_knowledge_read ctx topic w).2 = fs w.
Proof.
  intros ctx topic t w k kdir entry Ht Hk Hr Hs.
  assert (_safe_path ctx topic w = (Ret entry, w)) as Hsp.
  { apply (safe_path_accepts ctx topic t w k k Ht Hr Hk). by right. }
  split; [exact Hsp |].
  unfold _knowledge_read, try_ValueError. rewrite Hsp. unfold bind.
  rewrite (exists_at _ _ _ Hr), Hs. change (negb true) with false. cbv beta iota.
  unfold read_text. by rewrite fs_emit, Hr, Hs.
Qed.

Lemma link_to_base_accepted_witness :
  (_knowledge_read drive_ctx (lit "self") (World looped_store [])).1
  = Raise (IsADirectoryError (kb_dir ++ [lit "self.md"])).
Proof.
  apply (link_to_base_accepted drive_ctx (lit "self") (lit "self") (World looped_store []) kb_dir);
    by_eval.
Defined.

(** ** The tool table *)

(** X24. The table of [get_tools] agrees with the handlers it registers.
    The three names are distinct and each is registered with the handler
    of that name; every parameter a tool requires is one it declares; and
    the values the schema of write allows for the mode are exactly the
    modes the handler accepts: for a mode of the list, write never answers
    with the invalid-mode message, and for any other mode it does,
    whatever the accepted topic. *)
Theorem tools_agree_with_handlers :
  NoDup (te_name <$> get_tools)
  /\ (te_handler <$> find_tool (lit "knowledge_read")) = Some (OnTopic _knowledge_read)
  /\ (te_handler <$> find_tool (lit "knowledge_list")) = Some (OnNothing _knowledge_list)
  /\ Forall (fun e => s_required (te_parameters e) ⊆ (s_properties (te_parameters e)).*1)
       get_tools
  /\ exists e modes,
       find_tool (lit "knowledge_write") = Some e
       /\ te_handler e = OnTopicContentMode _knowledge_write
       /\ enum_of e (lit "mode") = Some modes
       /\ forall mode ctx topic content w p,
            (_safe_path ctx topic w).1 = Ret p ->
            (mode ∈ modes
             <-> (_knowledge_write ctx topic content mode w).1 <> Ret (invalid_mode_msg mode)).
Proof.
  split_and!.
  - decide_eval.
  - reflexivity.
  - reflexivity.
  - decide_eval.
  - eexists _, _. split_and!; [reflexivity | reflexivity | reflexivity |].
    intros mode ctx topic content w p Hp. split.
    + intros Hin Heq.
      assert (mode = lit "overwrite" \/ mode = lit "append") as Hm.
      { apply elem_of_cons in Hin as [-> | Hin]; [by left |].
        apply list_elem_of_singleton in Hin. by right. }
      rewrite (knowledge_write_valid _ _ _ _ _ _ Hp Hm) in Heq. unfold bind in Heq.
      destruct (store_content ctx p content mode w) as [[[]|e1] w1]; [| done].
      destruct (_update_index ctx w1) as [[[]|e2] w2]; [| done].
      apply (saved_not_invalid_mode topic mode mode).
      exact (f_equal (fun o => match o with Ret x => x | Raise _ => [] end) Heq).
    + intros Hne.
      destruct (decide (mode = lit "overwrite")) as [-> | Ho]; [by left |].
      destruct (decide (mode = lit "append")) as [-> | Ha]; [right; by left |].
      exfalso. apply Hne.
      unfold _knowledge_write, try_ValueError.
      destruct (_safe_path ctx topic w) as [os ws] eqn:Es. simpl in Hp. subst os.
      by rewrite !bool_decide_eq_false_2.
Qed.

(** ** Topics are independent *)

(** X25. Topics do not disturb each other: over a base directory that is
    there and whose entries are not links, a write under one topic,
    whatever its content, mode and outcome, leaves what read returns for
    every topic with another trimmed name as it was. *)
Theorem write_keeps_other_topics :
  forall ctx topic content mode other w o w' k,
    base_ready ctx (fs w) k -> plain_entries (fs w) k ->
    _knowledge_write ctx topic content mode w = (o, w') ->
    strip other <> strip topic ->
    (_knowledge_read ctx other w').1 = (_knowledge_read ctx other w).1.
Proof.
  intros ctx topic content mode other w o w' k Hb Hpl H Hne.
  destruct (base_ready_realpath _ _ _ Hb) as [Hk Hd].
  assert (same_links (fs w) (fs w')
          /\ forall q, q <> k ++ [strip topic ++ lit ".md"] -> q <> k ++ [INDEX_FILE] ->
                       fs w' !! q = fs w !! q) as [Hl Hfr].
  { destruct (_sanitize_topic topic) as [t|e] eqn:Ht.
    - pose proof (sanitize_ret_strip _ _ Ht) as ->.
      by apply (knowledge_write_frame ctx topic content mode w o w' k _ Hb Hpl Ht).
    - assert (_safe_path ctx topic w = (Raise e, w)) as Hs.
      { unfold _safe_path, bind, lift. by rewrite Ht. }
      unfold _knowledge_write, try_ValueError in H. rewrite Hs in H.
      assert (w' = w) as -> by (destruct e; by injection H).
      split; [apply same_links_refl | done]. }
  pose proof (safe_path_same_links ctx other w w' Hl) as Hsame.
  destruct ((_safe_path ctx other w).1) as [p|e] eqn:Hp.
  - pose proof (safe_path_sanitized _ _ _ _ Hp) as Hu.
    destruct (safe_path_entry _ _ _ _ Hp) as [-> _].
    pose proof (entry_realpath ctx other _ (fs w) k Hu Hk (Hpl _)) as Hr.
    assert (realpath (fs w') (truediv (drive_path ctx KNOWLEDGE_DIR) (strip other ++ lit ".md"))
            = Some (k ++ [strip other ++ lit ".md"])) as Hr'.
    { rewrite <- (realpath_same_links _ _ _ Hl). exact Hr. }
    rewrite (knowledge_read_result ctx other w' _ _ Hsame Hr').
    rewrite (knowledge_read_result ctx other w _ _ Hp Hr).
    rewrite !stat_snoc, Hfr; [done | |].
    + intros Heq. apply app_inj_tail in Heq as [_ Heq]. by apply app_inv_tail in Heq.
    + intros Heq. apply app_inj_tail in Heq as [_ Heq].
      by apply (sanitized_not_index _ _ Hu).
  - rewrite (knowledge_read_rejected ctx other w' e Hsame).
    by rewrite (knowledge_read_rejected ctx other w e Hp).
Qed.

Lemma write_keeps_other_topics_witness :
  let w' := (_knowledge_write drive_ctx (lit "b") (lit "new") (lit "overwrite")
               (World sample_store [])).2 in
  (_knowledge_read drive_ctx (lit "a") w').1
  = (_knowledge_read drive_ctx (lit "a") (World sample_store [])).1.
Proof.
  intros w'.
  apply (write_keeps_other_topics drive_ctx (lit "b") (lit "new") (lit "overwrite") (lit "a")
           (World sample_store []) (Ret (saved_msg (lit "b") (lit "overwrite"))) w' kb_dir).
  - exists [lit "drive"; lit "memory"], (lit "knowledge"), [lit "drive"; lit "memory"].
    split_and!; by_eval.
  - apply link_free_plain. decide_eval.
  - by_eval.
  - by_eval.
Defined.

(** ** Calls that succeed *)

(** X26. The rebuild succeeds whenever it can: over a base directory that
    is a directory, whose entries are not links and have names and texts
    UTF-8 can encode, with an index that is absent or a regular file,
    [_update_index] returns and the index file holds the new text. Entries
    that cannot be read (directories named like entries, files that are not
    UTF-8) do not make it fail. *)
Theorem update_index_succeeds :
  forall ctx w k,
    let kdir := drive_path ctx KNOWLEDGE_DIR in
    realpath (fs w) kdir = Some k -> stat (fs w) k = Some Dir ->
    plain_entries (fs w) k -> encodable_dir (fs w) k ->
    writable (fs w !! (k ++ [INDEX_FILE])) ->
    exists w' text,
      _update_index ctx w = (Ret tt, w')
      /\ fs w' = <[k ++ [INDEX_FILE] := File (Some text)]> (fs w).
Proof.
  intros ctx w k kdir Hk Hd Hpl Henc Hidx. by apply update_index_ok.
Qed.

Lemma update_index_succeeds_witness :
  exists w' text,
    _update_index drive_ctx (World odd_store []) = (Ret tt, w')
    /\ fs w' = <[kb_dir ++ [INDEX_FILE] := File (Some text)]> odd_store.
Proof.
  apply (update_index_succeeds drive_ctx (World odd_store []) kb_dir).
  - by_eval.
  - by_eval.
  - apply link_free_plain. decide_eval.
  - apply encodable_store_dir. decide_eval.
  - left. by_eval.
Defined.

(** X27. Write succeeds whenever it can: for an accepted topic, a valid
    mode and a content UTF-8 can encode, over a base directory other than
    the root that is there with its parent, whose entries are not links
    and have names and texts that can be encoded, when the entry is absent
    or holds text and the index is absent or a regular file, write returns
    its acknowledgement; the entry then holds the stored text and the
    index is rebuilt. *)
Theorem write_succeeds :
  forall ctx topic t content mode w k,
    let eloc := k ++ [t ++ lit ".md"] in
    _sanitize_topic topic = Ret t ->
    mode = lit "overwrite" \/ mode = lit "append" ->
    encodable content = true ->
    base_ready ctx (fs w) k -> k <> [] ->
    plain_entries (fs w) k -> encodable_dir (fs w) k ->
    text_or_nothing (fs w !! eloc) ->
    writable (fs w !! (k ++ [INDEX_FILE])) ->
    exists w' data text,
      _knowledge_write ctx topic content mode w = (Ret (saved_msg topic mode), w')
      /\ fs w' = <[k ++ [INDEX_FILE] := File (Some text)]>
                   (<[eloc := File (Some data)]> (fs w))
      /\ (mode = lit "overwrite" -> data = content).
Proof.
  intros ctx topic t content mode w k eloc Ht Hm Henc Hb Hk0 Hpl Hdir Hent Hidx.
  destruct (base_ready_realpath _ _ _ Hb) as [Hk Hd].
  pose proof (entry_realpath ctx topic t (fs w) k Ht Hk (Hpl _)) as Hr.
  assert (_safe_path ctx topic w
          = (Ret (truediv (drive_path ctx KNOWLEDGE_DIR) (t ++ lit ".md")), w)) as Hsp.
  { apply (safe_path_accepts ctx topic t w _ k Ht Hr Hk). left.
    split; [done | by exists [t ++ lit ".md"]]. }
  destruct (store_content_ok ctx topic t content mode w k Ht Hb Hpl Hent) as (w1 & data & Hst & Hf1 & Hdata);
    [intros old Hold; by apply (Hdir _ _ Hold) | done |].
  fold eloc in Hf1.
  assert (iloc_ne : k ++ [INDEX_FILE] <> eloc).
  { unfold eloc. intros Heq. apply app_inj_tail in Heq as [_ Heq].
    symmetry in Heq. by apply (sanitized_not_index _ _ Ht). }
  assert (same_links (fs w) (fs w1)) as Hl1.
  { rewrite Hf1. apply same_links_insert; [apply Hpl | done]. }
  destruct (update_index_ok ctx w1 k) as (w2 & text & Hup & Hf2).
  - rewrite <- (realpath_same_links _ _ _ Hl1). exact Hk.
  - rewrite Hf1. unfold eloc. by rewrite stat_insert_below.
  - by apply (plain_entries_same_links _ _ _ Hl1).
  - intros n i. rewrite Hf1. unfold eloc. rewrite lookup_insert.
    case_decide as Hn.
    + apply app_inj_tail in Hn as [_ <-]. intros [= <-]. split.
      * apply encodable_app; [by eapply sanitized_encodable | reflexivity].
      * intros text' [= <-]. exact Hdata.
    + apply Hdir.
  - rewrite Hf1, lookup_insert_ne by done. exact Hidx.
  - exists w2, data, text. split_and!.
    + assert ((_safe_path ctx topic w).1
              = Ret (truediv (drive_path ctx KNOWLEDGE_DIR) (t ++ lit ".md"))) as Hp
        by (by rewrite Hsp).
      rewrite (knowledge_write_valid _ _ _ _ _ _ Hp Hm). unfold bind.
      by rewrite Hst, Hup.
    + by rewrite Hf2, Hf1.
    + intros ->.
      pose proof (store_content_overwrite_ok _ _ _ _ _ _ eloc overwrite_not_append Hst Hr)
        as (w0 & Hed & Hf0 & _).
      destruct (ensure_dir_noop ctx w k Hb) as (w0' & evs & Hed' & Hf0' & _).
      rewrite Hed' in Hed. injection Hed as <-.
      assert (fs w1 !! eloc = Some (File (Some data))) as E1
        by (rewrite Hf1; apply lookup_insert_eq).
      rewrite Hf0 in E1. rewrite lookup_insert_eq in E1. by injection E1.
Qed.

Lemma write_succeeds_witness :
  exists w' data text,
    _knowledge_write drive_ctx (lit "a") (lit "more") (lit "append") (World odd_store [])
    = (Ret (saved_msg (lit "a") (lit "append")), w')
    /\ fs w' = <[kb_dir ++ [INDEX_FILE] := File (Some text)]>
                 (<[kb_dir ++ [lit "a" ++ lit ".md"] := File (Some data)]> odd_store)
    /\ (lit "append" = lit "overwrite" -> data = lit "more").
Proof.
  apply (write_succeeds drive_ctx (lit "a") (lit "a") (lit "more") (lit "append")
           (World odd_store []) kb_dir).
  - by_eval.
  - by right.
  - by_eval.
  - exists [lit "drive"; lit "memory"], (lit "knowledge"), [lit "drive"; lit "memory"].
    split_and!; by_eval.
  - done.
  - apply link_free_plain. decide_eval.
  - apply encodable_store_dir. decide_eval.
  - left. by_eval.
  - left. by_eval.
Defined.

(** ** Writing the same again *)

(** X28. Overwrite is idempotent: over a base directory that is there and
    whose entries are not links, when an overwrite acknowledges, the same
    overwrite made again acknowledges again and leaves every file as the
    first one left it, the index included. *)
Theorem overwrite_twice :
  forall ctx topic content w w1 k,
    base_ready ctx (fs w) k -> plain_entries (fs w) k ->
    _knowledge_write ctx topic content (lit "overwrite") w
      = (Ret (saved_msg topic (lit "overwrite")), w1) ->
    exists w2,
      _knowledge_write ctx topic content (lit "overwrite") w1
        = (Ret (saved_msg topic (lit "overwrite")), w2)
      /\ fs w2 = fs w1.
Proof.
  intros ctx topic content w w1 k Hb Hpl H.
  destruct (base_ready_realpath _ _ _ Hb) as [Hk Hd].
  set (kdir := drive_path ctx KNOWLEDGE_DIR) in *.
  set (t := strip topic).
  set (eloc := k ++ [t ++ lit ".md"]).
  set (iloc := k ++ [INDEX_FILE]).
  assert ((_knowledge_write ctx topic content (lit "overwrite") w).1
          = Ret (saved_msg topic (lit "overwrite"))) as Hack by (by rewrite H).
  destruct (knowledge_write_saved _ _ _ _ _ Hack) as (p & wa & wb & Hp & Hm & Hst & Hup & E).
  rewrite E in H. injection H as <-. clear Hack E.
  pose proof (safe_path_sanitized _ _ _ _ Hp) as Ht. fold t in Ht.
  destruct (safe_path_entry _ _ _ _ Hp) as [Hpe _]. fold kdir t in Hpe. subst p.
  pose proof (entry_realpath ctx topic t (fs w) k Ht Hk (Hpl _)) as Hr. fold kdir eloc in Hr.
  (* the first content step *)
  destruct (ensure_dir_noop ctx w k Hb) as (w0 & evs0 & Hed & Hf0 & _).
  rewrite (store_content_overwrite _ _ _ _ _ overwrite_not_append) in Hst.
  unfold bind in Hst. rewrite Hed in Hst.
  apply write_text_ret in Hst as (loc & Hloc & Hne & Hwe & Henc & Hfa).
  rewrite Hf0 in Hloc, Hwe, Hfa. rewrite Hr in Hloc. injection Hloc as <-.
  assert (same_links (fs w) (fs wa)) as Hla.
  { rewrite Hfa. apply same_links_insert; [apply Hpl | done]. }
  assert (realpath (fs wa) kdir = Some k) as Hka.
  { rewrite <- (realpath_same_links _ _ _ Hla). exact Hk. }
  assert (stat (fs wa) k = Some Dir) as Hda.
  { rewrite Hfa. unfold eloc. by rewrite stat_insert_below. }
  pose proof (plain_entries_same_links _ _ _ Hla Hpl) as Hpla.
  (* the first rebuild *)
  destruct (update_index_ret ctx wa wb k Hka Hda (Hpla INDEX_FILE) Hup) as [Hwi [text Hfb]].
  fold iloc in Hwi, Hfb.
  assert (iloc <> eloc) as Hie.
  { unfold iloc, eloc. intros Heq. apply app_inj_tail in Heq as [_ Heq].
    symmetry in Heq. by apply (sanitized_not_index _ _ Ht). }
  assert (same_links (fs w) (fs wb)) as Hlb.
  { apply same_links_trans with (fs wa); [done |]. by eapply update_index_same_links. }
  assert (fs wb !! eloc = Some (File (Some content))) as Hentry.
  { rewrite Hfb, lookup_insert_ne by done. rewrite Hfa. apply lookup_insert_eq. }
  (* the base directory is still there *)
  assert (base_ready ctx (fs wb) k) as Hbb.
  { destruct Hb as (par & n & ploc & Hkd & Hn & Hpar & Hps & Hkr & Hks).
    exists par, n, ploc. split_and!; [done | done | | | |].
    - rewrite <- (realpath_same_links _ _ _ Hlb). exact Hpar.
    - rewrite Hfb, stat_insert_ne, Hfa, stat_insert_ne; [done | |].
      + by apply (dir_not_writable (fs w)).
      + apply (dir_not_writable (fs wa)); [| by destruct k | done].
        rewrite Hfa, stat_insert_ne; [done |]. by apply (dir_not_writable (fs w)).
    - rewrite <- (realpath_same_links _ _ _ Hlb). exact Hkr.
    - rewrite Hfb. unfold iloc. rewrite stat_insert_below. exact Hda. }
  (* the second content step writes what is there *)
  destruct (ensure_dir_noop ctx wb k Hbb) as (w0' & evs0' & Hed' & Hf0' & _).
  assert (realpath (fs w0') (truediv kdir (t ++ lit ".md")) = Some eloc) as Hr'.
  { rewrite Hf0', <- (realpath_same_links _ _ _ Hlb). exact Hr. }
  assert (write_text (truediv kdir (t ++ lit ".md")) content w0'
          = (Ret tt, set_inode eloc (File (Some content)) (emit (EvWrite eloc content) w0')))
    as Hw2.
  { apply write_text_ok; [exact Hr' | | | exact Henc].
    - rewrite Hf0', Hfb. unfold iloc. rewrite stat_insert_below. exact Hda.
    - rewrite Hf0'. right. exists (Some content). exact Hentry. }
  set (wa' := set_inode eloc (File (Some content)) (emit (EvWrite eloc content) w0')) in *.
  assert (fs wa' = fs wb) as Hfa'.
  { unfold wa', set_inode. simpl. rewrite Hf0'. by apply insert_id. }
  destruct (update_index_again ctx wa wb wa' k Hka Hda Hpla Hup Hfa') as (w2 & Hup2 & Hf2).
  exists w2. split; [| exact Hf2].
  assert ((_safe_path ctx topic wb).1 = Ret (truediv kdir (t ++ lit ".md"))) as Hp2.
  { rewrite (safe_path_same_links _ _ w wb Hlb). exact Hp. }
  rewrite (knowledge_write_valid _ _ _ _ _ _ Hp2 Hm). unfold bind at 1.
  rewrite (store_content_overwrite _ _ _ _ _ overwrite_not_append).
  unfold bind at 1. rewrite Hed', Hw2. unfold bind. by rewrite Hup2.
Qed.

Lemma overwrite_twice_witness :
  let w1 := (_knowledge_write drive_ctx (lit "b") (lit "new") (lit "overwrite")
               (World sample_store [])).2 in
  exists w2,
    _knowledge_write drive_ctx (lit "b") (lit "new") (lit "overwrite") w1
      = (Ret (saved_msg (lit "b") (lit "overwrite")), w2)
    /\ fs w2 = fs w1.
Proof.
  intros w1.
  apply (overwrite_twice drive_ctx (lit "b") (lit "new") (World sample_store []) w1 kb_dir).
  - exists [lit "drive"; lit "memory"], (lit "knowledge"), [lit "drive"; lit "memory"].
    split_and!; by_eval.
  - apply link_free_plain. decide_eval.
  - by_eval.
Defined.

(** ** Links *)

(** X29. No handler creates, removes or retargets a symbolic link,
    whatever its arguments and its outcome: after read, write and list the
    file system has the symbolic links it had, so every path resolves
    after the call to what it resolved to before, and a topic accepted
    before is accepted after. *)
Theorem handlers_keep_links :
  forall ctx w,
    (forall topic, same_links (fs w) (fs (_knowledge_read ctx topic w).2))
    /\ (forall topic content mode,
          same_links (fs w) (fs (_knowledge_write ctx topic content mode w).2))
    /\ same_links (fs w) (fs (_knowledge_list ctx w).2)
    /\ (forall w', same_links (fs w) (fs w') ->
          (forall p, realpath (fs w') p = realpath (fs w) p)
          /\ forall topic, (_safe_path ctx topic w').1 = (_safe_path ctx topic w).1).
Proof.
  intros ctx w. split_and!.
  - intros topic.
    destruct (knowledge_read_cases ctx topic w)
      as [(e & _ & E) | [(e & _ & _ & E) | (p & _ & E)]]; rewrite E; simpl;
      try apply same_links_refl.
    unfold bind. destruct (exists_total p w) as (b & w1 & Hx). rewrite Hx.
    apply exists_inv in Hx as [Hf1 _]. destruct b; simpl.
    + destruct (read_text_result p w1) as (w2 & Hr & Hf2 & _). rewrite Hr. simpl.
      rewrite Hf2, Hf1. apply same_links_refl.
    + rewrite Hf1. apply same_links_refl.
  - intros topic content mode. unfold _knowledge_write, try_ValueError.
    destruct (_safe_path ctx topic w) as [os ws] eqn:Es.
    pose proof (safe_path_pure _ _ _ _ _ Es) as ->.
    destruct os as [p|e]; [| destruct e; apply same_links_refl].
    destruct (negb _); [apply same_links_refl |].
    unfold bind. destruct (store_content ctx p content mode w) as [o1 w1] eqn:Est.
    pose proof (store_content_same_links _ _ _ _ _ _ _ Est) as Hl1.
    destruct o1 as [[]|e]; [| exact Hl1].
    destruct (_update_index ctx w1) as [o2 w2] eqn:Eup.
    pose proof (update_index_same_links _ _ _ _ Eup) as Hl2.
    destruct o2; simpl; by apply same_links_trans with (fs w1).
  - unfold _knowledge_list, bind. cbv zeta.
    set (index_path := truediv (drive_path ctx KNOWLEDGE_DIR) INDEX_FILE).
    assert (forall w0, same_links (fs w) (fs w0) ->
              same_links (fs w) (fs (read_text index_path w0).2)) as Hread.
    { intros w0 Hl0. destruct (read_text_result index_path w0) as (w2 & Hr & Hf2 & _).
      rewrite Hr. simpl. by rewrite Hf2. }
    destruct (exists_total index_path w) as (b1 & w1 & Hx1). rewrite Hx1.
    apply exists_inv in Hx1 as [Hf1 _].
    destruct b1; [apply Hread; rewrite Hf1; apply same_links_refl |].
    destruct (exists_total (drive_path ctx KNOWLEDGE_DIR) w1) as (b2 & w2 & Hx2). rewrite Hx2.
    apply exists_inv in Hx2 as [Hf2 _].
    destruct b2.
    + destruct (_update_index ctx w2) as [o3 w3] eqn:Eup.
      pose proof (update_index_same_links _ _ _ _ Eup) as Hl3. rewrite Hf2, Hf1 in Hl3.
      destruct o3 as [[]|e]; [| exact Hl3].
      destruct (exists_total index_path w3) as (b4 & w4 & Hx4). rewrite Hx4.
      apply exists_inv in Hx4 as [Hf4 _].
      destruct b4; [apply Hread; by rewrite Hf4 | simpl; by rewrite Hf4].
    + simpl. rewrite Hf2, Hf1. apply same_links_refl.
  - intros w' Hl. split.
    + intros p. symmetry. by apply realpath_same_links.
    + intros topic. by apply safe_path_same_links.
Qed.

(** * Unit checks *)

(** ** The sanitizer on sample topics *)

Example sanitize_browser :
  _sanitize_topic (lit "browser-automation") = Ret (lit "browser-automation").
Proof. reflexivity. Qed.

Example sanitize_padded :
  _sanitize_topic (lit "  joi_gotchas ") = Ret (lit "joi_gotchas").
Proof. reflexivity. Qed.

Example sanitize_reserved :
  _sanitize_topic (lit "CoN") = Raise (ValueError (lit "Reserved topic name: CoN")).
Proof. reflexivity. Qed.

Example sanitize_dots :
  _sanitize_topic (lit "a..b") = Raise (ValueError (lit "Invalid characters in topic: a..b")).
Proof. reflexivity. Qed.
